(** * TinyAudioBoot: a shallow embedding of TinyAudioBoot.c

    The ATtiny85 audio bootloader is modelled as pure functions over an
    explicit machine state [mcu].  C integers are [Z] values with the
    wrap-around of their width written out ([u8], [u16], [u32]); program
    memory, the SPM page buffer and the EEPROM are byte or word maps; the
    frame buffer is a list of bytes.  Busy-wait loops on the input pin and
    on the timer take a fuel bound and return [None] when it runs out. *)

From Stdlib Require Import ZArith List Lia Bool.
Import ListNotations.
Local Open Scope Z_scope.

(** ** Fixed-width C arithmetic *)

Definition u8 (x : Z) : Z := x mod 256.
Definition u16 (x : Z) : Z := x mod 65536.
Definition u32 (x : Z) : Z := x mod 4294967296.

(** ** Configuration constants (TinyAudioBoot.c, lines 159-260) *)

(** Modelled from the spec: [SPM_PAGESIZE] comes from the device header
    <avr/io.h>, which is not part of the sources; the program-memory page
    of the ATtiny85 has 64 bytes (the source says so at line 671). *)
Definition SPM_PAGESIZE : Z := 64.

Definition BOOTLOADER_ADDRESS : Z := 0x1BC0.
Definition RJMP : Z := u16 (0xC000 - 1).

Definition COMMAND : Z := 0.
Definition PAGEINDEXLOW : Z := 1.
Definition PAGEINDEXHIGH : Z := 2.
Definition LENGTHLOW : Z := 3.
Definition LENGTHHIGH : Z := 4.
Definition CRCLOW : Z := 5.
Definition CRCHIGH : Z := 6.
Definition DATAPAGESTART : Z := 7.
Definition PAGESIZE : Z := SPM_PAGESIZE.
Definition FRAMESIZE : Z := PAGESIZE + DATAPAGESTART.

Definition NOCOMMAND : Z := 0.
Definition TESTCOMMAND : Z := 1.
Definition PROGCOMMAND : Z := 2.
Definition RUNCOMMAND : Z := 3.
Definition EEPROMCOMMAND : Z := 4.
Definition EXITCOMMAND : Z := 5.

Definition BOOTLOADER_STARTADDRESS : Z := BOOTLOADER_ADDRESS.

(** [sizeof (start_appl_main)]: a function pointer of the AVR ABI has two
    bytes, as has a [uint16_t]. *)
Definition sizeof_pointer : Z := 2.
Definition sizeof_uint16 : Z := 2.
Definition BOOTLOADER_FUNC_ADDRESS : Z := BOOTLOADER_STARTADDRESS - sizeof_pointer.

(** Port B bit masks of the default (non-MMO) build. *)
Definition LEDPORT : Z := 2.        (* 1u << PB1 *)
Definition BOOTCHECKPIN : Z := 1.   (* 1u << PB0 *)
Definition INPUTAUDIOPIN : Z := 8.  (* 1u << PB3 *)

(** The dwell count of the entry loop (lines 558 and 566). *)
Definition DWELL : Z := 3000000.

(** ** Machine state *)

Record mcu : Type := MCU {
  flash : Z -> Z;             (* program memory, one byte per byte address *)
  page_buffer : Z -> Z;       (* SPM temporary page buffer, one word per index *)
  eeprom : Z -> Z;            (* persistent data memory, one byte per address *)
  EEAR : Z;
  EEDR : Z;
  FrameData : list Z;         (* uint8_t FrameData[FRAMESIZE] *)
  sram_after_frame : Z -> Z;  (* what a read past the end of FrameData finds *)
  start_appl_main : Z;        (* void ( *start_appl_main)(void), a word address *)
  sram_after_pointer : Z -> Z; (* the words that follow start_appl_main *)
  PORTB : Z;
  DDRB : Z;
  TCCR0B : Z;
  SREG_I : bool;              (* global interrupt enable *)
  PINB_in : Z -> Z;           (* level of the port B pins at each instant *)
  TCNT0_in : Z -> Z;          (* timer ticks elapsed up to each instant *)
  now : Z;                    (* instants elapsed: one per register read *)
  timer_zero : Z              (* instant of the last TIMER = 0 *)
}.

Definition with_flash (f : Z -> Z) (s : mcu) : mcu :=
  MCU f (page_buffer s) (eeprom s) (EEAR s) (EEDR s) (FrameData s)
      (sram_after_frame s) (start_appl_main s) (sram_after_pointer s) (PORTB s) (DDRB s) (TCCR0B s)
      (SREG_I s) (PINB_in s) (TCNT0_in s) (now s) (timer_zero s).

Definition with_page_buffer (b : Z -> Z) (s : mcu) : mcu :=
  MCU (flash s) b (eeprom s) (EEAR s) (EEDR s) (FrameData s)
      (sram_after_frame s) (start_appl_main s) (sram_after_pointer s) (PORTB s) (DDRB s) (TCCR0B s)
      (SREG_I s) (PINB_in s) (TCNT0_in s) (now s) (timer_zero s).

Definition with_eeprom (e : Z -> Z) (s : mcu) : mcu :=
  MCU (flash s) (page_buffer s) e (EEAR s) (EEDR s) (FrameData s)
      (sram_after_frame s) (start_appl_main s) (sram_after_pointer s) (PORTB s) (DDRB s) (TCCR0B s)
      (SREG_I s) (PINB_in s) (TCNT0_in s) (now s) (timer_zero s).

Definition with_EEAR (a : Z) (s : mcu) : mcu :=
  MCU (flash s) (page_buffer s) (eeprom s) a (EEDR s) (FrameData s)
      (sram_after_frame s) (start_appl_main s) (sram_after_pointer s) (PORTB s) (DDRB s) (TCCR0B s)
      (SREG_I s) (PINB_in s) (TCNT0_in s) (now s) (timer_zero s).

Definition with_EEDR (d : Z) (s : mcu) : mcu :=
  MCU (flash s) (page_buffer s) (eeprom s) (EEAR s) d (FrameData s)
      (sram_after_frame s) (start_appl_main s) (sram_after_pointer s) (PORTB s) (DDRB s) (TCCR0B s)
      (SREG_I s) (PINB_in s) (TCNT0_in s) (now s) (timer_zero s).

Definition with_FrameData (l : list Z) (s : mcu) : mcu :=
  MCU (flash s) (page_buffer s) (eeprom s) (EEAR s) (EEDR s) l
      (sram_after_frame s) (start_appl_main s) (sram_after_pointer s) (PORTB s) (DDRB s) (TCCR0B s)
      (SREG_I s) (PINB_in s) (TCNT0_in s) (now s) (timer_zero s).

Definition with_start_appl_main (p : Z) (s : mcu) : mcu :=
  MCU (flash s) (page_buffer s) (eeprom s) (EEAR s) (EEDR s) (FrameData s)
      (sram_after_frame s) p (sram_after_pointer s) (PORTB s) (DDRB s) (TCCR0B s)
      (SREG_I s) (PINB_in s) (TCNT0_in s) (now s) (timer_zero s).

Definition with_PORTB (v : Z) (s : mcu) : mcu :=
  MCU (flash s) (page_buffer s) (eeprom s) (EEAR s) (EEDR s) (FrameData s)
      (sram_after_frame s) (start_appl_main s) (sram_after_pointer s) v (DDRB s) (TCCR0B s)
      (SREG_I s) (PINB_in s) (TCNT0_in s) (now s) (timer_zero s).

Definition with_DDRB (v : Z) (s : mcu) : mcu :=
  MCU (flash s) (page_buffer s) (eeprom s) (EEAR s) (EEDR s) (FrameData s)
      (sram_after_frame s) (start_appl_main s) (sram_after_pointer s) (PORTB s) v (TCCR0B s)
      (SREG_I s) (PINB_in s) (TCNT0_in s) (now s) (timer_zero s).

Definition with_TCCR0B (v : Z) (s : mcu) : mcu :=
  MCU (flash s) (page_buffer s) (eeprom s) (EEAR s) (EEDR s) (FrameData s)
      (sram_after_frame s) (start_appl_main s) (sram_after_pointer s) (PORTB s) (DDRB s) v
      (SREG_I s) (PINB_in s) (TCNT0_in s) (now s) (timer_zero s).

Definition with_SREG_I (i : bool) (s : mcu) : mcu :=
  MCU (flash s) (page_buffer s) (eeprom s) (EEAR s) (EEDR s) (FrameData s)
      (sram_after_frame s) (start_appl_main s) (sram_after_pointer s) (PORTB s) (DDRB s) (TCCR0B s)
      i (PINB_in s) (TCNT0_in s) (now s) (timer_zero s).

Definition with_now (n : Z) (s : mcu) : mcu :=
  MCU (flash s) (page_buffer s) (eeprom s) (EEAR s) (EEDR s) (FrameData s)
      (sram_after_frame s) (start_appl_main s) (sram_after_pointer s) (PORTB s) (DDRB s) (TCCR0B s)
      (SREG_I s) (PINB_in s) (TCNT0_in s) n (timer_zero s).

Definition with_timer_zero (n : Z) (s : mcu) : mcu :=
  MCU (flash s) (page_buffer s) (eeprom s) (EEAR s) (EEDR s) (FrameData s)
      (sram_after_frame s) (start_appl_main s) (sram_after_pointer s) (PORTB s) (DDRB s) (TCCR0B s)
      (SREG_I s) (PINB_in s) (TCNT0_in s) (now s) n.

Definition with_PINB_in (f : Z -> Z) (s : mcu) : mcu :=
  MCU (flash s) (page_buffer s) (eeprom s) (EEAR s) (EEDR s) (FrameData s)
      (sram_after_frame s) (start_appl_main s) (sram_after_pointer s) (PORTB s) (DDRB s) (TCCR0B s)
      (SREG_I s) f (TCNT0_in s) (now s) (timer_zero s).

(** Well-formed memories hold bytes. *)
Definition bytes (m : Z -> Z) : Prop := forall a, 0 <= m a < 256.

(** A buffer of one page of bytes behind a pointer. *)
Definition page_of_bytes (buf : Z -> Z) : Prop :=
  forall i, 0 <= i < SPM_PAGESIZE -> 0 <= buf i < 256.

(** ** Port and timer access *)

Definition cli (s : mcu) : mcu := with_SREG_I false s.

Definition LEDON (s : mcu) : mcu := with_PORTB (Z.lor (PORTB s) LEDPORT) s.
Definition LEDOFF (s : mcu) : mcu := with_PORTB (Z.land (PORTB s) (255 - LEDPORT)) s.
Definition TOGGLELED (s : mcu) : mcu := with_PORTB (Z.lxor (PORTB s) LEDPORT) s.

(** Every read of a volatile input register takes one instant. *)
Definition tick (s : mcu) : mcu := with_now (now s + 1) s.

Definition read_PINB (s : mcu) : Z * mcu := (PINB_in s (now s), tick s).

(** [PINVALUE] is [PINB & INPUTAUDIOPIN]. *)
Definition PINVALUE (s : mcu) : Z * mcu :=
  (Z.land (PINB_in s (now s)) INPUTAUDIOPIN, tick s).

(** [TIMER] is the 8-bit TCNT0: the ticks since it was last cleared. *)
Definition read_TIMER (s : mcu) : Z * mcu :=
  (u8 (TCNT0_in s (now s) - TCNT0_in s (timer_zero s)), tick s).

Definition clear_TIMER (s : mcu) : mcu := with_timer_zero (now s) s.

(** ** Program memory primitives *)

Definition same_page (a b : Z) : bool := a / SPM_PAGESIZE =? b / SPM_PAGESIZE.

(** Modelled from the spec: [pgm_read_word] of <avr/pgmspace.h>, the
    little-endian word at a byte address of program memory. *)
Definition pgm_read_word (s : mcu) (addr : Z) : Z :=
  flash s addr + 256 * flash s (addr + 1).

(** Modelled from the spec: [boot_page_erase] of <avr/boot.h>; erase
    destroys the whole page that holds the address (every byte reads 0xFF). *)
Definition boot_page_erase (addr : Z) (s : mcu) : mcu :=
  with_flash (fun a => if same_page a addr then 255 else flash s a) s.

(** Modelled from the spec: [boot_page_fill] of <avr/boot.h>; the word goes
    into the slot of the page buffer selected by the address inside the
    page, the lowest address bit being ignored. *)
Definition boot_page_fill (addr w : Z) (s : mcu) : mcu :=
  let slot := (addr / 2) mod (SPM_PAGESIZE / 2) in
  with_page_buffer (fun k => if k =? slot then u16 w else page_buffer s k) s.

(** The byte that the page buffer holds for offset [o] of the page. *)
Definition buffer_byte (s : mcu) (o : Z) : Z :=
  let w := page_buffer s (o / 2) in
  if o mod 2 =? 0 then w mod 256 else (w / 256) mod 256.

(** Modelled from the spec: [boot_page_write] of <avr/boot.h>; the page
    buffer is committed to the page that holds the address.  Programming
    can only clear bits, so the buffer is and-ed onto the page, and the
    hardware clears the buffer afterwards. *)
Definition boot_page_write (addr : Z) (s : mcu) : mcu :=
  with_page_buffer (fun _ => 0xFFFF)
    (with_flash (fun a => if same_page a addr
                          then Z.land (flash s a) (buffer_byte s (a mod SPM_PAGESIZE))
                          else flash s a) s).

(** [boot_program_page_fill] (lines 400-407): the fill with interrupts
    masked and the status register put back. *)
Definition boot_program_page_fill (byteaddr w : Z) (s : mcu) : mcu :=
  let sreg := SREG_I s in
  with_SREG_I sreg (boot_page_fill (u32 byteaddr) w (cli s)).

(** [boot_program_page_erase_write] (lines 413-425).  The busy waits and
    [boot_rww_enable] end without a change to the modelled state. *)
Definition boot_program_page_erase_write (pageaddr : Z) (s : mcu) : mcu :=
  let sreg := SREG_I s in
  with_SREG_I sreg
    (boot_page_write (u32 pageaddr) (boot_page_erase (u32 pageaddr) (cli s))).

(** ** eeprom_write (lines 270-290)

    The wait on EEPE ends once the hardware has finished the previous
    write; EECR is set to the erase-and-write mode; the two strobes on
    EECR (EEMPE, then EEPE) store EEDR at EEAR. *)
Definition eeprom_write (address data : Z) (s : mcu) : mcu :=
  let s1 := if address <? 512 then with_EEAR address s else with_EEAR 511 s in
  let s2 := with_EEDR data s1 in
  with_eeprom (fun a => if a =? EEAR s2 then EEDR s2 else eeprom s2 a) s2.

(** ** pgm_write_block (lines 432-460)

    [block] is the memory seen through the pointer, one word per index;
    [taken] counts the words read from it so far. *)
Fixpoint pgm_write_block_loop (n : nat) (idx : Z) (start_addr flash_addr : Z)
    (block : Z -> Z) (taken size : Z) (s : mcu) : mcu :=
  match n with
  | O => s
  | S n' =>
      let addr := u16 (start_addr + 2 * idx) in
      if (addr >=? flash_addr) && (size >? 0) then
        pgm_write_block_loop n' (u8 (idx + 1)) start_addr flash_addr block
          (taken + 1) (u16 (size - sizeof_uint16))
          (boot_program_page_fill addr (block taken) s)
      else
        pgm_write_block_loop n' (u8 (idx + 1)) start_addr flash_addr block
          taken size
          (boot_program_page_fill addr (pgm_read_word s addr) s)
  end.

Definition pgm_write_block (flash_addr : Z) (block : Z -> Z) (size : Z) (s : mcu) : mcu :=
  let start_addr := u16 ((flash_addr / SPM_PAGESIZE) * SPM_PAGESIZE) in
  let s1 := pgm_write_block_loop (Z.to_nat (SPM_PAGESIZE / 2)) 0 start_addr
              flash_addr block 0 size s in
  boot_program_page_erase_write start_addr s1.

(** ** boot_program_page (lines 471-504)

    [buf] is the memory seen through the pointer, one byte per index. *)
Definition bootloader_vector : Z := u16 (0xC000 + BOOTLOADER_ADDRESS / 2 - 1).

Fixpoint boot_program_page_loop (n : nat) (i : Z) (page : Z) (buf : Z -> Z)
    (s : mcu) : mcu :=
  match n with
  | O => s
  | S n' =>
      let w := u16 (buf i + u16 (buf (i + 1) * 256)) in
      let s1 := if (page =? 0) && (i =? 0)
                then with_start_appl_main (u16 (w - RJMP)) s else s in
      let w1 := if (page =? 0) && (i =? 0) then bootloader_vector else w in
      boot_program_page_loop n' (u16 (i + 2)) page buf
        (boot_page_fill (u32 (page + i)) w1 s1)
  end.

Definition boot_program_page (page : Z) (buf : Z -> Z) (s : mcu) : mcu :=
  let s1 := boot_page_erase page (cli s) in
  let s2 := boot_program_page_loop (Z.to_nat (SPM_PAGESIZE / 2)) 0 page buf s1 in
  boot_page_write page s2.

(** ** Leaving the bootloader (lines 506-535) *)

Definition resetRegister (s : mcu) : mcu :=
  with_TCCR0B 0 (cli (with_DDRB 0 s)).

(** Where control is after a piece of [a_main]. *)
Inductive outcome : Type :=
| Bootloader (s : mcu)                (* control stays in the bootloader *)
| Application (entry : Z) (s : mcu)   (* the call through start_appl_main *)
| FrameError (s : mcu)                (* the endless fast blink of line 617 *)
| Waiting.                            (* a busy wait that has not ended *)

(** [exitBootloader]: the pointer is read back from its flash slot and
    called when it is not null; otherwise the function returns. *)
Definition exitBootloader (s : mcu) : outcome :=
  let s1 := with_start_appl_main (pgm_read_word s BOOTLOADER_FUNC_ADDRESS) s in
  if start_appl_main s1 =? 0 then Bootloader s1
  else Application (start_appl_main s1) (resetRegister s1).

(** [runProgramm]: the pointer variable, seen as a block of one word, is
    merged into the flash page of its slot and then called. *)
Definition runProgramm (s : mcu) : outcome :=
  let s1 := resetRegister s in
  let s2 := pgm_write_block BOOTLOADER_FUNC_ADDRESS
              (fun k => if k =? 0 then start_appl_main s1 else sram_after_pointer s1 k)
              sizeof_pointer s1 in
  Application (start_appl_main s2) s2.

(** ** The frame buffer *)

Fixpoint store (i : nat) (v : Z) (l : list Z) : list Z :=
  match l, i with
  | [], _ => []
  | _ :: l', O => v :: l'
  | x :: l', S i' => x :: store i' v l'
  end.

(** [FrameData[i]]; an index past the array reads the memory behind it. *)
Definition frame_byte (s : mcu) (i : Z) : Z :=
  if (0 <=? i) && (i <? FRAMESIZE) then nth (Z.to_nat i) (FrameData s) 0
  else sram_after_frame s (i - FRAMESIZE).

(** [FrameData[i] = v]; the program only stores inside the array. *)
Definition frame_set (i v : Z) (s : mcu) : mcu :=
  with_FrameData (store (Z.to_nat i) v (FrameData s)) s.

(** The pointer [FrameData + DATAPAGESTART]. *)
Definition payload (s : mcu) : Z -> Z := fun i => frame_byte s (DATAPAGESTART + i).

(** ** receiveFrame (lines 303-394) *)

Definition obind {A B : Type} (o : option A) (f : A -> option B) : option B :=
  match o with
  | Some a => f a
  | None => None
  end.

Notation "x <- o ;; k" := (obind o (fun x => k))
  (at level 61, o at next level, right associativity).
Notation "' p <- o ;; k" := (obind o (fun x => let p := x in k))
  (at level 61, p pattern, o at next level, right associativity).

(** [while (p == PINVALUE) ;] *)
Fixpoint wait_for_edge (fuel : nat) (p : Z) (s : mcu) : option mcu :=
  match fuel with
  | O => None
  | S fuel' =>
      let (v, s1) := PINVALUE s in
      if p =? v then wait_for_edge fuel' p s1 else Some s1
  end.

(** [while (TIMER < delayTime) ;] *)
Fixpoint delay (fuel : nat) (delayTime : Z) (s : mcu) : option mcu :=
  match fuel with
  | O => None
  | S fuel' =>
      let (t, s1) := read_TIMER s in
      if t <? delayTime then delay fuel' delayTime s1 else Some s1
  end.

(** The 16 measured edges of lines 324-338; the result is [(p, time)]. *)
Fixpoint sync_loop (count : nat) (n : Z) (fuel : nat) (p time : Z) (s : mcu)
    : option (Z * Z * mcu) :=
  match count with
  | O => Some (p, time, s)
  | S count' =>
      s1 <- wait_for_edge fuel p s ;;
      let (t, s2) := read_TIMER s1 in
      let s3 := clear_TIMER s2 in
      let (p', s4) := PINVALUE s3 in
      let time' := if n >=? 8 then u16 (time + t) else time in
      sync_loop count' (u16 (n + 1)) fuel p' time' s4
  end.

(** The wait for the start bit of lines 346-360; the result is
    [(p, counter)] when the loop condition fails. *)
Fixpoint wait_start (rounds fuel : nat) (delayTime p counter : Z) (s : mcu)
    : option (Z * Z * mcu) :=
  match rounds with
  | O => None
  | S rounds' =>
      let (v, s1) := PINVALUE s in
      if p =? v then
        s2 <- wait_for_edge fuel p s1 ;;
        let (p', s3) := PINVALUE s2 in
        let s4 := clear_TIMER s3 in
        s5 <- delay fuel delayTime s4 ;;
        wait_start rounds' fuel delayTime p' (u16 (counter + 1)) (clear_TIMER s5)
      else Some (p, counter, s1)
  end.

(** Lines 315-361: bit rate estimation and start bit; the result is
    [(delayTime, p, counter)]. *)
Definition synchronise (fuel : nat) (s : mcu) : option (Z * Z * Z * mcu) :=
  let (p0, s1) := PINVALUE s in
  s2 <- wait_for_edge fuel p0 s1 ;;
  let (p1, s3) := PINVALUE s2 in
  let s4 := clear_TIMER s3 in
  '(p2, time, s5) <- sync_loop 16 0 fuel p1 0 s4 ;;
  let delayTime := u16 (time * 3) / 4 / 8 in
  s6 <- delay fuel delayTime s5 ;;
  '(p3, counter, s7) <- wait_start fuel fuel delayTime p2 0 s6 ;;
  let (p4, s8) := PINVALUE s7 in
  Some (delayTime, p4, counter, s8).

(** One bit cell, lines 368-379: the edge, the sample [p] right after it,
    the delay, the sample [t]. *)
Definition bit_cell (fuel : nat) (delayTime p : Z) (s : mcu) : option (Z * Z * mcu) :=
  s1 <- wait_for_edge fuel p s ;;
  let s2 := clear_TIMER s1 in
  let (p', s3) := PINVALUE s2 in
  s4 <- delay fuel delayTime s3 ;;
  let (t, s5) := PINVALUE s4 in
  Some (p', t, s5).

(** Lines 383-384: the byte is shifted left and the bit or-ed in. *)
Definition shift_in (p t dataPointer : Z) (s : mcu) : mcu :=
  let s1 := frame_set dataPointer (u8 (frame_byte s dataPointer * 2)) s in
  if p =? t then s1 else frame_set dataPointer (Z.lor (frame_byte s1 dataPointer) 1) s1.

(** The local variables of the data loop. *)
Record rx : Type := RX {
  rx_p : Z;
  rx_k : Z;
  rx_dataPointer : Z;
  rx_counter : Z;
  rx_mcu : mcu
}.

(** The data loop of lines 366-392, [count] cells long. *)
Fixpoint receive_bits (count fuel : nat) (delayTime : Z) (r : rx) : option rx :=
  match count with
  | O => Some r
  | S count' =>
      '(p, t, s1) <- bit_cell fuel delayTime (rx_p r) (rx_mcu r) ;;
      let counter := u16 (rx_counter r + 1) in
      let s2 := shift_in p t (rx_dataPointer r) s1 in
      let k := u8 (rx_k r - 1) in
      if k =? 0
      then receive_bits count' fuel delayTime
             (RX t 8 (u8 (rx_dataPointer r + 1)) counter s2)
      else receive_bits count' fuel delayTime
             (RX t k (rx_dataPointer r) counter s2)
  end.

Definition receiveFrame (fuel : nat) (s : mcu) : option (Z * mcu) :=
  '(delayTime, p, counter, s1) <- synchronise fuel s ;;
  r <- receive_bits (Z.to_nat (FRAMESIZE * 8)) fuel delayTime (RX p 8 0 counter s1) ;;
  Some (1, rx_mcu r).

(** ** The command interpreter of a_main (lines 612-680) *)

(** The EEPROM loop of lines 663-668; [i] also counts the bytes taken
    from [buf]. *)
Fixpoint eeprom_loop (count : nat) (i address : Z) (buf : Z -> Z) (s : mcu) : mcu :=
  match count with
  | O => s
  | S count' =>
      eeprom_loop count' (u8 (i + 1)) address buf
        (eeprom_write (u16 (address + i)) (buf i) s)
  end.

Definition prog_address (s : mcu) : Z :=
  let pageNumber :=
    u16 (u16 (frame_byte s PAGEINDEXHIGH * 256) + frame_byte s PAGEINDEXLOW) in
  u16 (SPM_PAGESIZE * pageNumber).

Definition eeprom_address (s : mcu) : Z :=
  let pageNumber := frame_byte s PAGEINDEXLOW in
  u8 (SPM_PAGESIZE * pageNumber).

(** The switch on the command byte and the statement after it. *)
Definition dispatch (s : mcu) : outcome :=
  let cmd := frame_byte s COMMAND in
  if cmd =? PROGCOMMAND then
    let address := prog_address s in
    let s1 := if address <? BOOTLOADER_ADDRESS
              then TOGGLELED (boot_program_page address (payload s) s)
              else s in
    Bootloader (frame_set COMMAND NOCOMMAND s1)
  else if cmd =? RUNCOMMAND then
    runProgramm s
  else if cmd =? EEPROMCOMMAND then
    let data_length := frame_byte s LENGTHLOW in
    let s1 := eeprom_loop (Z.to_nat data_length) 0 (eeprom_address s) (payload s) s in
    match exitBootloader (LEDOFF s1) with
    | Bootloader s2 => Bootloader (frame_set COMMAND NOCOMMAND s2)
    | o => o
    end
  else Bootloader (frame_set COMMAND NOCOMMAND s).

(** One turn of the [while (1)] of line 612. *)
Definition command_step (fuel : nat) (s : mcu) : outcome :=
  match receiveFrame fuel s with
  | None => Waiting
  | Some (ok, s1) => if ok =? 0 then FrameError s1 else dispatch s1
  end.

Fixpoint command_loop (turns fuel : nat) (s : mcu) : outcome :=
  match turns with
  | O => Bootloader s
  | S turns' =>
      match command_step fuel s with
      | Bootloader s1 => command_loop turns' fuel s1
      | o => o
      end
  end.

(** ** The entry of a_main (lines 546-570, the WONKYSTUFF build) *)

(** The dwell loop of lines 554-563: one read of PINB per turn; the break
    of line 561 ends it after at most [DWELL + 1] turns, which is the fuel
    [a_main_entry] gives it. *)
Fixpoint dwell_loop (turns : nat) (lPress : Z) (s : mcu) : Z * mcu :=
  match turns with
  | O => (lPress, s)
  | S turns' =>
      let (v, s1) := read_PINB s in
      if Z.land v BOOTCHECKPIN =? 0 then
        let s2 := LEDON s1 in
        let lPress' := u32 (lPress + 1) in
        if lPress' >? DWELL then (lPress', s2)
        else dwell_loop turns' lPress' s2
      else (lPress, s1)
  end.

Definition a_main_entry (s : mcu) : outcome :=
  let s0 := snd (PINVALUE s) in
  let st := dwell_loop (Z.to_nat (DWELL + 1)) 0 s0 in
  let lPress := fst st in
  let s2 := LEDOFF (snd st) in
  if lPress <? DWELL then exitBootloader s2 else Bootloader s2.

Definition a_main (turns fuel : nat) (s : mcu) : outcome :=
  match a_main_entry s with
  | Bootloader s1 => command_loop turns fuel s1
  | o => o
  end.

(** [main] (lines 683-695): the port set-up, the timer at clk/8. *)
Definition main (turns fuel : nat) (s : mcu) : outcome :=
  let s1 := with_DDRB (Z.lor (DDRB s) LEDPORT) s in
  let s2 := with_DDRB (Z.land (DDRB s1) (255 - INPUTAUDIOPIN)) s1 in
  let s3 := with_DDRB (Z.land (DDRB s2) (255 - BOOTCHECKPIN)) s2 in
  let s4 := with_PORTB (Z.lor (PORTB s3) BOOTCHECKPIN) s3 in
  a_main turns fuel (with_TCCR0B 2 s4).

(** ** Definitions used by the statements *)

(** The low or the high byte of a word, by the parity of the address. *)
Definition byte_of_word (w a : Z) : Z :=
  if a mod 2 =? 0 then w mod 256 else (w / 256) mod 256.

(** The word that [boot_program_page] puts at offset [i] of [page]. *)
Definition patched_word (page : Z) (buf : Z -> Z) (i : Z) : Z :=
  if (page =? 0) && (i =? 0) then bootloader_vector
  else u16 (buf i + u16 (buf (i + 1) * 256)).

(** The word address an [rjmp] at address 0 jumps to, as line 491 decodes it. *)
Definition rjmp_target (w : Z) : Z := u16 (w - RJMP).

(** The [rjmp] instruction with the 12-bit offset [k]. *)
Definition rjmp (k : Z) : Z := 0xC000 + k.

(** The word of the payload at offset [i]. *)
Definition payload_word (buf : Z -> Z) (i : Z) : Z := buf i + 256 * buf (i + 1).

(** The start of the page that holds [a]. *)
Definition page_start (a : Z) : Z := (a / SPM_PAGESIZE) * SPM_PAGESIZE.

(** The first word boundary at or after [a]. *)
Definition first_word (a : Z) : Z := a + a mod 2.

(** The word the merge is specified to leave at word offset [k] of the
    page: the next word of [block] while the offset is at or after
    [flash_addr] and bytes of the block remain unread, the old word
    otherwise.  [read] is the number of block words read before. *)
Definition merge_word (old : Z -> Z) (flash_addr : Z) (block : Z -> Z)
    (size : Z) (k : Z) : Z :=
  let addr := page_start flash_addr + 2 * k in
  let read := (addr - first_word flash_addr) / 2 in
  if (flash_addr <=? addr) && (2 * read <? size) then block read else old addr.

(** The address the reset vector at address 0 jumps to. *)
Definition reset_vector_target (s : mcu) : Z := rjmp_target (pgm_read_word s 0).

(** The merge as it is specified, word by word over the page. *)
Definition merges_as_specified (flash_addr : Z) (block : Z -> Z) (size : Z)
    (s : mcu) : Prop :=
  forall k, 0 <= k < SPM_PAGESIZE / 2 ->
    pgm_read_word (pgm_write_block flash_addr block size s)
      (page_start flash_addr + 2 * k) =
    merge_word (pgm_read_word s) flash_addr block size k.

(** RUNCOMMAND read as a repair of the reset vector: control goes to the
    saved entry and the vector at address 0 jumps there too. *)
Definition run_restores_vector (s : mcu) : Prop :=
  match dispatch s with
  | Application X s' => X = start_appl_main s /\ reset_vector_target s' = X
  | _ => False
  end.

(** The calls of [eeprom_write] that the loop of lines 663-668 makes, in
    order: address and data of each. *)
Fixpoint eeprom_requests (count : nat) (i address : Z) (buf : Z -> Z)
    : list (Z * Z) :=
  match count with
  | O => []
  | S count' =>
      (u16 (address + i), buf i) :: eeprom_requests count' (u8 (i + 1)) address buf
  end.

Definition eeprom_write_all (requests : list (Z * Z)) (s : mcu) : mcu :=
  fold_left (fun st r => eeprom_write (fst r) (snd r) st) requests s.

(** The requests of an EEPROMCOMMAND frame. *)
Definition eeprom_command_requests (s : mcu) : list (Z * Z) :=
  eeprom_requests (Z.to_nat (frame_byte s LENGTHLOW)) 0 (eeprom_address s) (payload s).

(** The boot request at the [j]-th turn of the dwell loop of [a_main]: the
    pin is pulled low.  The read of [PINVALUE] at line 546 comes first. *)
Definition boot_request (s : mcu) (j : Z) : bool :=
  Z.land (PINB_in s (now s + 1 + j)) BOOTCHECKPIN =? 0.

(** The request is released at turn [i], after having been held since entry. *)
Definition released_at (s : mcu) (i : Z) : Prop :=
  (forall j, 0 <= j < i -> boot_request s j = true) /\ boot_request s i = false.

(** The entry pointer in its flash slot. *)
Definition stored_entry (s : mcu) : Z := pgm_read_word s BOOTLOADER_FUNC_ADDRESS.

(** The entry decision read as: an early release always ends in the
    application. *)
Definition exits_on_early_release (s : mcu) : Prop :=
  forall i, 0 <= i < DWELL -> released_at s i ->
    exists X s', a_main_entry s = Application X s'.

(** ** The line code as the receiver samples it *)

(** The level of the audio pin at an instant, as [PINVALUE] reads it. *)
Definition level (s : mcu) (i : Z) : Z := Z.land (PINB_in s i) INPUTAUDIOPIN.

(** What [TIMER] shows at instant [i] when it was cleared at [zero]. *)
Definition timer_since (s : mcu) (zero i : Z) : Z :=
  u8 (TCNT0_in s i - TCNT0_in s zero).

(** The samples of one bit cell: [p] right after the leading edge and [t]
    after the delay.  The bit is 1 when they differ. *)
Definition cell_bit (c : Z * Z) : Z := if fst c =? snd c then 0 else 1.

(** The samples of [count] successive bit cells, taken from the line by
    [bit_cell] alone, with the level to wait on next and the machine after. *)
Fixpoint sample_cells (count fuel : nat) (delayTime p : Z) (s : mcu)
    : option (list (Z * Z) * Z * mcu) :=
  match count with
  | O => Some ([], p, s)
  | S count' =>
      '(p', t, s1) <- bit_cell fuel delayTime p s ;;
      '(cells, q, s2) <- sample_cells count' fuel delayTime t s1 ;;
      Some ((p', t) :: cells, q, s2)
  end.

(** The first read, the [e]-th from instant [n] on, that finds the pin
    at a level other than [p]: where [while (p == PINVALUE);] ends. *)
Definition first_change (lvl : Z -> Z) (p n e : Z) : Prop :=
  0 <= e /\ (forall i, 0 <= i < e -> lvl (n + i) = p) /\ lvl (n + e) <> p.

(** The first read, the [m]-th from instant [n] on, that finds the timer
    cleared at [z] at [d] or above: where [while (TIMER < delayTime);]
    ends. *)
Definition first_reach (tmr : Z -> Z -> Z) (d z n m : Z) : Prop :=
  0 <= m /\ (forall i, 0 <= i < m -> tmr z (n + i) < d) /\ d <= tmr z (n + m).

(** The bit cells as the line shows them, from instant [n] on, with [p]
    the level to wait on and [z] the instant the timer was last cleared.
    A cell's edge is the first read that finds a level other than [p]; its
    first sample is the next read, where the timer is cleared; its second
    sample follows the first read to find the timer at [d].  The last three
    indices are the level to wait on, the instant and the origin of the
    timer once the last cell of the list has been sampled. *)
Inductive cells_on (lvl : Z -> Z) (tmr : Z -> Z -> Z) (d : Z)
    : Z -> Z -> Z -> list (Z * Z) -> Z -> Z -> Z -> Prop :=
| cells_on_nil (p n z : Z) : cells_on lvl tmr d p n z [] p n z
| cells_on_cons (p n z e m : Z) (cells : list (Z * Z)) (q n' z' : Z) :
    first_change lvl p n e ->
    first_reach tmr d (n + e + 1) (n + e + 2) m ->
    cells_on lvl tmr d (lvl (n + e + m + 3)) (n + e + m + 4) (n + e + 1)
      cells q n' z' ->
    cells_on lvl tmr d p n z ((lvl (n + e + 1), lvl (n + e + m + 3)) :: cells)
      q n' z'.

(** The measured edges of lines 324-338 as the line shows them: [count]
    edges from index [idx] on; each is waited for, the timer is read and
    cleared, the level sampled, and from index 8 on the reading is added
    to [time]. *)
Inductive edges_on (lvl : Z -> Z) (tmr : Z -> Z -> Z)
    : nat -> Z -> Z -> Z -> Z -> Z -> Z -> Z -> Z -> Z -> Prop :=
| edges_on_nil (idx p time n z : Z) :
    edges_on lvl tmr O idx p time n z p time n z
| edges_on_cons (count : nat) (idx p time n z e p' time' n' z' : Z) :
    first_change lvl p n e ->
    edges_on lvl tmr count (u16 (idx + 1)) (lvl (n + e + 2))
      (if idx >=? 8 then u16 (time + tmr z (n + e + 1)) else time)
      (n + e + 3) (n + e + 2) p' time' n' z' ->
    edges_on lvl tmr (S count) idx p time n z p' time' n' z'.

(** The wait for the start bit of lines 346-360 as the line shows it: as
    long as the level read at the test is still [p], an edge is waited
    for, the level sampled and the delay taken; the loop is left at the
    first test that reads another level. *)
Inductive start_on (lvl : Z -> Z) (tmr : Z -> Z -> Z) (d : Z)
    : Z -> Z -> Z -> Z -> Z -> Z -> Z -> Z -> Prop :=
| start_on_found (p c n z : Z) :
    lvl n <> p -> start_on lvl tmr d p c n z p c (n + 1) z
| start_on_wait (p c n z e m p' c' n' z' : Z) :
    lvl n = p ->
    first_change lvl p (n + 1) e ->
    first_reach tmr d (n + e + 3) (n + e + 3) m ->
    start_on lvl tmr d (lvl (n + e + 2)) (u16 (c + 1)) (n + e + m + 4)
      (n + e + m + 4) p' c' n' z' ->
    start_on lvl tmr d p c n z p' c' n' z'.

(** The synchronisation of lines 315-361 as the line shows it from instant
    [n] on: a first edge, the 16 measured edges, the delay computed from
    them, the start bit.  It gives the delay [d], the level [p] and the
    counter [c] the data loop starts with, at instant [n'] with the timer
    cleared at [z']. *)
Definition sync_on (lvl : Z -> Z) (tmr : Z -> Z -> Z) (n d p c n' z' : Z) : Prop :=
  exists e0 p2 time n2 z2 m p3 n3,
    first_change lvl (lvl n) (n + 1) e0
    /\ edges_on lvl tmr 16 0 (lvl (n + e0 + 2)) 0 (n + e0 + 3) (n + e0 + 3)
         p2 time n2 z2
    /\ d = u16 (time * 3) / 4 / 8
    /\ first_reach tmr d z2 n2 m
    /\ start_on lvl tmr d p2 0 (n2 + m + 1) z2 p3 c n3 z'
    /\ p = lvl n3 /\ n' = n3 + 1.

(** The value of a list of bits, the first bit being the most significant. *)
Definition byte_msb_first (bits : list Z) : Z :=
  fold_left (fun acc b => 2 * acc + b) bits 0.

(** The bits of the [j]-th byte of a stream of cells. *)
Definition byte_cells (cells : list (Z * Z)) (j : nat) : list Z :=
  map cell_bit (firstn 8 (skipn (8 * j) cells)).

(** What lines 383-384 leave in a byte that held [old]. *)
Definition shift_value (old : Z) (c : Z * Z) : Z :=
  if fst c =? snd c then u8 (old * 2) else Z.lor (u8 (old * 2)) 1.

(** The frame buffer after the data loop has taken [cells], from the bit
    counter [k] and the byte index [dataPointer]. *)
Fixpoint pack_frame (cells : list (Z * Z)) (k dataPointer : Z) (l : list Z)
    : list Z :=
  match cells with
  | [] => l
  | c :: cells' =>
      let i := Z.to_nat dataPointer in
      let l1 := store i (shift_value (nth i l 0) c) l in
      if u8 (k - 1) =? 0 then pack_frame cells' 8 (u8 (dataPointer + 1)) l1
      else pack_frame cells' (u8 (k - 1)) dataPointer l1
  end.

(** The machine a reception returns when the data loop has taken [cells]
    and ended at instant [n'] with the timer cleared at [z']. *)
Definition received (cells : list (Z * Z)) (n' z' : Z) (s : mcu) : mcu :=
  with_FrameData (pack_frame cells 8 0 (FrameData s))
    (with_now n' (with_timer_zero z' s)).

(** ** Concrete machines for the examples *)

(** A machine fresh from the factory: erased memories, a silent line. *)
Definition blank : mcu :=
  MCU (fun _ => 255) (fun _ => 0xFFFF) (fun _ => 255) 0 0 (repeat 0 71)
      (fun _ => 0) 0 (fun _ => 0) 0 0 0 false (fun _ => 0) (fun n => n) 0 0.

(** A frame: command, page number, length, and a payload that starts
    with the word [w0] and goes on with the bytes 2, 3, 4, ... *)
Definition frame_of (cmd page_lo page_hi len_lo w0 : Z) : list Z :=
  [cmd; page_lo; page_hi; len_lo; 0; 0; 0; w0 mod 256; w0 / 256]
  ++ map Z.of_nat (seq 2 62).

Definition with_frame (cmd page_lo page_hi len_lo w0 : Z) (s : mcu) : mcu :=
  with_FrameData (frame_of cmd page_lo page_hi len_lo w0) s.

Definition after (o : outcome) : mcu :=
  match o with
  | Bootloader s | Application _ s | FrameError s => s
  | Waiting => blank
  end.

(** A machine whose entry slot holds the null pointer, on which the boot
    request is never asserted (the pin stays high). *)
Definition no_application : mcu :=
  MCU (fun _ => 0) (fun _ => 0xFFFF) (fun _ => 255) 0 0 (repeat 0 71)
      (fun _ => 0) 0 (fun _ => 0) 0 0 0 false (fun _ => 1) (fun n => n) 0 0.

(** The sender's side of the line code, for the examples: every bit cell
    starts with a transition, and a 1 bit has one more in its middle.
    [encode] lists the level of each half cell. *)
Fixpoint encode (lvl : bool) (bits : list bool) : list bool :=
  match bits with
  | [] => []
  | b :: bits' =>
      let first := negb lvl in
      let second := if b then negb first else first in
      first :: second :: encode second bits'
  end.

Fixpoint bits_of_byte (n : nat) (b : Z) : list bool :=
  match n with
  | O => []
  | S n' => Z.testbit b (Z.of_nat n') :: bits_of_byte n' b
  end.

(** Twenty 0 bits for the bit rate, the start bit, the frame. *)
Definition wire (frame : list Z) : list bool :=
  encode false
    (repeat false 20 ++ [true] ++ flat_map (bits_of_byte 8) frame ++ [false; false]).

(** Port B while [frame] is sent at 16 instants per half cell. *)
Definition line (frame : list Z) (i : Z) : Z :=
  if nth (Z.to_nat (i / 16)) (wire frame) false then INPUTAUDIOPIN else 0.

(** A blank machine to which a PROGCOMMAND frame for page 1 is sent. *)
Definition listening : mcu :=
  with_PINB_in (line (frame_of PROGCOMMAND 1 0 64 0x1234)) blank.

(** An application whose reset vector is [rjmp .+0x1E], entry at word 0x10,
    has been programmed into page 0; then a RUNCOMMAND frame arrives. *)
Definition programmed : mcu :=
  after (dispatch (with_frame PROGCOMMAND 0 0 64 (rjmp 0x0F) blank)).

Definition run_requested : mcu := frame_set COMMAND RUNCOMMAND programmed.

(** An upload under way: the frame for page 0 of an application whose
    reset vector is [rjmp .+0x1E] is in the buffer, and the sender goes on
    with a RUNCOMMAND frame. *)
Definition session : mcu :=
  with_frame PROGCOMMAND 0 0 64 (rjmp 0x0F)
    (with_PINB_in (line (frame_of RUNCOMMAND 0 0 0 0)) blank).

(** ** Outcomes and what a run keeps *)


(** What an outcome has to meet: [P] of the machine when control stays in
    the bootloader, [R] of the entry and the machine when the application
    is called; the error blink is not met at all, a wait meets anything. *)
Definition outcome_meets (P : mcu -> Prop) (R : Z -> mcu -> Prop) (o : outcome)
    : Prop :=
  match o with
  | Bootloader s => P s
  | Application X s => R X s
  | FrameError _ => False
  | Waiting => True
  end.

(** [P] holds of the machine wherever control has gone. *)
Definition holds_after (P : mcu -> Prop) (o : outcome) : Prop :=
  outcome_meets P (fun _ => P) o.

(** [s'] is [s] but for the frame buffer, the clock and the timer origin. *)
Definition only_frame_and_clock (s s' : mcu) : Prop :=
  exists l n z, s' = with_FrameData l (with_now n (with_timer_zero z s)).

(** The bootloader's own region of program memory is as it was. *)
Definition bootloader_kept (s s' : mcu) : Prop :=
  forall a, BOOTLOADER_ADDRESS <= a -> flash s' a = flash s a.

(** The memories hold what the hardware can hold: bytes in program
    memory, a 16-bit value in the entry pointer. *)
Definition well_formed (s : mcu) : Prop :=
  bytes (flash s) /\ 0 <= start_appl_main s < 65536.

(** The machine as the application finds it when it is called at [X]. *)
Definition clean_start (X : Z) (s : mcu) : Prop :=
  DDRB s = 0 /\ TCCR0B s = 0 /\ SREG_I s = false
  /\ start_appl_main s = X /\ stored_entry s = X.

(** The reset vector at address 0 jumps to the bootloader. *)
Definition vector_to_bootloader (s : mcu) : Prop :=
  pgm_read_word s 0 = bootloader_vector.

(** * Proofs *)

Ltac proj :=
  cbn [flash page_buffer eeprom EEAR EEDR FrameData sram_after_frame
       start_appl_main sram_after_pointer PORTB DDRB TCCR0B SREG_I PINB_in
       TCNT0_in now timer_zero
       with_flash with_page_buffer with_eeprom with_EEAR with_EEDR
       with_FrameData with_start_appl_main with_PORTB with_DDRB with_TCCR0B
       with_SREG_I with_now with_timer_zero] in *.

Ltac unfold_ops :=
  unfold boot_program_page_fill, boot_program_page_erase_write, boot_page_fill,
    boot_page_erase, boot_page_write, resetRegister, cli, LEDON, LEDOFF,
    TOGGLELED, tick, clear_TIMER, frame_set in *.

(** ** Arithmetic of bytes and words *)

Lemma land_255_byte (b : Z) : 0 <= b < 256 -> Z.land 255 b = b.
Proof.
  intros H. rewrite Z.land_comm. change 255 with (Z.ones 8).
  rewrite Z.land_ones by lia. apply Z.mod_small. simpl. lia.
Qed.

Lemma byte_of_word_range (w a : Z) : 0 <= byte_of_word w a < 256.
Proof.
  unfold byte_of_word. destruct (a mod 2 =? 0); apply Z.mod_pos_bound; lia.
Qed.

Lemma word_of_bytes (w : Z) :
  0 <= w < 65536 -> w mod 256 + 256 * ((w / 256) mod 256) = w.
Proof. intros H. Z.div_mod_to_equations. lia. Qed.

Lemma u16_range (x : Z) : 0 <= u16 x < 65536.
Proof. unfold u16. apply Z.mod_pos_bound. lia. Qed.

Lemma u8_range (x : Z) : 0 <= u8 x < 256.
Proof. unfold u8. apply Z.mod_pos_bound. lia. Qed.

Lemma u16_small (x : Z) : 0 <= x < 65536 -> u16 x = x.
Proof. intros H. unfold u16. apply Z.mod_small. lia. Qed.

Lemma u8_small (x : Z) : 0 <= x < 256 -> u8 x = x.
Proof. intros H. unfold u8. apply Z.mod_small. lia. Qed.

Lemma u32_small (x : Z) : 0 <= x < 4294967296 -> u32 x = x.
Proof. intros H. unfold u32. apply Z.mod_small. lia. Qed.

Lemma patched_word_range (page : Z) (buf : Z -> Z) (i : Z) :
  0 <= patched_word page buf i < 65536.
Proof.
  unfold patched_word. destruct ((page =? 0) && (i =? 0)).
  - unfold bootloader_vector. apply u16_range.
  - apply u16_range.
Qed.

Lemma payload_word_u16 (buf : Z -> Z) (i : Z) :
  page_of_bytes buf -> 0 <= i < SPM_PAGESIZE - 1 ->
  u16 (buf i + u16 (buf (i + 1) * 256)) = payload_word buf i.
Proof.
  intros H Hi. unfold payload_word, page_of_bytes, SPM_PAGESIZE in *.
  assert (0 <= buf i < 256) by (apply H; lia).
  assert (0 <= buf (i + 1) < 256) by (apply H; lia).
  rewrite (u16_small (buf (i + 1) * 256)) by lia. rewrite u16_small by lia. lia.
Qed.

Lemma slot_of_offset (page k : Z) :
  page mod 64 = 0 -> 0 <= page -> 0 <= k < 32 ->
  ((page + 2 * k) / 2) mod (SPM_PAGESIZE / 2) = k.
Proof.
  intros Hp H0 Hk. change (SPM_PAGESIZE / 2) with 32.
  Z.div_mod_to_equations. lia.
Qed.

Lemma same_page_offset (page a : Z) :
  page mod 64 = 0 ->
  same_page a page = true -> 0 <= a - page < 64 /\ a mod 64 = a - page.
Proof.
  unfold same_page, SPM_PAGESIZE. intros Hp H. apply Z.eqb_eq in H.
  Z.div_mod_to_equations. lia.
Qed.

Lemma same_page_in (page a : Z) :
  page mod 64 = 0 -> 0 <= a - page < 64 -> same_page a page = true.
Proof.
  unfold same_page, SPM_PAGESIZE. intros Hp H. apply Z.eqb_eq.
  Z.div_mod_to_equations. lia.
Qed.

(** ** boot_program_page *)

Lemma boot_program_page_loop_flash (n : nat) :
  forall i page buf s, flash (boot_program_page_loop n i page buf s) = flash s.
Proof.
  induction n as [|n IH]; intros; [reflexivity|].
  cbn [boot_program_page_loop]. rewrite IH. unfold_ops.
  destruct ((page =? 0) && (i =? 0)); reflexivity.
Qed.

Lemma boot_program_page_loop_buffer (n : nat) :
  forall i0 page buf s k,
    page mod 64 = 0 -> 0 <= page < 65536 -> 0 <= i0 -> i0 + Z.of_nat n <= 32 ->
    page_buffer (boot_program_page_loop n (2 * i0) page buf s) k =
    if (i0 <=? k) && (k <? i0 + Z.of_nat n)
    then patched_word page buf (2 * k) else page_buffer s k.
Proof.
  induction n as [|n IH]; intros i0 page buf s k Hp Hpage Hi Hn.
  - cbn [boot_program_page_loop].
    replace ((i0 <=? k) && (k <? i0 + Z.of_nat 0)) with false; [reflexivity|].
    symmetry. apply andb_false_iff.
    destruct (Z.leb_spec i0 k); [right; apply Z.ltb_ge; lia | left; reflexivity].
  - cbn [boot_program_page_loop].
    replace (u16 (2 * i0 + 2)) with (2 * (i0 + 1)) by (rewrite u16_small; lia).
    rewrite IH by lia.
    rewrite (u32_small (page + 2 * i0)) by lia.
    unfold boot_page_fill. rewrite slot_of_offset by lia.
    destruct (Z.leb_spec (i0 + 1) k), (Z.ltb_spec k (i0 + 1 + Z.of_nat n)),
      (Z.leb_spec i0 k), (Z.ltb_spec k (i0 + Z.of_nat (S n))); try lia;
      cbn [andb]; try reflexivity.
    + destruct ((page =? 0) && (2 * i0 =? 0)); proj;
        destruct (Z.eqb_spec k i0); try lia; reflexivity.
    + assert (k = i0) by lia. subst k.
      unfold patched_word.
      destruct ((page =? 0) && (2 * i0 =? 0)); proj; rewrite Z.eqb_refl.
      * apply u16_small. unfold bootloader_vector. apply u16_range.
      * apply u16_small. apply u16_range.
    + destruct ((page =? 0) && (2 * i0 =? 0)); proj;
        destruct (Z.eqb_spec k i0); try lia; reflexivity.
Qed.

Lemma boot_program_page_loop_pointer_later (n : nat) :
  forall i0 page buf s,
    0 < i0 -> i0 + Z.of_nat n <= 32 ->
    start_appl_main (boot_program_page_loop n (2 * i0) page buf s) =
    start_appl_main s.
Proof.
  induction n as [|n IH]; intros i0 page buf s Hi Hn; [reflexivity|].
  cbn [boot_program_page_loop].
  replace (u16 (2 * i0 + 2)) with (2 * (i0 + 1)) by (rewrite u16_small; lia).
  rewrite IH by lia.
  replace (2 * i0 =? 0) with false by (symmetry; apply Z.eqb_neq; lia).
  rewrite andb_false_r. reflexivity.
Qed.

Lemma boot_program_page_loop_S (n : nat) (i page : Z) (buf : Z -> Z) (s : mcu) :
  boot_program_page_loop (S n) i page buf s =
  let w := u16 (buf i + u16 (buf (i + 1) * 256)) in
  boot_program_page_loop n (u16 (i + 2)) page buf
    (boot_page_fill (u32 (page + i))
       (if (page =? 0) && (i =? 0) then bootloader_vector else w)
       (if (page =? 0) && (i =? 0)
        then with_start_appl_main (u16 (w - RJMP)) s else s)).
Proof. reflexivity. Qed.

Lemma boot_program_page_unfold (page : Z) (buf : Z -> Z) (s : mcu) :
  boot_program_page page buf s =
  boot_page_write page
    (boot_program_page_loop (S 31) 0 page buf (boot_page_erase page (cli s))).
Proof. reflexivity. Qed.

Lemma page_write_loop_pointer (n : nat) (page : Z) (buf : Z -> Z) (s : mcu) :
  Z.of_nat n < 32 ->
  start_appl_main (boot_page_write page (boot_program_page_loop (S n) 0 page buf s)) =
  if page =? 0 then rjmp_target (u16 (buf 0 + u16 (buf 1 * 256)))
  else start_appl_main s.
Proof.
  intros Hn. unfold boot_page_write at 1. proj.
  rewrite boot_program_page_loop_S. cbv zeta.
  replace (u16 (0 + 2)) with (2 * 1) by reflexivity.
  rewrite boot_program_page_loop_pointer_later by lia.
  rewrite Z.eqb_refl, andb_true_r. unfold boot_page_fill.
  replace (0 + 1) with 1 by reflexivity. unfold rjmp_target.
  destruct (page =? 0); proj; reflexivity.
Qed.

Lemma page_write_loop_flash (n : nat) (page : Z) (buf : Z -> Z) (s : mcu) (a : Z) :
  Z.of_nat n = 32 -> page mod 64 = 0 -> 0 <= page < 65536 ->
  flash (boot_page_write page (boot_program_page_loop n 0 page buf s)) a =
  if same_page a page
  then Z.land (flash s a) (byte_of_word (patched_word page buf (2 * ((a - page) / 2))) a)
  else flash s a.
Proof.
  intros Hn Hp Hpage. unfold boot_page_write at 1. proj.
  rewrite boot_program_page_loop_flash.
  destruct (same_page a page) eqn:Hsame; [|reflexivity].
  destruct (same_page_offset page a Hp Hsame) as [Hoff Hmod].
  unfold buffer_byte.
  replace (a mod SPM_PAGESIZE) with (a - page) by (symmetry; exact Hmod).
  replace (boot_program_page_loop n 0) with (boot_program_page_loop n (2 * 0))
    by reflexivity.
  rewrite boot_program_page_loop_buffer by lia.
  replace ((0 <=? (a - page) / 2) && ((a - page) / 2 <? 0 + Z.of_nat n))
    with true.
  2:{ symmetry. apply andb_true_iff. split; [apply Z.leb_le | apply Z.ltb_lt];
      rewrite ?Hn; Z.div_mod_to_equations; lia. }
  unfold byte_of_word.
  replace ((a - page) mod 2) with (a mod 2) by (Z.div_mod_to_equations; lia).
  reflexivity.
Qed.

Lemma boot_program_page_pointer (page : Z) (buf : Z -> Z) (s : mcu) :
  start_appl_main (boot_program_page page buf s) =
  if page =? 0 then rjmp_target (u16 (buf 0 + u16 (buf 1 * 256)))
  else start_appl_main s.
Proof.
  rewrite boot_program_page_unfold, page_write_loop_pointer by (cbn; lia).
  reflexivity.
Qed.

Lemma boot_program_page_flash (page : Z) (buf : Z -> Z) (s : mcu) (a : Z) :
  page mod 64 = 0 -> 0 <= page < 65536 ->
  flash (boot_program_page page buf s) a =
  if same_page a page
  then byte_of_word (patched_word page buf (2 * ((a - page) / 2))) a
  else flash s a.
Proof.
  intros Hp Hpage.
  rewrite boot_program_page_unfold, page_write_loop_flash by (trivial; reflexivity).
  unfold boot_page_erase, cli. proj.
  destruct (same_page a page); [|reflexivity].
  apply land_255_byte. apply byte_of_word_range.
Qed.

Lemma boot_program_page_word (page : Z) (buf : Z -> Z) (s : mcu) (k : Z) :
  page mod 64 = 0 -> 0 <= page < 65536 -> 0 <= k < 32 ->
  pgm_read_word (boot_program_page page buf s) (page + 2 * k) =
  patched_word page buf (2 * k).
Proof.
  intros Hp Hpage Hk. unfold pgm_read_word.
  rewrite !boot_program_page_flash by assumption.
  rewrite !same_page_in by lia.
  replace ((page + 2 * k - page) / 2) with k by (Z.div_mod_to_equations; lia).
  replace ((page + 2 * k + 1 - page) / 2) with k by (Z.div_mod_to_equations; lia).
  unfold byte_of_word.
  replace ((page + 2 * k) mod 2) with 0 by (Z.div_mod_to_equations; lia).
  replace ((page + 2 * k + 1) mod 2) with 1 by (Z.div_mod_to_equations; lia).
  cbn [Z.eqb]. apply word_of_bytes. apply patched_word_range.
Qed.

Lemma bootloader_vector_target : rjmp_target bootloader_vector * 2 = BOOTLOADER_ADDRESS.
Proof. reflexivity. Qed.

Lemma rjmp_target_rjmp (k : Z) : 0 <= k < 4096 -> rjmp_target (rjmp k) = k + 1.
Proof.
  intros H. unfold rjmp_target, rjmp, RJMP.
  change (u16 (0xC000 - 1)) with 49151. rewrite u16_small; lia.
Qed.

(** ** pgm_write_block *)

Ltac case_leb :=
  match goal with |- context [(?x <=? ?y)] => destruct (Z.leb_spec0 x y) end.
Ltac case_ltb :=
  match goal with |- context [(?x <? ?y)] => destruct (Z.ltb_spec0 x y) end.
Ltac case_eqb :=
  match goal with |- context [(?x =? ?y)] => destruct (Z.eqb_spec x y) end.

(** Case analysis on every integer comparison of the goal. *)
Ltac zb :=
  rewrite ?Z.geb_leb, ?Z.gtb_ltb;
  repeat first [case_leb | case_ltb | case_eqb];
  cbn [andb orb negb].

Lemma boot_program_page_fill_eq (a w : Z) (s : mcu) :
  boot_program_page_fill a w s =
  with_page_buffer
    (fun k => if k =? (u32 a / 2) mod (SPM_PAGESIZE / 2) then u16 w
              else page_buffer s k) s.
Proof. destruct s. reflexivity. Qed.

Lemma boot_program_page_erase_write_eq (a : Z) (s : mcu) :
  boot_program_page_erase_write a s =
  with_page_buffer (fun _ => 0xFFFF)
    (with_flash
       (fun x => if same_page x (u32 a)
                 then Z.land (if same_page x (u32 a) then 255 else flash s x)
                        (buffer_byte s (x mod SPM_PAGESIZE))
                 else if same_page x (u32 a) then 255 else flash s x) s).
Proof. destruct s. reflexivity. Qed.

Lemma boot_program_page_erase_write_flash (a : Z) (s : mcu) (x : Z) :
  flash (boot_program_page_erase_write a s) x =
  if same_page x (u32 a) then Z.land 255 (buffer_byte s (x mod SPM_PAGESIZE))
  else flash s x.
Proof.
  rewrite boot_program_page_erase_write_eq. proj.
  destruct (same_page x (u32 a)); reflexivity.
Qed.

Lemma with_page_buffer_twice (b1 b2 : Z -> Z) (s : mcu) :
  with_page_buffer b2 (with_page_buffer b1 s) = with_page_buffer b2 s.
Proof. reflexivity. Qed.

(** The fill loop only changes the page buffer. *)
Lemma pgm_write_block_loop_frame (n : nat) :
  forall idx start fa block taken size s,
    pgm_write_block_loop n idx start fa block taken size s =
    with_page_buffer
      (page_buffer (pgm_write_block_loop n idx start fa block taken size s)) s.
Proof.
  induction n as [|n IH]; intros.
  - destruct s. reflexivity.
  - cbn [pgm_write_block_loop].
    destruct ((u16 (start + 2 * idx) >=? fa) && (size >? 0));
      rewrite IH at 1; rewrite boot_program_page_fill_eq;
      apply with_page_buffer_twice.
Qed.

Lemma pgm_write_block_loop_flash (n : nat) idx start fa block taken size s :
  flash (pgm_write_block_loop n idx start fa block taken size s) = flash s.
Proof. rewrite pgm_write_block_loop_frame. reflexivity. Qed.

Lemma pgm_write_block_loop_buffer (n : nat) :
  forall idx taken size s start fa block k,
    start mod 64 = 0 -> 0 <= start -> start + 64 <= 65536 ->
    start <= fa < start + 64 ->
    0 <= idx -> idx + Z.of_nat n <= 32 ->
    0 <= size < 65536 -> size mod 2 = 0 ->
    page_buffer (pgm_write_block_loop n idx start fa block taken size s) k =
    if (idx <=? k) && (k <? idx + Z.of_nat n) then
      if (fa <=? start + 2 * k)
         && (2 * (k - Z.max idx ((fa - start + 1) / 2)) <? size)
      then u16 (block (taken + (k - Z.max idx ((fa - start + 1) / 2))))
      else u16 (pgm_read_word s (start + 2 * k))
    else page_buffer s k.
Proof.
  induction n as [|n IH];
    intros idx taken size s start fa block k Hal H0 Htop Hfa Hidx Hn Hsize Heven.
  - cbn [pgm_write_block_loop]. zb; try lia; reflexivity.
  - cbn [pgm_write_block_loop].
    remember ((fa - start + 1) / 2) as k0 eqn:Hk0.
    assert (Hk0' : 2 * k0 <= fa - start + 1 < 2 * k0 + 2)
      by (subst k0; Z.div_mod_to_equations; lia).
    assert (Hsz : size = 0 \/ 2 <= size) by (Z.div_mod_to_equations; lia).
    rewrite (u16_small (start + 2 * idx)) by lia.
    rewrite (u8_small (idx + 1)) by lia.
    rewrite !boot_program_page_fill_eq.
    rewrite (u32_small (start + 2 * idx)) by lia.
    rewrite slot_of_offset by lia.
    destruct ((start + 2 * idx >=? fa) && (size >? 0)) eqn:Hc.
    + apply andb_true_iff in Hc. destruct Hc as [Hc1 Hc2].
      apply Z.geb_le in Hc1. apply Z.gtb_lt in Hc2.
      rewrite (u16_small (size - sizeof_uint16)) by (unfold sizeof_uint16; lia).
      rewrite IH; try lia;
        [| unfold sizeof_uint16; lia
         | unfold sizeof_uint16; Z.div_mod_to_equations; lia].
      rewrite <- Hk0. unfold sizeof_uint16, pgm_read_word. proj.
      zb; try lia; try reflexivity; try (f_equal; f_equal; lia);
        try (subst k; reflexivity).
    + apply andb_false_iff in Hc.
      rewrite IH by lia. rewrite <- Hk0. unfold pgm_read_word. proj.
      destruct Hc as [Hc | Hc];
        [rewrite Z.geb_leb in Hc; apply Z.leb_gt in Hc
        | rewrite Z.gtb_ltb in Hc; apply Z.ltb_ge in Hc].
      all: zb; try lia; try reflexivity; try (f_equal; f_equal; lia);
        try (subst k; reflexivity).
Qed.

Lemma pgm_write_block_unfold (fa : Z) (block : Z -> Z) (size : Z) (s : mcu) :
  pgm_write_block fa block size s =
  boot_program_page_erase_write (u16 (page_start fa))
    (pgm_write_block_loop (S 31) 0 (u16 (page_start fa)) fa block 0 size s).
Proof. reflexivity. Qed.

Lemma page_start_facts (fa : Z) :
  0 <= fa < 65536 ->
  page_start fa mod 64 = 0 /\ 0 <= page_start fa /\ page_start fa + 64 <= 65536 /\
  page_start fa <= fa < page_start fa + 64.
Proof.
  intros H. unfold page_start, SPM_PAGESIZE. Z.div_mod_to_equations. lia.
Qed.

Lemma same_page_page_start (a fa : Z) :
  same_page a (page_start fa) = same_page a fa.
Proof.
  unfold same_page, page_start, SPM_PAGESIZE. f_equal.
  Z.div_mod_to_equations. lia.
Qed.

Lemma erase_write_frame (a : Z) (b : Z -> Z) (s : mcu) :
  boot_program_page_erase_write a (with_page_buffer b s) =
  with_page_buffer (fun _ => 0xFFFF)
    (with_flash (flash (boot_program_page_erase_write a (with_page_buffer b s))) s).
Proof. destruct s. reflexivity. Qed.

(** The merge leaves everything but program memory and the (cleared) page
    buffer as it was. *)
Lemma pgm_write_block_frame (fa : Z) (block : Z -> Z) (size : Z) (s : mcu) :
  pgm_write_block fa block size s =
  with_page_buffer (fun _ => 0xFFFF)
    (with_flash (flash (pgm_write_block fa block size s)) s).
Proof.
  rewrite pgm_write_block_unfold. rewrite pgm_write_block_loop_frame.
  apply erase_write_frame.
Qed.

(** Program memory after the erase and write that follow [n = 32] turns of
    the fill loop. *)
Lemma erase_write_loop_flash (n : nat) (start fa : Z) (block : Z -> Z)
    (size : Z) (s : mcu) (a : Z) :
  Z.of_nat n = 32 ->
  start mod 64 = 0 -> 0 <= start -> start + 64 <= 65536 ->
  start <= fa < start + 64 -> 0 <= size < 65536 -> size mod 2 = 0 ->
  flash (boot_program_page_erase_write start
           (pgm_write_block_loop n 0 start fa block 0 size s)) a =
  if same_page a start then
    byte_of_word
      (if (fa <=? start + 2 * ((a - start) / 2))
          && (2 * ((a - start) / 2 - (fa - start + 1) / 2) <? size)
       then u16 (block ((a - start) / 2 - (fa - start + 1) / 2))
       else u16 (pgm_read_word s (start + 2 * ((a - start) / 2)))) a
  else flash s a.
Proof.
  intros Hn Hal H0 Htop Hfa Hsize Heven.
  rewrite boot_program_page_erase_write_flash.
  rewrite (u32_small start) by lia.
  rewrite pgm_write_block_loop_flash.
  destruct (same_page a start) eqn:Hsame; [|reflexivity].
  destruct (same_page_offset start a Hal Hsame) as [Hoff Hmod].
  replace (a mod SPM_PAGESIZE) with (a - start) by (symmetry; exact Hmod).
  unfold buffer_byte.
  rewrite pgm_write_block_loop_buffer by lia.
  replace ((0 <=? (a - start) / 2) && ((a - start) / 2 <? 0 + Z.of_nat n))
    with true.
  2:{ symmetry. apply andb_true_iff. split; [apply Z.leb_le | apply Z.ltb_lt];
      rewrite ?Hn; Z.div_mod_to_equations; lia. }
  replace (Z.max 0 ((fa - start + 1) / 2)) with ((fa - start + 1) / 2)
    by (Z.div_mod_to_equations; lia).
  rewrite Z.add_0_l.
  unfold byte_of_word.
  replace ((a - start) mod 2) with (a mod 2) by (Z.div_mod_to_equations; lia).
  apply land_255_byte.
  destruct (a mod 2 =? 0); apply Z.mod_pos_bound; lia.
Qed.

Lemma read_offset (fa k : Z) :
  0 <= fa < 65536 ->
  (page_start fa + 2 * k - first_word fa) / 2 =
  k - (fa - page_start fa + 1) / 2.
Proof.
  intros H. unfold first_word, page_start, SPM_PAGESIZE.
  Z.div_mod_to_equations. lia.
Qed.

Lemma pgm_read_word_range (s : mcu) (a : Z) :
  bytes (flash s) -> 0 <= pgm_read_word s a < 65536.
Proof.
  intros H. unfold pgm_read_word. pose proof (H a). pose proof (H (a + 1)). lia.
Qed.

(** Program memory after [pgm_write_block] with an even [size]. *)
Lemma pgm_write_block_flash (fa : Z) (block : Z -> Z) (size : Z) (s : mcu) (a : Z) :
  0 <= fa < 65536 -> 0 <= size < 65536 -> size mod 2 = 0 ->
  bytes (flash s) -> (forall i, 0 <= block i < 65536) ->
  flash (pgm_write_block fa block size s) a =
  if same_page a fa
  then byte_of_word
         (merge_word (pgm_read_word s) fa block size ((a - page_start fa) / 2)) a
  else flash s a.
Proof.
  intros Hfa Hsize Heven Hflash Hblock.
  destruct (page_start_facts fa Hfa) as (Hal & H0 & Htop & Hin).
  rewrite pgm_write_block_unfold.
  rewrite (u16_small (page_start fa)) by lia.
  rewrite erase_write_loop_flash by (trivial; reflexivity).
  rewrite same_page_page_start.
  destruct (same_page a fa); [|reflexivity].
  unfold merge_word. cbv zeta. rewrite read_offset by assumption.
  f_equal.
  destruct ((fa <=? page_start fa + 2 * ((a - page_start fa) / 2))
            && (2 * ((a - page_start fa) / 2 - (fa - page_start fa + 1) / 2) <? size)).
  - apply u16_small. apply Hblock.
  - apply u16_small. apply pgm_read_word_range. assumption.
Qed.

Lemma byte_of_read_word (s : mcu) (start a : Z) :
  bytes (flash s) -> start mod 2 = 0 ->
  byte_of_word (pgm_read_word s (start + 2 * ((a - start) / 2))) a = flash s a.
Proof.
  intros Hb Hs. unfold byte_of_word, pgm_read_word.
  pose proof (Hb (start + 2 * ((a - start) / 2))) as H1.
  pose proof (Hb (start + 2 * ((a - start) / 2) + 1)) as H2.
  destruct (Z.eqb_spec (a mod 2) 0) as [E|E].
  - replace (start + 2 * ((a - start) / 2)) with a in *
      by (Z.div_mod_to_equations; lia).
    Z.div_mod_to_equations; lia.
  - replace (start + 2 * ((a - start) / 2) + 1) with a in *
      by (Z.div_mod_to_equations; lia).
    Z.div_mod_to_equations; lia.
Qed.

(** Outside the written words the merge keeps every byte of the page. *)
Lemma pgm_write_block_outside (fa : Z) (block : Z -> Z) (size : Z) (s : mcu) (a : Z) :
  0 <= fa < 65536 -> 0 <= size < 65536 -> size mod 2 = 0 ->
  bytes (flash s) -> (forall i, 0 <= block i < 65536) ->
  a < first_word fa \/ first_word fa + size <= a ->
  flash (pgm_write_block fa block size s) a = flash s a.
Proof.
  intros Hfa Hsize Heven Hflash Hblock Hout.
  rewrite pgm_write_block_flash by assumption.
  destruct (same_page a fa) eqn:Hsame; [|reflexivity].
  destruct (page_start_facts fa Hfa) as (Hal & H0 & Htop & Hin).
  rewrite <- same_page_page_start in Hsame.
  destruct (same_page_offset _ _ Hal Hsame) as [Hoff _].
  unfold merge_word. cbv zeta.
  replace ((fa <=? page_start fa + 2 * ((a - page_start fa) / 2))
           && (2 * ((page_start fa + 2 * ((a - page_start fa) / 2) - first_word fa) / 2)
               <? size)) with false.
  - apply byte_of_read_word; [assumption | Z.div_mod_to_equations; lia].
  - symmetry. apply andb_false_iff. unfold first_word in *.
    destruct (Z.leb_spec fa (page_start fa + 2 * ((a - page_start fa) / 2)));
      [right|left; reflexivity].
    apply Z.ltb_ge. Z.div_mod_to_equations. lia.
Qed.

Lemma pgm_write_block_word (fa : Z) (block : Z -> Z) (size : Z) (s : mcu) (k : Z) :
  0 <= fa < 65536 -> 0 <= size < 65536 -> size mod 2 = 0 ->
  bytes (flash s) -> (forall i, 0 <= block i < 65536) ->
  0 <= k < 32 ->
  pgm_read_word (pgm_write_block fa block size s) (page_start fa + 2 * k) =
  merge_word (pgm_read_word s) fa block size k.
Proof.
  intros Hfa Hsize Heven Hflash Hblock Hk.
  destruct (page_start_facts fa Hfa) as (Hal & H0 & Htop & Hin).
  unfold pgm_read_word at 1.
  rewrite !pgm_write_block_flash by assumption.
  rewrite <- !(same_page_page_start _ fa).
  rewrite !same_page_in by lia.
  replace ((page_start fa + 2 * k - page_start fa) / 2) with k
    by (Z.div_mod_to_equations; lia).
  replace ((page_start fa + 2 * k + 1 - page_start fa) / 2) with k
    by (Z.div_mod_to_equations; lia).
  unfold byte_of_word.
  replace ((page_start fa + 2 * k) mod 2) with 0 by (Z.div_mod_to_equations; lia).
  replace ((page_start fa + 2 * k + 1) mod 2) with 1 by (Z.div_mod_to_equations; lia).
  cbn [Z.eqb]. apply word_of_bytes.
  unfold merge_word. cbv zeta.
  match goal with |- context [if ?c then _ else _] => destruct c end.
  - apply Hblock.
  - apply pgm_read_word_range. assumption.
Qed.

(** ** Frames and dispatch *)

Lemma pgm_read_word_ext (s1 s2 : mcu) (a : Z) :
  flash s1 = flash s2 -> pgm_read_word s1 a = pgm_read_word s2 a.
Proof. intros H. unfold pgm_read_word. rewrite H. reflexivity. Qed.

Lemma flash_frame_set (i v : Z) (s : mcu) : flash (frame_set i v s) = flash s.
Proof. reflexivity. Qed.

Lemma flash_TOGGLELED (s : mcu) : flash (TOGGLELED s) = flash s.
Proof. reflexivity. Qed.

Lemma pgm_read_word_frame_set (i v : Z) (s : mcu) (a : Z) :
  pgm_read_word (frame_set i v s) a = pgm_read_word s a.
Proof. reflexivity. Qed.

Lemma pgm_read_word_TOGGLELED (s : mcu) (a : Z) :
  pgm_read_word (TOGGLELED s) a = pgm_read_word s a.
Proof. reflexivity. Qed.

Lemma flash_LEDOFF (s : mcu) : flash (LEDOFF s) = flash s.
Proof. reflexivity. Qed.

Lemma start_appl_main_LEDOFF (s : mcu) :
  start_appl_main (LEDOFF s) = start_appl_main s.
Proof. reflexivity. Qed.

Lemma start_appl_main_frame_set (i v : Z) (s : mcu) :
  start_appl_main (frame_set i v s) = start_appl_main s.
Proof. reflexivity. Qed.

Lemma start_appl_main_TOGGLELED (s : mcu) :
  start_appl_main (TOGGLELED s) = start_appl_main s.
Proof. reflexivity. Qed.

Lemma dispatch_prog (s : mcu) :
  frame_byte s COMMAND = PROGCOMMAND ->
  dispatch s =
  Bootloader
    (frame_set COMMAND NOCOMMAND
       (if prog_address s <? BOOTLOADER_ADDRESS
        then TOGGLELED (boot_program_page (prog_address s) (payload s) s)
        else s)).
Proof. intros H. unfold dispatch. rewrite H. reflexivity. Qed.

Lemma dispatch_run (s : mcu) :
  frame_byte s COMMAND = RUNCOMMAND -> dispatch s = runProgramm s.
Proof. intros H. unfold dispatch. rewrite H. reflexivity. Qed.

Lemma prog_address_eq (s : mcu) :
  0 <= frame_byte s PAGEINDEXLOW < 256 ->
  0 <= frame_byte s PAGEINDEXHIGH < 256 ->
  prog_address s =
  (SPM_PAGESIZE *
   (256 * frame_byte s PAGEINDEXHIGH + frame_byte s PAGEINDEXLOW)) mod 65536.
Proof.
  intros Hl Hh. unfold prog_address.
  rewrite (u16_small (frame_byte s PAGEINDEXHIGH * 256)) by lia.
  rewrite (u16_small (_ + _)) by lia.
  unfold u16. f_equal. lia.
Qed.

Lemma prog_address_aligned (s : mcu) :
  prog_address s mod 64 = 0 /\ 0 <= prog_address s < 65536.
Proof.
  unfold prog_address, SPM_PAGESIZE.
  generalize (u16 (u16 (frame_byte s PAGEINDEXHIGH * 256) + frame_byte s PAGEINDEXLOW)).
  intros pn. unfold u16. Z.div_mod_to_equations. lia.
Qed.

(** ** runProgramm *)

Lemma start_appl_main_nvm (b f : Z -> Z) (s : mcu) :
  start_appl_main (with_page_buffer b (with_flash f s)) = start_appl_main s.
Proof. reflexivity. Qed.

Lemma pgm_write_block_pointer (fa : Z) (block : Z -> Z) (size : Z) (s : mcu) :
  start_appl_main (pgm_write_block fa block size s) = start_appl_main s.
Proof. rewrite pgm_write_block_frame. apply start_appl_main_nvm. Qed.

Lemma runProgramm_eq (s : mcu) :
  runProgramm s =
  Application (start_appl_main s)
    (pgm_write_block BOOTLOADER_FUNC_ADDRESS
       (fun k => if k =? 0 then start_appl_main s else sram_after_pointer s k)
       sizeof_pointer (resetRegister s)).
Proof.
  unfold runProgramm. cbv zeta. rewrite pgm_write_block_pointer.
  change (start_appl_main (resetRegister s)) with (start_appl_main s).
  change (sram_after_pointer (resetRegister s)) with (sram_after_pointer s).
  reflexivity.
Qed.

(** The block that [runProgramm] hands to the merge, with what lies behind
    the pointer cut off: only its first word is ever read. *)
Lemma pgm_write_block_one_word (fa : Z) (b1 b2 : Z -> Z) (s : mcu) :
  b1 0 = b2 0 ->
  pgm_write_block fa b1 2 s = pgm_write_block fa b2 2 s.
Proof.
  intros H0. rewrite !pgm_write_block_unfold.
  generalize (u16 (page_start fa)). intros start.
  assert (Hloop : forall n idx t sz st, (sz = 0 \/ (sz = 2 /\ t = 0)) ->
            pgm_write_block_loop n idx start fa b1 t sz st =
            pgm_write_block_loop n idx start fa b2 t sz st).
  { induction n as [|n IH]; intros idx t sz st Hsz; [reflexivity|].
    cbn [pgm_write_block_loop].
    destruct (u16 (start + 2 * idx) >=? fa); cbn [andb].
    - destruct Hsz as [-> | [-> ->]].
      + cbn [Z.gtb Z.compare]. apply IH. left; reflexivity.
      + cbn [Z.gtb Z.compare]. rewrite H0. apply IH. left; reflexivity.
    - apply IH. assumption. }
  rewrite Hloop by (right; split; reflexivity). reflexivity.
Qed.

(** * The flash programmer *)

(** C4.  [boot_program_page] on the page at address 0 decodes the first
    payload word as a jump and saves its target in [start_appl_main] (for
    the instruction [rjmp k] that target is the word address [k + 1]); the
    word written at address 0 is the jump to the bootloader start; every
    other word of the page is written as the payload gives it. *)
Theorem boot_program_page_vector (buf : Z -> Z) (s : mcu) :
  page_of_bytes buf ->
  start_appl_main (boot_program_page 0 buf s) = rjmp_target (payload_word buf 0)
  /\ (forall k, 0 <= k < 4096 -> payload_word buf 0 = rjmp k ->
        start_appl_main (boot_program_page 0 buf s) = k + 1)
  /\ pgm_read_word (boot_program_page 0 buf s) 0 = bootloader_vector
  /\ bootloader_vector = rjmp (BOOTLOADER_ADDRESS / 2 - 1)
  /\ rjmp_target bootloader_vector * 2 = BOOTLOADER_ADDRESS
  /\ (forall k, 1 <= k < 32 ->
        pgm_read_word (boot_program_page 0 buf s) (2 * k) = payload_word buf (2 * k)).
Proof.
  intros Hbuf.
  assert (Hp : start_appl_main (boot_program_page 0 buf s)
               = rjmp_target (payload_word buf 0)).
  { rewrite boot_program_page_pointer. rewrite Z.eqb_refl.
    f_equal. apply (payload_word_u16 buf 0 Hbuf). unfold SPM_PAGESIZE. lia. }
  split; [exact Hp|].
  split; [intros k Hk Hw; rewrite Hp, Hw; apply rjmp_target_rjmp; exact Hk|].
  split.
  { change 0 with (0 + 2 * 0) at 2.
    rewrite boot_program_page_word by (try reflexivity; lia). reflexivity. }
  split; [reflexivity|]. split; [reflexivity|].
  intros k Hk. change (2 * k) with (0 + 2 * k) at 1.
  rewrite boot_program_page_word by (try reflexivity; lia).
  unfold patched_word.
  replace (2 * k =? 0) with false by (symmetry; apply Z.eqb_neq; lia).
  rewrite andb_false_r. apply payload_word_u16;
    [exact Hbuf | unfold SPM_PAGESIZE; lia].
Qed.

Lemma payload_with_frame_bytes cmd lo hi len w0 s :
  0 <= w0 < 65536 ->
  page_of_bytes (payload (with_frame cmd lo hi len w0 s)).
Proof.
  intros Hw i Hi. unfold payload, frame_byte.
  unfold FRAMESIZE, PAGESIZE, SPM_PAGESIZE, DATAPAGESTART in *.
  replace ((0 <=? 7 + i) && (7 + i <? 64 + 7)) with true
    by (symmetry; apply andb_true_iff; split;
        [apply Z.leb_le | apply Z.ltb_lt]; lia).
  assert (Hall : Forall (fun b => 0 <= b < 256)
                   (skipn 7 (frame_of cmd lo hi len w0))).
  { unfold frame_of. cbn [skipn app].
    constructor; [apply Z.mod_pos_bound; lia|].
    constructor; [Z.div_mod_to_equations; lia|].
    apply Forall_forall. intros x Hx. apply in_map_iff in Hx.
    destruct Hx as (n & <- & Hn). apply in_seq in Hn. lia. }
  cbn [FrameData with_frame with_FrameData].
  replace (Z.to_nat (7 + i)) with (7 + Z.to_nat i)%nat by lia.
  rewrite <- nth_skipn.
  rewrite Forall_forall in Hall.
  destruct (Nat.lt_ge_cases (Z.to_nat i) (length (skipn 7 (frame_of cmd lo hi len w0))))
    as [Hlt|Hge].
  - apply Hall. apply nth_In. exact Hlt.
  - rewrite nth_overflow by exact Hge. lia.
Qed.

Lemma boot_program_page_vector_witness :
  start_appl_main
    (boot_program_page 0 (payload (with_frame PROGCOMMAND 0 0 64 (rjmp 0x0F) blank))
       blank) = 0x10.
Proof.
  destruct (boot_program_page_vector
              (payload (with_frame PROGCOMMAND 0 0 64 (rjmp 0x0F) blank)) blank)
    as (_ & H & _).
  - apply payload_with_frame_bytes. vm_compute. split; [discriminate|reflexivity].
  - apply (H 0x0F); [lia | reflexivity].
Defined.

(** C5 (as amended).  For every call of [pgm_write_block] whose [size] is
    even, each word offset of the page that holds [flash_addr] receives the
    next word of [block] when its address is at or after [flash_addr] and
    bytes of the block remain unread, and the word that program memory held
    there otherwise; every byte outside the written range, in the page and
    in all other pages, is what it was. *)
Theorem pgm_write_block_merges (flash_addr : Z) (block : Z -> Z) (size : Z) (s : mcu) :
  0 <= flash_addr < 65536 -> 0 <= size < 65536 -> size mod 2 = 0 ->
  bytes (flash s) -> (forall i, 0 <= block i < 65536) ->
  merges_as_specified flash_addr block size s
  /\ (forall a, a < first_word flash_addr \/ first_word flash_addr + size <= a ->
        flash (pgm_write_block flash_addr block size s) a = flash s a).
Proof.
  intros Hfa Hsize Heven Hflash Hblock. split.
  - intros k Hk. apply pgm_write_block_word; assumption.
  - intros a Ha. apply pgm_write_block_outside; assumption.
Qed.

Lemma bytes_blank : bytes (flash blank).
Proof. intros a. cbn. lia. Qed.

Lemma pgm_write_block_merges_witness :
  pgm_read_word (pgm_write_block BOOTLOADER_FUNC_ADDRESS (fun _ => 0x10) 2 blank)
    BOOTLOADER_FUNC_ADDRESS = 0x10
  /\ flash (pgm_write_block BOOTLOADER_FUNC_ADDRESS (fun _ => 0x10) 2 blank)
       (BOOTLOADER_FUNC_ADDRESS - 1) = 255.
Proof.
  destruct (pgm_write_block_merges BOOTLOADER_FUNC_ADDRESS (fun _ => 0x10) 2 blank)
    as [Hw Hb].
  - vm_compute. split; [discriminate|reflexivity].
  - lia.
  - reflexivity.
  - exact bytes_blank.
  - intros i. lia.
  - split.
    + exact (Hw 31 ltac:(vm_compute; split; [discriminate|reflexivity])).
    + apply (Hb (BOOTLOADER_FUNC_ADDRESS - 1)). left. vm_compute. reflexivity.
Defined.

(** C5 as it is stated fails for an odd [size]: with one byte in the block
    the 16-bit byte count wraps from 1 to 65535 and the loop goes on taking
    words from behind the block to the end of the page. *)
Lemma pgm_write_block_odd_size :
  ~ merges_as_specified 0x1B80 (fun i => 0x1111 * (i + 1)) 1 blank.
Proof.
  intros H. specialize (H 1 ltac:(vm_compute; split; [discriminate|reflexivity])).
  vm_compute in H. discriminate H.
Qed.

(** * PROGCOMMAND and RUNCOMMAND *)

(** C2.  A PROGCOMMAND frame whose computed 16-bit address is at or above
    the bootloader start is dropped: dispatch only clears the command byte;
    program memory, the page buffer and the saved entry pointer (the
    variable and its flash slot) are what they were. *)
Theorem prog_command_protected (s : mcu) :
  frame_byte s COMMAND = PROGCOMMAND ->
  BOOTLOADER_ADDRESS <= prog_address s ->
  exists s', dispatch s = Bootloader s'
    /\ s' = frame_set COMMAND NOCOMMAND s
    /\ flash s' = flash s
    /\ page_buffer s' = page_buffer s
    /\ start_appl_main s' = start_appl_main s
    /\ pgm_read_word s' BOOTLOADER_FUNC_ADDRESS = pgm_read_word s BOOTLOADER_FUNC_ADDRESS.
Proof.
  intros Hcmd Haddr. exists (frame_set COMMAND NOCOMMAND s).
  rewrite dispatch_prog by exact Hcmd.
  replace (prog_address s <? BOOTLOADER_ADDRESS) with false
    by (symmetry; apply Z.ltb_ge; exact Haddr).
  repeat split; reflexivity.
Qed.

Lemma prog_command_protected_witness :
  exists s', dispatch (with_frame PROGCOMMAND 111 0 64 0 blank) = Bootloader s'
    /\ flash s' = flash blank.
Proof.
  destruct (prog_command_protected (with_frame PROGCOMMAND 111 0 64 0 blank))
    as (s' & Hd & _ & Hf & _).
  - reflexivity.
  - vm_compute. discriminate.
  - exists s'. split; [exact Hd | exact Hf].
Defined.

(** C3.  The PROGCOMMAND address is [PAGESIZE * pageNumber] modulo 2^16.
    For a page number from 1024 on whose low ten bits are below 111 the
    true product is at or above the bootloader start, yet the wrapped
    address is below it, passes the check, and the page at the wrapped
    address is programmed from the payload. *)
Theorem prog_address_wraps (s : mcu) (lo hi : Z) :
  frame_byte s COMMAND = PROGCOMMAND ->
  frame_byte s PAGEINDEXLOW = lo -> frame_byte s PAGEINDEXHIGH = hi ->
  0 <= lo < 256 -> 0 <= hi < 256 ->
  prog_address s = (SPM_PAGESIZE * (256 * hi + lo)) mod 65536
  /\ (1024 <= 256 * hi + lo -> (256 * hi + lo) mod 1024 < 111 ->
      BOOTLOADER_ADDRESS <= SPM_PAGESIZE * (256 * hi + lo)
      /\ prog_address s = SPM_PAGESIZE * ((256 * hi + lo) mod 1024)
      /\ prog_address s < BOOTLOADER_ADDRESS
      /\ exists s', dispatch s = Bootloader s'
           /\ forall k, 0 <= k < 32 ->
                pgm_read_word s' (prog_address s + 2 * k) =
                patched_word (prog_address s) (payload s) (2 * k)).
Proof.
  intros Hcmd Hlo Hhi Hl Hh.
  assert (Ha : prog_address s = (SPM_PAGESIZE * (256 * hi + lo)) mod 65536)
    by (rewrite prog_address_eq; rewrite ?Hlo, ?Hhi; trivial).
  split; [exact Ha|].
  intros Hbig Hlow.
  assert (Hw : prog_address s = SPM_PAGESIZE * ((256 * hi + lo) mod 1024))
    by (rewrite Ha; unfold SPM_PAGESIZE; Z.div_mod_to_equations; lia).
  assert (Hlt : prog_address s < BOOTLOADER_ADDRESS)
    by (rewrite Hw; unfold SPM_PAGESIZE, BOOTLOADER_ADDRESS; lia).
  split; [unfold SPM_PAGESIZE, BOOTLOADER_ADDRESS; lia|].
  split; [exact Hw|]. split; [exact Hlt|].
  eexists. split.
  - rewrite dispatch_prog by exact Hcmd.
    replace (prog_address s <? BOOTLOADER_ADDRESS) with true
      by (symmetry; apply Z.ltb_lt; exact Hlt).
    reflexivity.
  - intros k Hk.
    rewrite pgm_read_word_frame_set, pgm_read_word_TOGGLELED.
    destruct (prog_address_aligned s) as [Hal Hr].
    apply boot_program_page_word; assumption.
Qed.

Lemma prog_address_wraps_witness :
  prog_address (with_frame PROGCOMMAND 1 4 64 0x1234 blank) = 64
  /\ exists s', dispatch (with_frame PROGCOMMAND 1 4 64 0x1234 blank) = Bootloader s'
       /\ pgm_read_word s' 64 = 0x1234.
Proof.
  destruct (prog_address_wraps (with_frame PROGCOMMAND 1 4 64 0x1234 blank) 1 4)
    as [Ha Hw]; try reflexivity; try lia.
  split; [exact Ha|].
  destruct Hw as (_ & _ & _ & s' & Hd & Hk);
    [vm_compute; discriminate | reflexivity |].
  exists s'. split; [exact Hd|].
  exact (Hk 0 ltac:(lia)).
Defined.

(** C1 (as amended).  When a RUNCOMMAND frame is dispatched the saved
    entry X is written, by [pgm_write_block], into the flash slot of the
    pointer right below the bootloader, and control goes to X; every byte
    of program memory outside that slot is what it was, so the reset
    vector at address 0 is not touched. *)
Theorem run_command_saves_entry (s : mcu) :
  frame_byte s COMMAND = RUNCOMMAND ->
  bytes (flash s) -> 0 <= start_appl_main s < 65536 ->
  exists s', dispatch s = Application (start_appl_main s) s'
    /\ pgm_read_word s' BOOTLOADER_FUNC_ADDRESS = start_appl_main s
    /\ (forall a, a < BOOTLOADER_FUNC_ADDRESS \/ BOOTLOADER_ADDRESS <= a ->
          flash s' a = flash s a)
    /\ reset_vector_target s' = reset_vector_target s.
Proof.
  intros Hcmd Hflash HX.
  rewrite dispatch_run by exact Hcmd. rewrite runProgramm_eq.
  rewrite (pgm_write_block_one_word _ _ (fun _ => start_appl_main s))
    by reflexivity.
  eexists. split; [reflexivity|].
  assert (Hout : forall a, a < BOOTLOADER_FUNC_ADDRESS \/ BOOTLOADER_ADDRESS <= a ->
            flash (pgm_write_block BOOTLOADER_FUNC_ADDRESS
                     (fun _ => start_appl_main s) sizeof_pointer (resetRegister s)) a
            = flash s a).
  { intros a Ha.
    rewrite pgm_write_block_outside; trivial; try reflexivity;
      try (vm_compute; split; [discriminate|reflexivity]). }
  split; [|split; [exact Hout|]].
  - change BOOTLOADER_FUNC_ADDRESS
      with (page_start BOOTLOADER_FUNC_ADDRESS + 2 * 31) at 2.
    rewrite pgm_write_block_word; trivial; try reflexivity; try lia;
      try (vm_compute; split; [discriminate|reflexivity]).
  - unfold reset_vector_target, pgm_read_word.
    rewrite !Hout by (left; reflexivity). reflexivity.
Qed.

Lemma run_command_saves_entry_witness :
  exists s', dispatch (with_start_appl_main 0x10 (with_frame RUNCOMMAND 0 0 0 0 blank))
             = Application 0x10 s'
    /\ pgm_read_word s' BOOTLOADER_FUNC_ADDRESS = 0x10.
Proof.
  destruct (run_command_saves_entry
              (with_start_appl_main 0x10 (with_frame RUNCOMMAND 0 0 0 0 blank)))
    as (s' & Hd & Hw & _).
  - reflexivity.
  - exact bytes_blank.
  - cbn. lia.
  - exists s'. split; [exact Hd | exact Hw].
Defined.

(** C1 as it is stated fails: after an application with entry 0x10 has been
    programmed and RUNCOMMAND dispatched, control goes to 0x10 but the
    reset vector still jumps to the bootloader. *)
Lemma run_command_keeps_vector : ~ run_restores_vector run_requested.
Proof.
  unfold run_restores_vector. vm_compute. intros [_ H]. discriminate H.
Qed.

(** * The EEPROM writer *)

(** C9.  [eeprom_write] stores the value at the requested address when
    that is below 512 and at address 511 when it is 512 or more; in either
    case exactly one cell changes, so no write is dropped and none lands
    on a low address by wrap-around. *)
Theorem eeprom_write_clamps (address data : Z) (s : mcu) :
  (512 <= address ->
     EEAR (eeprom_write address data s) = 511
     /\ eeprom (eeprom_write address data s) 511 = data
     /\ forall a, a <> 511 -> eeprom (eeprom_write address data s) a = eeprom s a)
  /\ (address < 512 ->
     EEAR (eeprom_write address data s) = address
     /\ eeprom (eeprom_write address data s) address = data
     /\ forall a, a <> address -> eeprom (eeprom_write address data s) a = eeprom s a).
Proof.
  unfold eeprom_write. split; intros H.
  - replace (address <? 512) with false by (symmetry; apply Z.ltb_ge; lia).
    proj. rewrite Z.eqb_refl. repeat split.
    intros a Ha. apply Z.eqb_neq in Ha. rewrite Ha. reflexivity.
  - replace (address <? 512) with true by (symmetry; apply Z.ltb_lt; lia).
    proj. rewrite Z.eqb_refl. repeat split.
    intros a Ha. apply Z.eqb_neq in Ha. rewrite Ha. reflexivity.
Qed.

Lemma eeprom_write_clamps_witness :
  eeprom (eeprom_write 600 0xAB blank) 511 = 0xAB
  /\ eeprom (eeprom_write 600 0xAB blank) 88 = 255
  /\ eeprom (eeprom_write 88 0xAB blank) 88 = 0xAB.
Proof.
  destruct (eeprom_write_clamps 600 0xAB blank) as [Hhigh _].
  destruct (eeprom_write_clamps 88 0xAB blank) as [_ Hlow].
  destruct (Hhigh ltac:(lia)) as (_ & H1 & H2).
  destruct (Hlow ltac:(lia)) as (_ & H3 & _).
  split; [exact H1|]. split; [|exact H3].
  rewrite H2 by lia. reflexivity.
Defined.

Lemma eeprom_write_below (address data : Z) (s : mcu) :
  address < 512 -> EEAR (eeprom_write address data s) = address.
Proof.
  intros H. unfold eeprom_write.
  replace (address <? 512) with true by (symmetry; apply Z.ltb_lt; exact H).
  reflexivity.
Qed.

Lemma eeprom_loop_requests (count : nat) :
  forall i address buf s,
    eeprom_loop count i address buf s =
    eeprom_write_all (eeprom_requests count i address buf) s.
Proof.
  induction count as [|count IH]; intros; [reflexivity|].
  cbn [eeprom_loop eeprom_requests]. rewrite IH. reflexivity.
Qed.

Lemma eeprom_requests_bound (count : nat) :
  forall i address buf,
    0 <= address <= 255 -> 0 <= i -> i + Z.of_nat count <= 256 ->
    Forall (fun r => 0 <= fst r <= 510 /\ (fst r <? 512) = true)
      (eeprom_requests count i address buf).
Proof.
  induction count as [|count IH]; intros i address buf Ha Hi Hn;
    cbn [eeprom_requests]; constructor.
  - cbn [fst]. rewrite u16_small by lia. split; [|apply Z.ltb_lt]; lia.
  - pose proof (u8_range (i + 1)) as Hr. apply IH; try lia.
    destruct (Z.eq_dec (i + 1) 256) as [E|E].
    + rewrite E. change (u8 256) with 0. lia.
    + rewrite u8_small by lia. lia.
Qed.

Lemma eeprom_exitBootloader (s : mcu) :
  eeprom (after (exitBootloader s)) = eeprom s.
Proof.
  unfold exitBootloader. cbv zeta.
  destruct (start_appl_main _ =? 0); reflexivity.
Qed.

Lemma dispatch_eeprom (s : mcu) :
  frame_byte s COMMAND = EEPROMCOMMAND ->
  eeprom (after (dispatch s)) = eeprom (eeprom_write_all (eeprom_command_requests s) s).
Proof.
  intros H. unfold dispatch, eeprom_command_requests. rewrite H.
  cbn [Z.eqb EEPROMCOMMAND PROGCOMMAND RUNCOMMAND Pos.eqb]. cbv zeta.
  rewrite <- eeprom_loop_requests.
  generalize (eeprom_loop (Z.to_nat (frame_byte s LENGTHLOW)) 0 (eeprom_address s)
                (payload s) s). intros s1.
  unfold exitBootloader. cbv zeta.
  destruct (start_appl_main _ =? 0); reflexivity.
Qed.

(** ** The frame buffer as a list *)

Lemma length_store (i : nat) (v : Z) (l : list Z) : length (store i v l) = length l.
Proof.
  revert i. induction l as [|x l IH]; intros [|i]; cbn; try reflexivity.
  rewrite IH. reflexivity.
Qed.

Lemma nth_store_same (i : nat) (v : Z) (l : list Z) (d : Z) :
  (i < length l)%nat -> nth i (store i v l) d = v.
Proof.
  revert i. induction l as [|x l IH]; intros [|i] H; cbn in *; try lia.
  apply IH. lia.
Qed.

Lemma nth_store_other (i j : nat) (v : Z) (l : list Z) (d : Z) :
  i <> j -> nth j (store i v l) d = nth j l d.
Proof.
  revert i j. induction l as [|x l IH]; intros [|i] [|j] H; cbn; try reflexivity.
  - contradiction.
  - apply IH. intros E. apply H. rewrite E. reflexivity.
Qed.

Lemma frame_byte_frame_set_other (i j v : Z) (s : mcu) :
  0 <= i -> 0 <= j -> i <> j ->
  frame_byte (frame_set i v s) j = frame_byte s j.
Proof.
  intros Hi Hj Hne. unfold frame_byte, frame_set. proj.
  rewrite nth_store_other by lia. reflexivity.
Qed.

Lemma length_eeprom_requests (count : nat) :
  forall i address buf, length (eeprom_requests count i address buf) = count.
Proof.
  induction count as [|count IH]; intros; cbn [eeprom_requests length];
    [reflexivity | rewrite IH; reflexivity].
Qed.

(** C10.  The EEPROMCOMMAND base address is [PAGESIZE * pageIndexLow]
    modulo 256, whatever the high page-index byte; dispatch makes the
    calls [eeprom_command_requests], one per byte of the low length byte,
    and each of their addresses is at most 510, below the capacity that
    [eeprom_write] clamps at: each call stores at the address it names. *)
Theorem eeprom_command_addresses (s : mcu) :
  frame_byte s COMMAND = EEPROMCOMMAND ->
  0 <= frame_byte s LENGTHLOW < 256 ->
  eeprom_address s = (PAGESIZE * frame_byte s PAGEINDEXLOW) mod 256
  /\ (forall v, eeprom_address (frame_set PAGEINDEXHIGH v s) = eeprom_address s)
  /\ length (eeprom_command_requests s) = Z.to_nat (frame_byte s LENGTHLOW)
  /\ eeprom (after (dispatch s))
     = eeprom (eeprom_write_all (eeprom_command_requests s) s)
  /\ Forall (fun r => 0 <= fst r <= 510
                      /\ forall st, EEAR (eeprom_write (fst r) (snd r) st) = fst r)
       (eeprom_command_requests s).
Proof.
  intros Hcmd Hlen. split; [reflexivity|]. split.
  { intros v. unfold eeprom_address.
    rewrite frame_byte_frame_set_other by (unfold PAGEINDEXHIGH, PAGEINDEXLOW; lia).
    reflexivity. }
  split; [unfold eeprom_command_requests; apply length_eeprom_requests|].
  split; [apply dispatch_eeprom; exact Hcmd|].
  assert (Hb : Forall (fun r => 0 <= fst r <= 510 /\ (fst r <? 512) = true)
                 (eeprom_command_requests s)).
  { unfold eeprom_command_requests. apply eeprom_requests_bound; try lia.
    unfold eeprom_address. pose proof (u8_range (SPM_PAGESIZE * frame_byte s PAGEINDEXLOW)).
    lia. }
  eapply Forall_impl; [|exact Hb].
  intros r [Hr Hlt]. split; [exact Hr|].
  intros st. apply eeprom_write_below. apply Z.ltb_lt. exact Hlt.
Qed.

Lemma eeprom_command_addresses_witness :
  eeprom_address (with_frame EEPROMCOMMAND 3 7 5 0x1234 blank) = 192
  /\ length (eeprom_command_requests (with_frame EEPROMCOMMAND 3 7 5 0x1234 blank)) = 5%nat.
Proof.
  destruct (eeprom_command_addresses (with_frame EEPROMCOMMAND 3 7 5 0x1234 blank))
    as (Ha & _ & Hl & _).
  - reflexivity.
  - vm_compute. split; [discriminate|reflexivity].
  - split; [exact Ha | exact Hl].
Defined.

(** * The entry decision *)

Lemma dwell_loop_S (turns : nat) (lPress : Z) (s : mcu) :
  dwell_loop (S turns) lPress s =
  if Z.land (PINB_in s (now s)) BOOTCHECKPIN =? 0 then
    if u32 (lPress + 1) >? DWELL then (u32 (lPress + 1), LEDON (tick s))
    else dwell_loop turns (u32 (lPress + 1)) (LEDON (tick s))
  else (lPress, tick s).
Proof. reflexivity. Qed.

Lemma dwell_loop_flash (turns : nat) :
  forall lPress s, flash (snd (dwell_loop turns lPress s)) = flash s.
Proof.
  induction turns as [|turns IH]; intros lPress s; [reflexivity|].
  rewrite dwell_loop_S.
  destruct (Z.land (PINB_in s (now s)) BOOTCHECKPIN =? 0); [|reflexivity].
  destruct (u32 (lPress + 1) >? DWELL); [reflexivity|].
  rewrite IH. reflexivity.
Qed.

(** Released at the [i]-th read: the loop ends with [lPress] grown by [i]. *)
Lemma dwell_loop_released (turns : nat) :
  forall lPress s i,
    0 <= i < Z.of_nat turns -> 0 <= lPress -> lPress + i <= DWELL ->
    (forall j, 0 <= j < i ->
       (Z.land (PINB_in s (now s + j)) BOOTCHECKPIN =? 0) = true) ->
    (Z.land (PINB_in s (now s + i)) BOOTCHECKPIN =? 0) = false ->
    fst (dwell_loop turns lPress s) = lPress + i.
Proof.
  induction turns as [|turns IH]; intros lPress s i Hi Hl Hsum Hheld Hrel; [lia|].
  rewrite dwell_loop_S.
  destruct (Z.eq_dec i 0) as [->|Hne].
  - rewrite Z.add_0_r in Hrel. rewrite Hrel. cbn [fst]. lia.
  - rewrite <- (Z.add_0_r (now s)). rewrite (Hheld 0) by lia.
    assert (Hu : u32 (lPress + 1) = lPress + 1)
      by (apply u32_small; unfold DWELL in *; lia).
    rewrite Hu.
    replace (lPress + 1 >? DWELL) with false
      by (symmetry; rewrite Z.gtb_ltb; apply Z.ltb_ge; lia).
    rewrite (IH (lPress + 1) (LEDON (tick s)) (i - 1)); try lia.
    + intros j Hj. unfold LEDON, tick. proj.
      replace (now s + 1 + j) with (now s + (j + 1)) by lia. apply Hheld. lia.
    + unfold LEDON, tick. proj.
      replace (now s + 1 + (i - 1)) with (now s + i) by lia. exact Hrel.
Qed.

(** Held for [DWELL] reads: the loop ends with [lPress] at [DWELL] or above. *)
Lemma dwell_loop_held (turns : nat) :
  forall lPress s,
    0 <= lPress <= DWELL -> DWELL + 1 - lPress <= Z.of_nat turns ->
    (forall j, 0 <= j < DWELL - lPress ->
       (Z.land (PINB_in s (now s + j)) BOOTCHECKPIN =? 0) = true) ->
    DWELL <= fst (dwell_loop turns lPress s).
Proof.
  induction turns as [|turns IH]; intros lPress s Hl Hn Hheld; [lia|].
  rewrite dwell_loop_S.
  assert (Hu : u32 (lPress + 1) = lPress + 1)
    by (apply u32_small; unfold DWELL in *; lia).
  rewrite Hu.
  destruct (Z.land (PINB_in s (now s)) BOOTCHECKPIN =? 0) eqn:Hpin.
  - destruct (lPress + 1 >? DWELL) eqn:Hgt.
    + cbn [fst]. lia.
    + rewrite Z.gtb_ltb in Hgt. apply Z.ltb_ge in Hgt.
      apply IH; try lia.
      intros j Hj. unfold LEDON, tick. proj.
      replace (now s + 1 + j) with (now s + (j + 1)) by lia. apply Hheld. lia.
  - cbn [fst].
    destruct (Z.eq_dec lPress DWELL) as [E|E]; [lia|].
    rewrite <- (Z.add_0_r (now s)) in Hpin. rewrite (Hheld 0) in Hpin by lia.
    discriminate Hpin.
Qed.

Lemma a_main_entry_eq (s : mcu) :
  a_main_entry s =
  if fst (dwell_loop (Z.to_nat (DWELL + 1)) 0 (tick s)) <? DWELL
  then exitBootloader (LEDOFF (snd (dwell_loop (Z.to_nat (DWELL + 1)) 0 (tick s))))
  else Bootloader (LEDOFF (snd (dwell_loop (Z.to_nat (DWELL + 1)) 0 (tick s)))).
Proof. reflexivity. Qed.

Lemma dwell_turns : Z.of_nat (Z.to_nat (DWELL + 1)) = DWELL + 1.
Proof. apply Z2Nat.id. unfold DWELL. lia. Qed.

Lemma exitBootloader_eq (s : mcu) :
  exitBootloader s =
  if stored_entry s =? 0
  then Bootloader (with_start_appl_main (stored_entry s) s)
  else Application (stored_entry s)
         (resetRegister (with_start_appl_main (stored_entry s) s)).
Proof. reflexivity. Qed.

Lemma stored_entry_ext (s1 s2 : mcu) :
  flash s1 = flash s2 -> stored_entry s1 = stored_entry s2.
Proof. intros H. unfold stored_entry. apply pgm_read_word_ext. exact H. Qed.

(** An early release runs [exitBootloader] on a machine with the program
    memory of the start. *)
Lemma a_main_entry_released (s : mcu) (i : Z) :
  0 <= i < DWELL -> released_at s i ->
  exists s2, a_main_entry s = exitBootloader s2 /\ flash s2 = flash s.
Proof.
  intros Hi [Hheld Hrel]. rewrite a_main_entry_eq.
  assert (Hf : fst (dwell_loop (Z.to_nat (DWELL + 1)) 0 (tick s)) = 0 + i).
  { apply dwell_loop_released; try (rewrite ?dwell_turns; lia).
    - intros j Hj. apply (Hheld j Hj).
    - exact Hrel. }
  rewrite Hf.
  replace (0 + i <? DWELL) with true by (symmetry; apply Z.ltb_lt; lia).
  eexists. split; [reflexivity|].
  rewrite flash_LEDOFF, dwell_loop_flash. reflexivity.
Qed.

Lemma dwell_loop_pointer (turns : nat) :
  forall lPress s, start_appl_main (snd (dwell_loop turns lPress s)) = start_appl_main s.
Proof.
  induction turns as [|turns IH]; intros lPress s; [reflexivity|].
  rewrite dwell_loop_S.
  destruct (Z.land (PINB_in s (now s)) BOOTCHECKPIN =? 0); [|reflexivity].
  destruct (u32 (lPress + 1) >? DWELL); [reflexivity|].
  rewrite IH. reflexivity.
Qed.

Lemma a_main_entry_released_outcome (s : mcu) (i : Z) :
  0 <= i < DWELL -> released_at s i ->
  (stored_entry s <> 0 -> exists s', a_main_entry s = Application (stored_entry s) s')
  /\ (stored_entry s = 0 -> exists s', a_main_entry s = Bootloader s').
Proof.
  intros Hi Hrel.
  destruct (a_main_entry_released s i Hi Hrel) as (s2 & -> & Hflash).
  rewrite exitBootloader_eq. rewrite (stored_entry_ext s2 s Hflash).
  split; intros H.
  - apply Z.eqb_neq in H. rewrite H. eexists. reflexivity.
  - rewrite H. eexists. reflexivity.
Qed.

(** C8 (as amended).  When the boot request is released at a read of the
    dwell loop before the counter has reached the threshold, the
    controller leaves through [exitBootloader] at once: control goes to the
    entry stored in flash when that is not null, and stays in the
    bootloader (which goes on to the command loop) when it is null.  When
    the request is held until the counter reaches the threshold, control
    stays in the bootloader for the command loop and the entry pointer is
    not even read. *)
Theorem entry_dwell (s : mcu) :
  (forall i, 0 <= i < DWELL -> released_at s i ->
     (stored_entry s <> 0 ->
        exists s', a_main_entry s = Application (stored_entry s) s')
     /\ (stored_entry s = 0 -> exists s', a_main_entry s = Bootloader s'))
  /\ ((forall j, 0 <= j < DWELL -> boot_request s j = true) ->
      exists s', a_main_entry s = Bootloader s'
                 /\ start_appl_main s' = start_appl_main s).
Proof.
  split.
  - intros i Hi Hrel. apply (a_main_entry_released_outcome s i Hi Hrel).
  - intros Hheld. rewrite a_main_entry_eq.
    assert (Hf : DWELL <= fst (dwell_loop (Z.to_nat (DWELL + 1)) 0 (tick s))).
    { apply dwell_loop_held; try (rewrite ?dwell_turns; unfold DWELL; lia).
      intros j Hj. apply (Hheld j). lia. }
    replace (fst (dwell_loop (Z.to_nat (DWELL + 1)) 0 (tick s)) <? DWELL)
      with false by (symmetry; apply Z.ltb_ge; exact Hf).
    eexists. split; [reflexivity|].
    rewrite start_appl_main_LEDOFF, dwell_loop_pointer. reflexivity.
Qed.

Lemma entry_dwell_witness :
  (exists s', a_main_entry (with_PINB_in (fun _ => 1) blank) = Application 0xFFFF s')
  /\ (exists s', a_main_entry no_application = Bootloader s')
  /\ (exists s', a_main_entry blank = Bootloader s').
Proof.
  destruct (entry_dwell (with_PINB_in (fun _ => 1) blank)) as [H1 _].
  destruct (entry_dwell no_application) as [H2 _].
  destruct (entry_dwell blank) as [_ H3].
  assert (R1 : released_at (with_PINB_in (fun _ => 1) blank) 0)
    by (split; [intros j Hj; lia | reflexivity]).
  assert (R2 : released_at no_application 0)
    by (split; [intros j Hj; lia | reflexivity]).
  assert (D : 0 <= 0 < DWELL) by (unfold DWELL; lia).
  split; [|split].
  - apply (proj1 (H1 0 D R1)). discriminate.
  - apply (proj2 (H2 0 D R2)). reflexivity.
  - destruct (H3 (fun j Hj => eq_refl)) as (s' & Hs & _).
    exists s'. exact Hs.
Defined.

(** C8 as it is stated fails when the entry slot holds the null pointer:
    [exitBootloader] returns and the command loop is entered although the
    request was released at the first read. *)
Lemma early_release_without_application : ~ exits_on_early_release no_application.
Proof.
  intros H.
  assert (R : released_at no_application 0)
    by (split; [intros j Hj; lia | reflexivity]).
  assert (D : 0 <= 0 < DWELL) by (unfold DWELL; lia).
  destruct (H 0 D R) as (X & s' & E).
  destruct (a_main_entry_released_outcome no_application 0 D R) as [_ Hnull].
  destruct (Hnull eq_refl) as (s2 & E2).
  rewrite E2 in E. discriminate E.
Qed.

(** * The receiver *)

Lemma with_FrameData_twice (l1 l2 : list Z) (s : mcu) :
  with_FrameData l2 (with_FrameData l1 s) = with_FrameData l2 s.
Proof. reflexivity. Qed.

Lemma with_FrameData_same (s : mcu) : with_FrameData (FrameData s) s = s.
Proof. destruct s. reflexivity. Qed.

(** The line and the timer do not depend on the frame buffer. *)
Lemma wait_for_edge_frame (fuel : nat) :
  forall p l s,
    wait_for_edge fuel p (with_FrameData l s) =
    option_map (with_FrameData l) (wait_for_edge fuel p s).
Proof.
  induction fuel as [|fuel IH]; intros p l s; [reflexivity|].
  cbn [wait_for_edge]. unfold PINVALUE, tick. proj.
  destruct (p =? Z.land (PINB_in s (now s)) INPUTAUDIOPIN).
  - apply (IH p l (with_now (now s + 1) s)).
  - reflexivity.
Qed.

Lemma delay_frame (fuel : nat) :
  forall d l s,
    delay fuel d (with_FrameData l s) = option_map (with_FrameData l) (delay fuel d s).
Proof.
  induction fuel as [|fuel IH]; intros d l s; [reflexivity|].
  cbn [delay]. unfold read_TIMER, tick. proj.
  destruct (u8 (TCNT0_in s (now s) - TCNT0_in s (timer_zero s)) <? d).
  - apply (IH d l (with_now (now s + 1) s)).
  - reflexivity.
Qed.

Lemma PINVALUE_frame (l : list Z) (s : mcu) :
  PINVALUE (with_FrameData l s) =
  (fst (PINVALUE s), with_FrameData l (snd (PINVALUE s))).
Proof. reflexivity. Qed.

Lemma clear_TIMER_frame (l : list Z) (s : mcu) :
  clear_TIMER (with_FrameData l s) = with_FrameData l (clear_TIMER s).
Proof. reflexivity. Qed.

Lemma bit_cell_frame (fuel : nat) (d p : Z) (l : list Z) (s : mcu) :
  bit_cell fuel d p (with_FrameData l s) =
  option_map (fun r => (fst r, with_FrameData l (snd r))) (bit_cell fuel d p s).
Proof.
  unfold bit_cell. rewrite wait_for_edge_frame.
  destruct (wait_for_edge fuel p s) as [s1|]; [|reflexivity].
  cbn [option_map obind]. rewrite clear_TIMER_frame, PINVALUE_frame.
  destruct (PINVALUE (clear_TIMER s1)) as [p' s3]. cbn [fst snd].
  rewrite delay_frame.
  destruct (delay fuel d s3) as [s4|]; [|reflexivity].
  cbn [option_map obind]. rewrite PINVALUE_frame.
  destruct (PINVALUE s4) as [t s5]. reflexivity.
Qed.

Lemma store_store (i : nat) (v1 v2 : Z) (l : list Z) :
  store i v2 (store i v1 l) = store i v2 l.
Proof.
  revert i. induction l as [|x l IH]; intros [|i]; cbn; try reflexivity.
  rewrite IH. reflexivity.
Qed.

Lemma store_nth (i : nat) (l : list Z) (d : Z) : store i (nth i l d) l = l.
Proof.
  revert i. induction l as [|x l IH]; intros [|i]; cbn; try reflexivity.
  rewrite IH. reflexivity.
Qed.

Lemma shift_in_eq (p t dp : Z) (s : mcu) :
  0 <= dp -> (Z.to_nat dp < length (FrameData s))%nat ->
  (length (FrameData s) <= 71)%nat ->
  shift_in p t dp s =
  with_FrameData
    (store (Z.to_nat dp)
       (shift_value (nth (Z.to_nat dp) (FrameData s) 0) (p, t)) (FrameData s)) s.
Proof.
  intros H0 Hlt Hlen. unfold shift_in, shift_value, frame_byte, frame_set.
  cbn [fst snd]. proj.
  replace ((0 <=? dp) && (dp <? FRAMESIZE)) with true
    by (symmetry; apply andb_true_iff; split;
        [apply Z.leb_le | apply Z.ltb_lt]; unfold FRAMESIZE, PAGESIZE,
          SPM_PAGESIZE, DATAPAGESTART; lia).
  destruct (p =? t); [reflexivity|].
  rewrite nth_store_same by exact Hlt. rewrite store_store. reflexivity.
Qed.

(** The data loop takes its bits from the cells that [sample_cells] sees
    and leaves the frame buffer that [pack_frame] computes from them. *)
Lemma receive_bits_samples (n : nat) :
  forall fuel d p k dp c l s r',
    0 <= dp -> 1 <= k <= 8 ->
    8 * dp + (8 - k) + Z.of_nat n <= 8 * Z.of_nat (length l) ->
    (length l <= 71)%nat ->
    receive_bits n fuel d (RX p k dp c (with_FrameData l s)) = Some r' ->
    exists cells q s',
      sample_cells n fuel d p s = Some (cells, q, s')
      /\ length cells = n /\ rx_p r' = q
      /\ rx_mcu r' = with_FrameData (pack_frame cells k dp l) s'.
Proof.
  induction n as [|n IH]; intros fuel d p k dp c l s r' Hdp Hk Hroom Hlen Hrun.
  - cbn [receive_bits] in Hrun. injection Hrun as <-.
    exists [], p, s. repeat split; reflexivity.
  - cbn [receive_bits rx_p rx_k rx_dataPointer rx_counter rx_mcu] in Hrun.
    rewrite bit_cell_frame in Hrun. cbn [sample_cells].
    destruct (bit_cell fuel d p s) as [[[p' t] s1]|]; [|discriminate Hrun].
    cbn [option_map obind fst snd] in Hrun. cbn [obind].
    rewrite shift_in_eq in Hrun; proj; try lia.
    rewrite with_FrameData_twice in Hrun.
    set (l1 := store (Z.to_nat dp) (shift_value (nth (Z.to_nat dp) l 0) (p', t)) l) in *.
    assert (Hl1 : length l1 = length l) by apply length_store.
    assert (Hpack : forall cells,
              pack_frame ((p', t) :: cells) k dp l =
              if u8 (k - 1) =? 0 then pack_frame cells 8 (u8 (dp + 1)) l1
              else pack_frame cells (u8 (k - 1)) dp l1) by reflexivity.
    revert Hrun. destruct (u8 (k - 1) =? 0) eqn:Hk1; intros Hrun.
    + apply Z.eqb_eq in Hk1.
      assert (k = 1) by (unfold u8 in Hk1; Z.div_mod_to_equations; lia). subst k.
      assert (Hu : u8 (dp + 1) = dp + 1) by (apply u8_small; lia).
      destruct (IH fuel d t 8 (u8 (dp + 1)) (u16 (c + 1)) l1 s1 r')
        as (cells & q & s' & Hs & Hl & Hp & Hm);
        [rewrite Hu; lia | lia | rewrite Hu, Hl1; lia | rewrite Hl1; lia
        | exact Hrun |].
      rewrite Hs. cbn [obind]. exists ((p', t) :: cells), q, s'.
      rewrite Hpack. repeat split; try assumption.
      cbn [length]. rewrite Hl. reflexivity.
    + apply Z.eqb_neq in Hk1.
      assert (Hu : u8 (k - 1) = k - 1) by (apply u8_small; lia).
      assert (2 <= k) by (rewrite Hu in Hk1; lia).
      destruct (IH fuel d t (u8 (k - 1)) dp (u16 (c + 1)) l1 s1 r')
        as (cells & q & s' & Hs & Hl & Hp & Hm);
        [lia | rewrite Hu; lia | rewrite Hu, Hl1; lia | rewrite Hl1; lia
        | exact Hrun |].
      rewrite Hs. cbn [obind]. exists ((p', t) :: cells), q, s'.
      rewrite Hpack. repeat split; try assumption.
      cbn [length]. rewrite Hl. reflexivity.
Qed.

(** ** Packing the bits *)

Lemma cell_bit_range (c : Z * Z) : 0 <= cell_bit c <= 1.
Proof. unfold cell_bit. destruct (fst c =? snd c); lia. Qed.

Lemma lor_even_1 (y : Z) : y mod 2 = 0 -> Z.lor y 1 = y + 1.
Proof.
  intros H.
  assert (Hland : Z.land y 1 = 0).
  { change 1 with (Z.ones 1). rewrite Z.land_ones by lia. exact H. }
  rewrite <- Z.lxor_lor by exact Hland.
  symmetry. apply Z.add_nocarry_lxor. exact Hland.
Qed.

Lemma shift_value_spec (x : Z) (c : Z * Z) :
  shift_value x c = (2 * x + cell_bit c) mod 256.
Proof.
  unfold shift_value, cell_bit, u8. destruct (fst c =? snd c).
  - f_equal. lia.
  - rewrite lor_even_1 by (Z.div_mod_to_equations; lia).
    Z.div_mod_to_equations. lia.
Qed.

Lemma byte_msb_first_acc (bits : list Z) :
  forall a, fold_left (fun acc b => 2 * acc + b) bits a =
            a * 2 ^ Z.of_nat (length bits) + byte_msb_first bits.
Proof.
  unfold byte_msb_first.
  induction bits as [|b bits IH]; intros a.
  - cbn. lia.
  - cbn [fold_left length]. rewrite IH. rewrite (IH (2 * 0 + b)).
    rewrite Nat2Z.inj_succ, Z.pow_succ_r by lia. lia.
Qed.

Lemma byte_msb_first_range (bits : list Z) :
  Forall (fun b => 0 <= b <= 1) bits ->
  0 <= byte_msb_first bits < 2 ^ Z.of_nat (length bits).
Proof.
  induction bits as [|b bits IH] using rev_ind; intros H.
  - cbn. lia.
  - apply Forall_app in H. destruct H as [H1 H2].
    apply Forall_inv in H2. specialize (IH H1).
    unfold byte_msb_first in *. rewrite fold_left_app. cbn [fold_left].
    rewrite length_app. cbn [length]. rewrite Nat2Z.inj_add.
    rewrite Z.pow_add_r by lia. change (2 ^ Z.of_nat 1) with 2. lia.
Qed.

(** Shifting cells into a byte computes the value of their bits modulo 256. *)
Lemma fold_shift_value (cells : list (Z * Z)) :
  forall x a, x mod 256 = a mod 256 ->
    fold_left shift_value cells x mod 256 =
    fold_left (fun acc b => 2 * acc + b) (map cell_bit cells) a mod 256.
Proof.
  induction cells as [|c cells IH]; intros x a H; [exact H|].
  cbn [fold_left map]. apply IH. rewrite shift_value_spec.
  rewrite Z.mod_mod by lia.
  rewrite (Z.add_mod (2 * x)), (Z.add_mod (2 * a)) by lia.
  rewrite (Z.mul_mod 2 x), (Z.mul_mod 2 a) by lia. rewrite H. reflexivity.
Qed.

Lemma fold_shift_value_byte (cells : list (Z * Z)) (x : Z) :
  length cells = 8%nat ->
  fold_left shift_value cells x = byte_msb_first (map cell_bit cells).
Proof.
  intros Hlen.
  assert (Hr : 0 <= byte_msb_first (map cell_bit cells) < 256).
  { pose proof (byte_msb_first_range (map cell_bit cells)) as H.
    rewrite length_map, Hlen in H. apply H.
    apply Forall_forall. intros b Hb. apply in_map_iff in Hb.
    destruct Hb as (c & <- & _). apply cell_bit_range. }
  assert (Hm : fold_left shift_value cells x mod 256
               = byte_msb_first (map cell_bit cells)).
  { rewrite (fold_shift_value cells x x eq_refl). rewrite byte_msb_first_acc.
    rewrite length_map, Hlen. change (2 ^ Z.of_nat 8) with 256.
    Z.div_mod_to_equations. lia. }
  rewrite <- Hm. symmetry. apply Z.mod_small.
  destruct cells as [|c cells] using rev_ind; [discriminate Hlen|].
  rewrite fold_left_app. cbn [fold_left]. rewrite shift_value_spec.
  apply Z.mod_pos_bound. lia.
Qed.

Lemma pack_frame_within (cs1 : list (Z * Z)) :
  forall k dp l cs2 x,
    (Z.to_nat dp < length l)%nat ->
    Z.of_nat (length cs1) < k <= 8 ->
    pack_frame (cs1 ++ cs2) k dp (store (Z.to_nat dp) x l) =
    pack_frame cs2 (k - Z.of_nat (length cs1)) dp
      (store (Z.to_nat dp) (fold_left shift_value cs1 x) l).
Proof.
  induction cs1 as [|c cs1 IH]; intros k dp l cs2 x Hdp Hk.
  - cbn [app length fold_left Z.of_nat]. rewrite Z.sub_0_r. reflexivity.
  - cbn [app pack_frame fold_left]. cbn [length] in Hk.
    rewrite nth_store_same by exact Hdp. rewrite store_store.
    assert (Hu : u8 (k - 1) = k - 1) by (apply u8_small; lia).
    rewrite Hu.
    replace (k - 1 =? 0) with false by (symmetry; apply Z.eqb_neq; lia).
    rewrite IH by (trivial; lia). f_equal. cbn [length]. lia.
Qed.

Lemma pack_frame_byte (cells8 rest : list (Z * Z)) (dp : Z) (l : list Z) :
  length cells8 = 8%nat -> 0 <= dp < 255 -> (Z.to_nat dp < length l)%nat ->
  pack_frame (cells8 ++ rest) 8 dp l =
  pack_frame rest 8 (dp + 1)
    (store (Z.to_nat dp) (byte_msb_first (map cell_bit cells8)) l).
Proof.
  intros Hlen Hdp Hin.
  rewrite <- (fold_shift_value_byte cells8 (nth (Z.to_nat dp) l 0) Hlen).
  destruct cells8 as [|c7 cs7 _] using rev_ind; [discriminate Hlen|].
  rewrite length_app in Hlen. cbn [length] in Hlen.
  rewrite <- app_assoc. cbn [app].
  rewrite <- (store_nth (Z.to_nat dp) l 0) at 1.
  rewrite pack_frame_within by (trivial; lia).
  replace (8 - Z.of_nat (length cs7)) with 1 by lia.
  cbn [pack_frame]. change (u8 (1 - 1) =? 0) with true. cbv iota.
  rewrite nth_store_same by exact Hin. rewrite store_store.
  rewrite fold_left_app. cbn [fold_left].
  rewrite u8_small by lia. reflexivity.
Qed.

Lemma byte_cells_tail (cells : list (Z * Z)) (j : nat) :
  byte_cells cells (S j) = byte_cells (skipn 8 cells) j.
Proof.
  unfold byte_cells. rewrite skipn_skipn. do 3 f_equal. lia.
Qed.

(** After [8 * m] cells from a byte boundary the [m] bytes from [j0] on
    hold the cells' bits, eight to a byte, the first bit on top. *)
Lemma pack_frame_bytes (m : nat) :
  forall cells j0 l j,
    length cells = (8 * m)%nat -> (j0 + m <= length l)%nat ->
    (length l <= 255)%nat ->
    nth j (pack_frame cells 8 (Z.of_nat j0) l) 0 =
    if (j0 <=? j)%nat && (j <? j0 + m)%nat
    then byte_msb_first (byte_cells cells (j - j0)) else nth j l 0.
Proof.
  induction m as [|m IH]; intros cells j0 l j Hlen Hroom Hmax.
  - destruct cells; [|discriminate Hlen]. cbn [pack_frame].
    destruct (Nat.leb_spec j0 j), (Nat.ltb_spec j (j0 + 0)); cbn [andb];
      try reflexivity; lia.
  - rewrite <- (firstn_skipn 8 cells) at 1.
    rewrite pack_frame_byte;
      [| rewrite length_firstn; lia | lia | rewrite Nat2Z.id; lia].
    replace (Z.of_nat j0 + 1) with (Z.of_nat (S j0)) by lia.
    rewrite IH; [| rewrite length_skipn; lia | rewrite length_store; lia
                 | rewrite length_store; lia].
    rewrite Nat2Z.id.
    destruct (Nat.leb_spec (S j0) j), (Nat.ltb_spec j (S j0 + m)),
      (Nat.leb_spec j0 j), (Nat.ltb_spec j (j0 + S m)); cbn [andb]; try lia.
    + replace (j - j0)%nat with (S (j - S j0)) by lia.
      rewrite byte_cells_tail. reflexivity.
    + apply nth_store_other. lia.
    + assert (j = j0) by lia. subst j.
      rewrite nth_store_same by lia.
      rewrite Nat.sub_diag. reflexivity.
    + apply nth_store_other. lia.
Qed.

Lemma byte_msb_first_8 (b0 b1 b2 b3 b4 b5 b6 b7 : Z) :
  byte_msb_first [b0; b1; b2; b3; b4; b5; b6; b7] =
  128 * b0 + 64 * b1 + 32 * b2 + 16 * b3 + 8 * b4 + 4 * b5 + 2 * b6 + b7.
Proof. unfold byte_msb_first. cbn [fold_left]. lia. Qed.

(** ** What the busy waits see *)

Lemma with_now_twice (n1 n2 : Z) (s : mcu) :
  with_now n2 (with_now n1 s) = with_now n2 s.
Proof. reflexivity. Qed.

(** The edge wait ends at the first read, the [e]-th, that finds the level
    changed. *)
Lemma wait_for_edge_spec (fuel : nat) :
  forall p s s', wait_for_edge fuel p s = Some s' ->
    exists e, 0 <= e
      /\ (forall i, 0 <= i < e -> level s (now s + i) = p)
      /\ level s (now s + e) <> p
      /\ s' = with_now (now s + e + 1) s.
Proof.
  induction fuel as [|fuel IH]; intros p s s' H; [discriminate H|].
  cbn [wait_for_edge] in H. unfold PINVALUE, tick in H.
  fold (level s (now s)) in H.
  destruct (Z.eqb_spec p (level s (now s))) as [E|E].
  - destruct (IH _ _ _ H) as (e & He & Hbefore & Hedge & ->).
    change (now (with_now (now s + 1) s)) with (now s + 1) in *.
    change (level (with_now (now s + 1) s)) with (level s) in *.
    exists (e + 1). split; [lia|]. split; [|split].
    + intros i Hi. destruct (Z.eq_dec i 0) as [->|Hne].
      * rewrite Z.add_0_r. symmetry. exact E.
      * replace (now s + i) with (now s + 1 + (i - 1)) by lia.
        apply Hbefore. lia.
    + replace (now s + (e + 1)) with (now s + 1 + e) by lia. exact Hedge.
    + rewrite with_now_twice. f_equal. lia.
  - injection H as <-. exists 0. split; [lia|]. split; [|split].
    + intros i Hi. lia.
    + rewrite Z.add_0_r. intros E'. apply E. symmetry. exact E'.
    + f_equal. lia.
Qed.

(** The delay ends at the first read, the [m]-th, that finds the timer at
    [delayTime] or above. *)
Lemma delay_spec (fuel : nat) :
  forall d s s', delay fuel d s = Some s' ->
    exists m, 0 <= m
      /\ (forall i, 0 <= i < m -> timer_since s (timer_zero s) (now s + i) < d)
      /\ d <= timer_since s (timer_zero s) (now s + m)
      /\ s' = with_now (now s + m + 1) s.
Proof.
  induction fuel as [|fuel IH]; intros d s s' H; [discriminate H|].
  cbn [delay] in H. unfold read_TIMER, tick in H.
  fold (timer_since s (timer_zero s) (now s)) in H.
  destruct (Z.ltb_spec (timer_since s (timer_zero s) (now s)) d) as [E|E].
  - destruct (IH _ _ _ H) as (m & Hm & Hbefore & Hend & ->).
    change (now (with_now (now s + 1) s)) with (now s + 1) in *.
    change (timer_zero (with_now (now s + 1) s)) with (timer_zero s) in *.
    change (timer_since (with_now (now s + 1) s)) with (timer_since s) in *.
    exists (m + 1). split; [lia|]. split; [|split].
    + intros i Hi. destruct (Z.eq_dec i 0) as [->|Hne].
      * rewrite Z.add_0_r. exact E.
      * replace (now s + i) with (now s + 1 + (i - 1)) by lia.
        apply Hbefore. lia.
    + replace (now s + (m + 1)) with (now s + 1 + m) by lia. exact Hend.
    + rewrite with_now_twice. f_equal. lia.
  - injection H as <-. exists 0. split; [lia|]. split; [|split].
    + intros i Hi. lia.
    + rewrite Z.add_0_r. exact E.
    + f_equal. lia.
Qed.

(** One bit cell: the edge is seen at the [e]-th read after the cell is
    entered, [p'] is the level at the next read, where the timer is
    cleared, and [t] is the level at the read that follows the first one,
    the [m]-th, to find the timer at [delayTime]. *)
Lemma bit_cell_spec (fuel : nat) (d p : Z) (s : mcu) (p' t : Z) (s' : mcu) :
  bit_cell fuel d p s = Some (p', t, s') ->
  exists e m, 0 <= e /\ 0 <= m
    /\ (forall i, 0 <= i < e -> level s (now s + i) = p)
    /\ level s (now s + e) <> p
    /\ p' = level s (now s + e + 1)
    /\ (forall i, 0 <= i < m ->
          timer_since s (now s + e + 1) (now s + e + 2 + i) < d)
    /\ d <= timer_since s (now s + e + 1) (now s + e + 2 + m)
    /\ t = level s (now s + e + m + 3)
    /\ s' = with_now (now s + e + m + 4) (with_timer_zero (now s + e + 1) s).
Proof.
  unfold bit_cell. intros H.
  destruct (wait_for_edge fuel p s) as [s1|] eqn:Hw; [|discriminate H].
  destruct (wait_for_edge_spec _ _ _ _ Hw) as (e & He & Hbefore & Hedge & ->).
  cbn [obind] in H. unfold clear_TIMER, PINVALUE, tick in H.
  change (now (with_now (now s + e + 1) s)) with (now s + e + 1) in H.
  match type of H with
  | context [delay fuel d ?x] =>
      destruct (delay fuel d x) as [s4|] eqn:Hd; [|discriminate H]
  end.
  destruct (delay_spec _ _ _ _ Hd) as (m & Hm & Htimer & Hend & ->).
  cbn [obind] in H. injection H as <- <- <-.
  exists e, m. repeat split; try assumption.
  - intros i Hi. specialize (Htimer i Hi).
    replace (now s + e + 2 + i) with (now s + e + 1 + 1 + i) by lia.
    exact Htimer.
  - replace (now s + e + 2 + m) with (now s + e + 1 + 1 + m) by lia.
    exact Hend.
  - unfold level. proj. f_equal. f_equal. lia.
  - proj. unfold with_now, with_timer_zero. proj. f_equal. lia.
Qed.

(** ** Synchronisation leaves the frame buffer alone *)

Lemma wait_for_edge_FrameData (fuel : nat) (p : Z) (s s' : mcu) :
  wait_for_edge fuel p s = Some s' -> FrameData s' = FrameData s.
Proof.
  intros H. destruct (wait_for_edge_spec _ _ _ _ H) as (e & _ & _ & _ & ->).
  reflexivity.
Qed.

Lemma delay_FrameData (fuel : nat) (d : Z) (s s' : mcu) :
  delay fuel d s = Some s' -> FrameData s' = FrameData s.
Proof.
  intros H. destruct (delay_spec _ _ _ _ H) as (m & _ & _ & _ & ->).
  reflexivity.
Qed.

Lemma sync_loop_FrameData (count : nat) :
  forall n fuel p time s p' time' s',
    sync_loop count n fuel p time s = Some (p', time', s') ->
    FrameData s' = FrameData s.
Proof.
  induction count as [|count IH]; intros n fuel p time s p' time' s' H.
  - cbn [sync_loop] in H. injection H as _ _ <-. reflexivity.
  - cbn [sync_loop] in H.
    destruct (wait_for_edge fuel p s) as [s1|] eqn:Hw; [|discriminate H].
    cbn [obind] in H. unfold read_TIMER, clear_TIMER, PINVALUE, tick in H.
    apply IH in H. rewrite H. cbn [FrameData with_now with_timer_zero].
    apply (wait_for_edge_FrameData _ _ _ _ Hw).
Qed.

Lemma wait_start_FrameData (rounds : nat) :
  forall fuel d p c s p' c' s',
    wait_start rounds fuel d p c s = Some (p', c', s') ->
    FrameData s' = FrameData s.
Proof.
  induction rounds as [|rounds IH]; intros fuel d p c s p' c' s' H;
    [discriminate H|].
  cbn [wait_start] in H. unfold PINVALUE at 1 in H.
  destruct (p =? Z.land (PINB_in s (now s)) INPUTAUDIOPIN).
  - destruct (wait_for_edge fuel p (tick s)) as [s2|] eqn:Hw; [|discriminate H].
    cbn [obind] in H. unfold PINVALUE at 1 in H.
    destruct (delay fuel d (clear_TIMER (tick s2))) as [s5|] eqn:Hd;
      [|discriminate H].
    cbn [obind] in H. apply IH in H. rewrite H.
    change (FrameData (clear_TIMER s5)) with (FrameData s5).
    rewrite (delay_FrameData _ _ _ _ Hd).
    change (FrameData (clear_TIMER (tick s2))) with (FrameData s2).
    rewrite (wait_for_edge_FrameData _ _ _ _ Hw). reflexivity.
  - injection H as _ _ <-. reflexivity.
Qed.

Lemma synchronise_FrameData (fuel : nat) (s : mcu) (d p c : Z) (s' : mcu) :
  synchronise fuel s = Some (d, p, c, s') -> FrameData s' = FrameData s.
Proof.
  unfold synchronise. unfold PINVALUE at 1. intros H.
  destruct (wait_for_edge fuel _ (tick s)) as [s2|] eqn:Hw; [|discriminate H].
  cbn [obind] in H. unfold PINVALUE at 1 in H.
  destruct (sync_loop 16 0 fuel _ 0 (clear_TIMER (tick s2)))
    as [[[p2 time] s5]|] eqn:Hs; [|discriminate H].
  cbn [obind] in H.
  destruct (delay fuel (u16 (time * 3) / 4 / 8) s5) as [s6|] eqn:Hd;
    [|discriminate H].
  cbn [obind] in H.
  destruct (wait_start fuel fuel (u16 (time * 3) / 4 / 8) p2 0 s6)
    as [[[p3 c3] s7]|] eqn:Hst; [|discriminate H].
  cbn [obind] in H. unfold PINVALUE in H. injection H as _ _ _ <-.
  change (FrameData (tick s7)) with (FrameData s7).
  rewrite (wait_start_FrameData _ _ _ _ _ _ _ _ _ Hst).
  rewrite (delay_FrameData _ _ _ _ Hd).
  rewrite (sync_loop_FrameData _ _ _ _ _ _ _ _ _ Hs).
  change (FrameData (clear_TIMER (tick s2))) with (FrameData s2).
  rewrite (wait_for_edge_FrameData _ _ _ _ Hw). reflexivity.
Qed.

(** * What a reception returns and decodes *)

Lemma receive_inv (n fuel : nat) (s : mcu) (ok : Z) (s' : mcu) :
  ('(d, p, c, s1) <- synchronise fuel s ;;
   r <- receive_bits n fuel d (RX p 8 0 c s1) ;;
   Some (1, rx_mcu r)) = Some (ok, s') ->
  ok = 1 /\
  exists d p c s1 r,
    synchronise fuel s = Some (d, p, c, s1)
    /\ receive_bits n fuel d (RX p 8 0 c s1) = Some r
    /\ s' = rx_mcu r.
Proof.
  intros H.
  destruct (synchronise fuel s) as [[[[d p] c] s1]|]; [|discriminate H].
  cbn [obind] in H.
  destruct (receive_bits n fuel d (RX p 8 0 c s1)) as [r|] eqn:Hr;
    [|discriminate H].
  cbn [obind] in H. injection H as <- <-.
  split; [reflexivity|]. exists d, p, c, s1, r. repeat split. exact Hr.
Qed.

Lemma receiveFrame_inv (fuel : nat) (s : mcu) (ok : Z) (s' : mcu) :
  receiveFrame fuel s = Some (ok, s') ->
  ok = 1 /\
  exists d p c s1 r,
    synchronise fuel s = Some (d, p, c, s1)
    /\ receive_bits (Z.to_nat (FRAMESIZE * 8)) fuel d (RX p 8 0 c s1) = Some r
    /\ s' = rx_mcu r.
Proof. exact (receive_inv (Z.to_nat (FRAMESIZE * 8)) fuel s ok s'). Qed.

Lemma dispatch_no_error (s s' : mcu) : dispatch s <> FrameError s'.
Proof.
  unfold dispatch. cbv zeta.
  destruct (frame_byte s COMMAND =? PROGCOMMAND); [discriminate|].
  destruct (frame_byte s COMMAND =? RUNCOMMAND);
    [rewrite runProgramm_eq; discriminate|].
  destruct (frame_byte s COMMAND =? EEPROMCOMMAND); [|discriminate].
  rewrite exitBootloader_eq.
  destruct (stored_entry _ =? 0); discriminate.
Qed.

(** C6.  Every reception that completes returns true (1), whatever the
    line carries; so a turn of the command loop never takes the frame-error
    branch: it waits, or it dispatches the frame. *)
Theorem receiveFrame_true :
  (forall fuel s ok s', receiveFrame fuel s = Some (ok, s') -> ok = 1)
  /\ (forall fuel s s', command_step fuel s <> FrameError s')
  /\ (forall turns fuel s s', command_loop turns fuel s <> FrameError s').
Proof.
  assert (H1 : forall fuel s ok s', receiveFrame fuel s = Some (ok, s') -> ok = 1)
    by (intros fuel s ok s' H; apply (receiveFrame_inv _ _ _ _ H)).
  assert (H2 : forall fuel s s', command_step fuel s <> FrameError s').
  { intros fuel s s'. unfold command_step.
    destruct (receiveFrame fuel s) as [[ok s1]|] eqn:E; [|discriminate].
    rewrite (H1 _ _ _ _ E). change (1 =? 0) with false. cbv iota.
    apply dispatch_no_error. }
  split; [exact H1|]. split; [exact H2|].
  induction turns as [|turns IH]; intros fuel s s'; cbn [command_loop];
    [discriminate|].
  destruct (command_step fuel s) as [s1| | |] eqn:E;
    [apply IH | discriminate | exfalso; exact (H2 _ _ _ E) | discriminate].
Qed.

(** The frame sent to [listening] is received. *)
Lemma listening_receives :
  option_map (fun r => FrameData (snd r)) (receiveFrame 64 listening) =
  Some (frame_of PROGCOMMAND 1 0 64 0x1234).
Proof. vm_compute. reflexivity. Qed.

Lemma receiveFrame_true_witness :
  exists s', receiveFrame 64 listening = Some (1, s').
Proof.
  pose proof listening_receives as Hc.
  destruct (receiveFrame 64 listening) as [[ok s']|] eqn:E; [|discriminate Hc].
  exists s'. rewrite (proj1 receiveFrame_true 64%nat listening ok s' E).
  reflexivity.
Defined.

(** * Further properties of the flash programmer *)

(** The fill loop of [boot_program_page] changes the page buffer and, on
    page 0, the entry pointer; nothing else. *)
Lemma boot_program_page_loop_frame (n : nat) :
  forall i page buf s,
    boot_program_page_loop n i page buf s =
    with_page_buffer (page_buffer (boot_program_page_loop n i page buf s))
      (with_start_appl_main
         (start_appl_main (boot_program_page_loop n i page buf s)) s).
Proof.
  induction n as [|n IH]; intros i page buf s.
  - destruct s. reflexivity.
  - rewrite boot_program_page_loop_S. cbv zeta. rewrite IH at 1.
    unfold boot_page_fill.
    destruct ((page =? 0) && (i =? 0)); reflexivity.
Qed.

Lemma page_write_frame (a : Z) (b : Z -> Z) (p : Z) (s : mcu) :
  boot_page_write a (with_page_buffer b (with_start_appl_main p s)) =
  with_page_buffer (fun _ => 0xFFFF)
    (with_flash
       (flash (boot_page_write a (with_page_buffer b (with_start_appl_main p s))))
       (with_start_appl_main p s)).
Proof. destruct s. reflexivity. Qed.

(** [boot_program_page] as a change of program memory, page buffer, entry
    pointer and interrupt flag. *)
Lemma boot_program_page_frame (page : Z) (buf : Z -> Z) (s : mcu) :
  boot_program_page page buf s =
  with_page_buffer (fun _ => 0xFFFF)
    (with_flash (flash (boot_program_page page buf s))
       (with_start_appl_main (start_appl_main (boot_program_page page buf s))
          (with_SREG_I false s))).
Proof.
  rewrite boot_program_page_unfold.
  generalize (S 31). intros n.
  rewrite boot_program_page_loop_frame.
  set (b := page_buffer _). set (p := start_appl_main _).
  rewrite page_write_frame.
  set (f := flash _). destruct s. reflexivity.
Qed.

Lemma boot_program_page_other_pages (page : Z) (buf : Z -> Z) (s : mcu) (a : Z) :
  same_page a page = false ->
  flash (boot_program_page page buf s) a = flash s a.
Proof.
  intros H. rewrite boot_program_page_unfold. generalize (S 31). intros n.
  unfold boot_page_write at 1. proj. rewrite H.
  rewrite boot_program_page_loop_flash. unfold boot_page_erase. proj.
  rewrite H. reflexivity.
Qed.

Lemma byte_of_payload_word (buf : Z -> Z) (i a : Z) :
  0 <= buf (2 * (i / 2)) < 256 -> 0 <= buf (2 * (i / 2) + 1) < 256 ->
  a mod 2 = i mod 2 ->
  byte_of_word (payload_word buf (2 * (i / 2))) a = buf i.
Proof.
  intros H0 H1 Hpar. unfold byte_of_word, payload_word. rewrite Hpar.
  destruct (Z.eqb_spec (i mod 2) 0) as [E|E].
  - replace (2 * (i / 2)) with i in * by (Z.div_mod_to_equations; lia).
    Z.div_mod_to_equations; lia.
  - replace (2 * (i / 2) + 1) with i in * by (Z.div_mod_to_equations; lia).
    Z.div_mod_to_equations; lia.
Qed.

Lemma boot_program_page_byte (page : Z) (buf : Z -> Z) (s : mcu) (i : Z) :
  page mod 64 = 0 -> 0 <= page < 65536 -> page_of_bytes buf ->
  0 <= i < SPM_PAGESIZE -> page <> 0 \/ 2 <= i ->
  flash (boot_program_page page buf s) (page + i) = buf i.
Proof.
  intros Hal Hpage Hbuf Hi Hnot. unfold SPM_PAGESIZE in Hi.
  rewrite boot_program_page_flash by assumption.
  rewrite same_page_in by lia.
  replace (page + i - page) with i by lia.
  unfold patched_word.
  replace ((page =? 0) && (2 * (i / 2) =? 0)) with false.
  - rewrite payload_word_u16;
      [| exact Hbuf | unfold SPM_PAGESIZE; Z.div_mod_to_equations; lia].
    apply byte_of_payload_word.
    + apply Hbuf. unfold SPM_PAGESIZE. Z.div_mod_to_equations; lia.
    + apply Hbuf. unfold SPM_PAGESIZE. Z.div_mod_to_equations; lia.
    + Z.div_mod_to_equations; lia.
  - symmetry. apply andb_false_iff. destruct Hnot as [Hp|Hi2].
    + left. apply Z.eqb_neq. exact Hp.
    + right. apply Z.eqb_neq. Z.div_mod_to_equations; lia.
Qed.

(** X1.  [boot_program_page] stores the payload byte for byte: on an
    aligned page every byte of the page is the payload byte of the same
    offset, but for the first word of page 0; and on a page other than
    page 0 the entry pointer is not touched. *)
Theorem boot_program_page_payload (page : Z) (buf : Z -> Z) (s : mcu) :
  page mod 64 = 0 -> 0 <= page < 65536 -> page_of_bytes buf ->
  (forall i, 0 <= i < SPM_PAGESIZE -> page <> 0 \/ 2 <= i ->
     flash (boot_program_page page buf s) (page + i) = buf i)
  /\ (page <> 0 ->
      start_appl_main (boot_program_page page buf s) = start_appl_main s).
Proof.
  intros Hal Hpage Hbuf. split.
  - intros i Hi Hnot. apply boot_program_page_byte; assumption.
  - intros Hp. rewrite boot_program_page_pointer.
    apply Z.eqb_neq in Hp. rewrite Hp. reflexivity.
Qed.

Lemma boot_program_page_payload_witness :
  flash (boot_program_page 64 (payload (with_frame PROGCOMMAND 1 0 64 0x1234 blank))
           blank) (64 + 5) = 5.
Proof.
  destruct (boot_program_page_payload 64
              (payload (with_frame PROGCOMMAND 1 0 64 0x1234 blank)) blank)
    as [H _].
  - reflexivity.
  - lia.
  - apply payload_with_frame_bytes. lia.
  - apply (H 5); [unfold SPM_PAGESIZE; lia | left; discriminate].
Defined.

(** X2.  [boot_program_page] keeps every byte of program memory outside the
    page of its address, keeps the EEPROM, the frame buffer and the ports,
    leaves the page buffer cleared, and leaves interrupts disabled: the
    [cli] of line 475 is never undone. *)
Theorem boot_program_page_keeps (page : Z) (buf : Z -> Z) (s : mcu) :
  (forall a, same_page a page = false ->
     flash (boot_program_page page buf s) a = flash s a)
  /\ SREG_I (boot_program_page page buf s) = false
  /\ page_buffer (boot_program_page page buf s) = (fun _ => 0xFFFF)
  /\ eeprom (boot_program_page page buf s) = eeprom s
  /\ FrameData (boot_program_page page buf s) = FrameData s
  /\ PORTB (boot_program_page page buf s) = PORTB s
  /\ DDRB (boot_program_page page buf s) = DDRB s.
Proof.
  split; [intros a Ha; apply boot_program_page_other_pages; exact Ha|].
  rewrite boot_program_page_frame.
  generalize (flash (boot_program_page page buf s)).
  generalize (start_appl_main (boot_program_page page buf s)).
  intros p f. repeat split.
Qed.

(** X3.  Programming an aligned page twice from the same payload leaves
    program memory and the entry pointer as programming it once does. *)
Theorem boot_program_page_twice (page : Z) (buf : Z -> Z) (s : mcu) :
  page mod 64 = 0 -> 0 <= page < 65536 ->
  (forall a, flash (boot_program_page page buf (boot_program_page page buf s)) a
             = flash (boot_program_page page buf s) a)
  /\ start_appl_main (boot_program_page page buf (boot_program_page page buf s))
     = start_appl_main (boot_program_page page buf s).
Proof.
  intros Hal Hpage. split.
  - intros a. rewrite (boot_program_page_flash page buf (boot_program_page page buf s))
      by assumption.
    rewrite (boot_program_page_flash page buf s) by assumption.
    destruct (same_page a page); reflexivity.
  - rewrite (boot_program_page_pointer page buf (boot_program_page page buf s)).
    rewrite (boot_program_page_pointer page buf s).
    destruct (page =? 0); reflexivity.
Qed.

Lemma boot_program_page_twice_witness :
  start_appl_main
    (boot_program_page 0 (payload (with_frame PROGCOMMAND 0 0 64 (rjmp 0x0F) blank))
       (boot_program_page 0
          (payload (with_frame PROGCOMMAND 0 0 64 (rjmp 0x0F) blank)) blank))
  = start_appl_main
      (boot_program_page 0
         (payload (with_frame PROGCOMMAND 0 0 64 (rjmp 0x0F) blank)) blank).
Proof.
  apply (boot_program_page_twice 0); [reflexivity | lia].
Defined.

(** ** The merge keeps what it is not asked to write *)

Lemma u32_u16 (x : Z) : u32 (u16 x) = u16 x.
Proof. apply u32_small. pose proof (u16_range x). lia. Qed.

Lemma land_255_mod (x : Z) : Z.land 255 x = x mod 256.
Proof.
  rewrite Z.land_comm. change 255 with (Z.ones 8).
  rewrite Z.land_ones by lia. reflexivity.
Qed.

Lemma pgm_write_block_other_pages (fa : Z) (block : Z -> Z) (size : Z) (s : mcu)
    (a : Z) :
  0 <= fa < 65536 -> same_page a fa = false ->
  flash (pgm_write_block fa block size s) a = flash s a.
Proof.
  intros Hfa Ha. rewrite pgm_write_block_unfold.
  rewrite boot_program_page_erase_write_flash, u32_u16.
  destruct (page_start_facts fa Hfa) as (_ & H0 & H64 & _).
  rewrite u16_small by lia.
  rewrite same_page_page_start, Ha.
  apply (f_equal (fun f => f a)). apply pgm_write_block_loop_flash.
Qed.

Lemma pgm_write_block_bytes (fa : Z) (block : Z -> Z) (size : Z) (s : mcu) :
  bytes (flash s) -> bytes (flash (pgm_write_block fa block size s)).
Proof.
  intros Hs a. rewrite pgm_write_block_unfold.
  rewrite boot_program_page_erase_write_flash.
  destruct (same_page a _).
  - rewrite land_255_mod. apply Z.mod_pos_bound. lia.
  - rewrite pgm_write_block_loop_flash. apply Hs.
Qed.

(** X4.  [pgm_write_block], whatever the size, changes program memory
    only inside the page of [flash_addr]; it puts the interrupt flag back
    as it found it, clears the page buffer, and keeps the entry pointer,
    the EEPROM, the frame buffer and the ports. *)
Theorem pgm_write_block_keeps (fa : Z) (block : Z -> Z) (size : Z) (s : mcu) :
  0 <= fa < 65536 ->
  (forall a, same_page a fa = false ->
     flash (pgm_write_block fa block size s) a = flash s a)
  /\ SREG_I (pgm_write_block fa block size s) = SREG_I s
  /\ page_buffer (pgm_write_block fa block size s) = (fun _ => 0xFFFF)
  /\ start_appl_main (pgm_write_block fa block size s) = start_appl_main s
  /\ eeprom (pgm_write_block fa block size s) = eeprom s
  /\ FrameData (pgm_write_block fa block size s) = FrameData s
  /\ PORTB (pgm_write_block fa block size s) = PORTB s
  /\ DDRB (pgm_write_block fa block size s) = DDRB s
  /\ TCCR0B (pgm_write_block fa block size s) = TCCR0B s.
Proof.
  intros Hfa.
  split; [intros a Ha; apply pgm_write_block_other_pages; assumption|].
  rewrite pgm_write_block_frame.
  generalize (flash (pgm_write_block fa block size s)). intros f.
  repeat split.
Qed.

Lemma pgm_write_block_keeps_witness :
  flash (pgm_write_block BOOTLOADER_FUNC_ADDRESS (fun _ => 0x10) 7 programmed) 0
  = flash programmed 0.
Proof.
  destruct (pgm_write_block_keeps BOOTLOADER_FUNC_ADDRESS (fun _ => 0x10) 7 programmed)
    as [H _].
  - vm_compute. split; [discriminate | reflexivity].
  - apply H. reflexivity.
Defined.

(** ** From RUNCOMMAND to the next start *)

Lemma runProgramm_stored (s : mcu) :
  bytes (flash s) -> 0 <= start_appl_main s < 65536 ->
  stored_entry
    (pgm_write_block BOOTLOADER_FUNC_ADDRESS
       (fun k => if k =? 0 then start_appl_main s else sram_after_pointer s k)
       sizeof_pointer (resetRegister s)) = start_appl_main s.
Proof.
  intros Hflash HX.
  rewrite (pgm_write_block_one_word _ _ (fun _ => start_appl_main s))
    by reflexivity.
  unfold stored_entry.
  change BOOTLOADER_FUNC_ADDRESS
    with (page_start BOOTLOADER_FUNC_ADDRESS + 2 * 31) at 2.
  rewrite pgm_write_block_word; trivial; try reflexivity; try lia;
    try (vm_compute; split; [discriminate|reflexivity]).
Qed.




(** * What a reception touches *)

Lemma only_frame_and_clock_refl (s : mcu) : only_frame_and_clock s s.
Proof. exists (FrameData s), (now s), (timer_zero s). destruct s. reflexivity. Qed.

Lemma only_frame_and_clock_trans (s1 s2 s3 : mcu) :
  only_frame_and_clock s1 s2 -> only_frame_and_clock s2 s3 ->
  only_frame_and_clock s1 s3.
Proof.
  intros (l1 & n1 & z1 & ->) (l2 & n2 & z2 & ->).
  exists l2, n2, z2. reflexivity.
Qed.

Lemma only_frame_and_clock_now (n : Z) (s : mcu) :
  only_frame_and_clock s (with_now n s).
Proof. exists (FrameData s), n, (timer_zero s). destruct s. reflexivity. Qed.

Lemma only_frame_and_clock_zero (z : Z) (s : mcu) :
  only_frame_and_clock s (with_timer_zero z s).
Proof. exists (FrameData s), (now s), z. destruct s. reflexivity. Qed.

Lemma only_frame_and_clock_frame (l : list Z) (s : mcu) :
  only_frame_and_clock s (with_FrameData l s).
Proof. exists l, (now s), (timer_zero s). destruct s. reflexivity. Qed.

Lemma only_frame_and_clock_step (s1 s2 s3 : mcu) :
  only_frame_and_clock s2 s3 -> only_frame_and_clock s1 s2 ->
  only_frame_and_clock s1 s3.
Proof. intros H23 H12. exact (only_frame_and_clock_trans _ _ _ H12 H23). Qed.

Lemma wait_for_edge_only (fuel : nat) (p : Z) (s s' : mcu) :
  wait_for_edge fuel p s = Some s' -> only_frame_and_clock s s'.
Proof.
  intros H. destruct (wait_for_edge_spec _ _ _ _ H) as (e & _ & _ & _ & ->).
  apply only_frame_and_clock_now.
Qed.

Lemma delay_only (fuel : nat) (d : Z) (s s' : mcu) :
  delay fuel d s = Some s' -> only_frame_and_clock s s'.
Proof.
  intros H. destruct (delay_spec _ _ _ _ H) as (m & _ & _ & _ & ->).
  apply only_frame_and_clock_now.
Qed.

Lemma tick_only (s : mcu) : only_frame_and_clock s (tick s).
Proof. apply only_frame_and_clock_now. Qed.

Lemma clear_TIMER_only (s : mcu) : only_frame_and_clock s (clear_TIMER s).
Proof. apply only_frame_and_clock_zero. Qed.

Lemma sync_loop_only (count : nat) :
  forall n fuel p time s p' time' s',
    sync_loop count n fuel p time s = Some (p', time', s') ->
    only_frame_and_clock s s'.
Proof.
  induction count as [|count IH]; intros n fuel p time s p' time' s' H.
  - cbn [sync_loop] in H. injection H as _ _ <-. apply only_frame_and_clock_refl.
  - cbn [sync_loop] in H.
    destruct (wait_for_edge fuel p s) as [s1|] eqn:Hw; [|discriminate H].
    cbn [obind] in H. unfold read_TIMER, PINVALUE in H.
    apply IH in H.
    apply (only_frame_and_clock_step _ _ _ H).
    apply (only_frame_and_clock_step _ _ _ (tick_only _)).
    apply (only_frame_and_clock_step _ _ _ (clear_TIMER_only _)).
    apply (only_frame_and_clock_step _ _ _ (tick_only _)).
    exact (wait_for_edge_only _ _ _ _ Hw).
Qed.

Lemma wait_start_only (rounds : nat) :
  forall fuel d p c s p' c' s',
    wait_start rounds fuel d p c s = Some (p', c', s') ->
    only_frame_and_clock s s'.
Proof.
  induction rounds as [|rounds IH]; intros fuel d p c s p' c' s' H;
    [discriminate H|].
  cbn [wait_start] in H. unfold PINVALUE at 1 in H.
  destruct (p =? Z.land (PINB_in s (now s)) INPUTAUDIOPIN).
  - destruct (wait_for_edge fuel p (tick s)) as [s2|] eqn:Hw; [|discriminate H].
    cbn [obind] in H. unfold PINVALUE at 1 in H.
    destruct (delay fuel d (clear_TIMER (tick s2))) as [s5|] eqn:Hd;
      [|discriminate H].
    cbn [obind] in H. apply IH in H.
    apply (only_frame_and_clock_step _ _ _ H).
    apply (only_frame_and_clock_step _ _ _ (clear_TIMER_only _)).
    apply (only_frame_and_clock_step _ _ _ (delay_only _ _ _ _ Hd)).
    apply (only_frame_and_clock_step _ _ _ (clear_TIMER_only _)).
    apply (only_frame_and_clock_step _ _ _ (tick_only _)).
    apply (only_frame_and_clock_step _ _ _ (wait_for_edge_only _ _ _ _ Hw)).
    apply tick_only.
  - injection H as _ _ <-. apply tick_only.
Qed.

Lemma synchronise_only (fuel : nat) (s : mcu) (d p c : Z) (s' : mcu) :
  synchronise fuel s = Some (d, p, c, s') -> only_frame_and_clock s s'.
Proof.
  unfold synchronise. unfold PINVALUE at 1. intros H.
  destruct (wait_for_edge fuel _ (tick s)) as [s2|] eqn:Hw; [|discriminate H].
  cbn [obind] in H. unfold PINVALUE at 1 in H.
  destruct (sync_loop 16 0 fuel _ 0 (clear_TIMER (tick s2)))
    as [[[p2 time] s5]|] eqn:Hs; [|discriminate H].
  cbn [obind] in H.
  destruct (delay fuel (u16 (time * 3) / 4 / 8) s5) as [s6|] eqn:Hd;
    [|discriminate H].
  cbn [obind] in H.
  destruct (wait_start fuel fuel (u16 (time * 3) / 4 / 8) p2 0 s6)
    as [[[p3 c3] s7]|] eqn:Hst; [|discriminate H].
  cbn [obind] in H. unfold PINVALUE in H. injection H as _ _ _ <-.
  apply (only_frame_and_clock_step _ _ _ (tick_only _)).
  apply (only_frame_and_clock_step _ _ _ (wait_start_only _ _ _ _ _ _ _ _ _ Hst)).
  apply (only_frame_and_clock_step _ _ _ (delay_only _ _ _ _ Hd)).
  apply (only_frame_and_clock_step _ _ _ (sync_loop_only _ _ _ _ _ _ _ _ _ Hs)).
  apply (only_frame_and_clock_step _ _ _ (clear_TIMER_only _)).
  apply (only_frame_and_clock_step _ _ _ (tick_only _)).
  apply (only_frame_and_clock_step _ _ _ (wait_for_edge_only _ _ _ _ Hw)).
  apply tick_only.
Qed.

Lemma bit_cell_only (fuel : nat) (d p : Z) (s : mcu) (p' t : Z) (s' : mcu) :
  bit_cell fuel d p s = Some (p', t, s') -> only_frame_and_clock s s'.
Proof.
  intros H.
  destruct (bit_cell_spec _ _ _ _ _ _ _ H)
    as (e & m & _ & _ & _ & _ & _ & _ & _ & _ & ->).
  apply (only_frame_and_clock_step _ _ _ (only_frame_and_clock_now _ _)).
  apply only_frame_and_clock_zero.
Qed.

Lemma shift_in_only (p t dp : Z) (s : mcu) : only_frame_and_clock s (shift_in p t dp s).
Proof.
  unfold shift_in, frame_set. destruct (p =? t).
  - apply only_frame_and_clock_frame.
  - apply (only_frame_and_clock_step _ _ _ (only_frame_and_clock_frame _ _)).
    apply only_frame_and_clock_frame.
Qed.

Lemma receive_bits_only (count : nat) :
  forall fuel d r r',
    receive_bits count fuel d r = Some r' ->
    only_frame_and_clock (rx_mcu r) (rx_mcu r').
Proof.
  induction count as [|count IH]; intros fuel d r r' H.
  - cbn [receive_bits] in H. injection H as <-. apply only_frame_and_clock_refl.
  - cbn [receive_bits] in H.
    destruct (bit_cell fuel d (rx_p r) (rx_mcu r)) as [[[p t] s1]|] eqn:Hb;
      [|discriminate H].
    cbn [obind] in H.
    destruct (u8 (rx_k r - 1) =? 0); apply IH in H; cbn [rx_mcu] in H;
      apply (only_frame_and_clock_step _ _ _ H);
      apply (only_frame_and_clock_step _ _ _ (shift_in_only _ _ _ _));
      exact (bit_cell_only _ _ _ _ _ _ _ Hb).
Qed.

Lemma receiveFrame_only (fuel : nat) (s : mcu) (ok : Z) (s' : mcu) :
  receiveFrame fuel s = Some (ok, s') -> only_frame_and_clock s s'.
Proof.
  intros H.
  destruct (receiveFrame_inv _ _ _ _ H) as (_ & d & p & c & s1 & r & Hs & Hr & ->).
  apply receive_bits_only in Hr. cbn [rx_mcu] in Hr.
  apply (only_frame_and_clock_step _ _ _ Hr).
  exact (synchronise_only _ _ _ _ _ _ Hs).
Qed.

(** X6.  A reception changes nothing of the machine but the frame buffer
    and the clock (the instant and the origin of the timer): program
    memory, the page buffer, the EEPROM and its registers, the entry pointer,
    the ports and the interrupt flag are what they were. *)
Theorem receiveFrame_touches (fuel : nat) (s : mcu) (ok : Z) (s' : mcu) :
  receiveFrame fuel s = Some (ok, s') ->
  only_frame_and_clock s s'
  /\ flash s' = flash s /\ page_buffer s' = page_buffer s
  /\ eeprom s' = eeprom s /\ EEAR s' = EEAR s /\ EEDR s' = EEDR s
  /\ start_appl_main s' = start_appl_main s
  /\ PORTB s' = PORTB s /\ DDRB s' = DDRB s /\ TCCR0B s' = TCCR0B s
  /\ SREG_I s' = SREG_I s.
Proof.
  intros H. pose proof (receiveFrame_only _ _ _ _ H) as Ho.
  split; [exact Ho|]. destruct Ho as (l & n & z & ->). repeat split.
Qed.

Lemma receiveFrame_touches_witness :
  exists ok s', receiveFrame 64 listening = Some (ok, s')
    /\ flash s' = flash listening.
Proof.
  pose proof listening_receives as Hc.
  destruct (receiveFrame 64 listening) as [[ok s']|] eqn:E; [|discriminate Hc].
  exists ok, s'. split; [reflexivity|].
  exact (proj1 (proj2 (receiveFrame_touches 64 listening ok s' E))).
Defined.

(** * The command interpreter as a whole *)

Lemma dispatch_cases (s : mcu) (P : outcome -> Prop) :
  (frame_byte s COMMAND = PROGCOMMAND ->
   P (Bootloader
        (frame_set COMMAND NOCOMMAND
           (if prog_address s <? BOOTLOADER_ADDRESS
            then TOGGLELED (boot_program_page (prog_address s) (payload s) s)
            else s)))) ->
  (frame_byte s COMMAND = RUNCOMMAND -> P (runProgramm s)) ->
  (frame_byte s COMMAND = EEPROMCOMMAND ->
   P (match exitBootloader
              (LEDOFF (eeprom_loop (Z.to_nat (frame_byte s LENGTHLOW)) 0
                         (eeprom_address s) (payload s) s)) with
      | Bootloader s2 => Bootloader (frame_set COMMAND NOCOMMAND s2)
      | o => o
      end)) ->
  (frame_byte s COMMAND <> PROGCOMMAND -> frame_byte s COMMAND <> RUNCOMMAND ->
   frame_byte s COMMAND <> EEPROMCOMMAND ->
   P (Bootloader (frame_set COMMAND NOCOMMAND s))) ->
  P (dispatch s).
Proof.
  intros Hprog Hrun Hee Hother. unfold dispatch. cbv zeta.
  destruct (Z.eqb_spec (frame_byte s COMMAND) PROGCOMMAND) as [E1|E1];
    [exact (Hprog E1)|].
  destruct (Z.eqb_spec (frame_byte s COMMAND) RUNCOMMAND) as [E2|E2];
    [exact (Hrun E2)|].
  destruct (Z.eqb_spec (frame_byte s COMMAND) EEPROMCOMMAND) as [E3|E3];
    [exact (Hee E3)|].
  exact (Hother E1 E2 E3).
Qed.

Lemma eeprom_loop_frame (count : nat) :
  forall i address buf s,
    eeprom_loop count i address buf s =
    with_eeprom (eeprom (eeprom_loop count i address buf s))
      (with_EEAR (EEAR (eeprom_loop count i address buf s))
         (with_EEDR (EEDR (eeprom_loop count i address buf s)) s)).
Proof.
  induction count as [|count IH]; intros i address buf s.
  - destruct s. reflexivity.
  - cbn [eeprom_loop]. rewrite IH. unfold eeprom_write.
    destruct (u16 (address + i) <? 512); destruct s; reflexivity.
Qed.

Lemma eeprom_branch_eq (s1 : mcu) :
  match exitBootloader (LEDOFF s1) with
  | Bootloader s2 => Bootloader (frame_set COMMAND NOCOMMAND s2)
  | o => o
  end =
  if stored_entry s1 =? 0
  then Bootloader (frame_set COMMAND NOCOMMAND
                     (with_start_appl_main (stored_entry s1) (LEDOFF s1)))
  else Application (stored_entry s1)
         (resetRegister (with_start_appl_main (stored_entry s1) (LEDOFF s1))).
Proof.
  rewrite exitBootloader_eq.
  change (stored_entry (LEDOFF s1)) with (stored_entry s1).
  destruct (stored_entry s1 =? 0); reflexivity.
Qed.

Lemma same_page_above (a p : Z) :
  BOOTLOADER_ADDRESS <= a -> p < BOOTLOADER_ADDRESS -> same_page a p = false.
Proof.
  unfold same_page, BOOTLOADER_ADDRESS, SPM_PAGESIZE. intros Ha Hp.
  apply Z.eqb_neq. Z.div_mod_to_equations. lia.
Qed.

Lemma same_page_low (a p : Z) :
  p mod 64 = 0 -> 64 <= p -> 0 <= a < 64 -> same_page a p = false.
Proof.
  unfold same_page, SPM_PAGESIZE. intros Hal Hp Ha.
  apply Z.eqb_neq. Z.div_mod_to_equations. lia.
Qed.

(** The invariant rule of the command loop: what a reception keeps and a
    dispatch meets, the loop meets. *)
Lemma command_loop_meets (P : mcu -> Prop) (R : Z -> mcu -> Prop) :
  (forall fuel s ok s', P s -> receiveFrame fuel s = Some (ok, s') -> P s') ->
  (forall s, P s -> outcome_meets P R (dispatch s)) ->
  forall turns fuel s, P s -> outcome_meets P R (command_loop turns fuel s).
Proof.
  intros Hrecv Hdisp.
  assert (Hstep : forall fuel s, P s -> outcome_meets P R (command_step fuel s)).
  { intros fuel s Hs. unfold command_step.
    destruct (receiveFrame fuel s) as [[ok s1]|] eqn:E; [|exact I].
    pose proof (Hrecv _ _ _ _ Hs E) as Hs1.
    destruct (receiveFrame_inv _ _ _ _ E) as [-> _].
    change (1 =? 0) with false. cbv iota. exact (Hdisp _ Hs1). }
  induction turns as [|turns IH]; intros fuel s Hs; cbn [command_loop];
    [exact Hs|].
  pose proof (Hstep fuel s Hs) as H.
  destruct (command_step fuel s) as [s1| | |]; try exact H.
  apply IH. exact H.
Qed.

Lemma dwell_loop_frame (turns : nat) :
  forall lPress s,
    snd (dwell_loop turns lPress s) =
    with_PORTB (PORTB (snd (dwell_loop turns lPress s)))
      (with_now (now (snd (dwell_loop turns lPress s))) s).
Proof.
  induction turns as [|turns IH]; intros lPress s.
  - destruct s. reflexivity.
  - rewrite dwell_loop_S.
    destruct (Z.land (PINB_in s (now s)) BOOTCHECKPIN =? 0);
      [|destruct s; reflexivity].
    destruct (u32 (lPress + 1) >? DWELL); [destruct s; reflexivity|].
    rewrite IH. destruct s; reflexivity.
Qed.

(** The invariant rule of the whole program: a property that does not look
    at the ports, the timer set-up or the clock, that a reception keeps and
    that [exitBootloader] and a dispatch meet, is met wherever [main] gets
    to. *)
Lemma main_meets (P : mcu -> Prop) (R : Z -> mcu -> Prop) :
  (forall s v, P s -> P (with_PORTB v s)) ->
  (forall s v, P s -> P (with_DDRB v s)) ->
  (forall s v, P s -> P (with_TCCR0B v s)) ->
  (forall s v, P s -> P (with_now v s)) ->
  (forall s, P s -> outcome_meets P R (exitBootloader s)) ->
  (forall fuel s ok s', P s -> receiveFrame fuel s = Some (ok, s') -> P s') ->
  (forall s, P s -> outcome_meets P R (dispatch s)) ->
  forall turns fuel s, P s -> outcome_meets P R (main turns fuel s).
Proof.
  intros Hport Hddr Htc Hnow Hexit Hrecv Hdisp turns fuel s Hs.
  unfold main. cbv zeta.
  match goal with |- outcome_meets P R (a_main turns fuel ?x) =>
    assert (Hx : P x) by (apply Htc, Hport, Hddr, Hddr, Hddr, Hs);
    generalize dependent x
  end.
  intros x Hx. unfold a_main. rewrite a_main_entry_eq.
  assert (H2 : P (LEDOFF (snd (dwell_loop (Z.to_nat (DWELL + 1)) 0 (tick x))))).
  { unfold LEDOFF. apply Hport. rewrite dwell_loop_frame.
    apply Hport, Hnow. unfold tick. apply Hnow. exact Hx. }
  revert H2. generalize (LEDOFF (snd (dwell_loop (Z.to_nat (DWELL + 1)) 0 (tick x)))).
  intros y Hy.
  destruct (fst (dwell_loop (Z.to_nat (DWELL + 1)) 0 (tick x)) <? DWELL).
  - pose proof (Hexit y Hy) as He.
    destruct (exitBootloader y) as [s1| | |]; try exact He.
    apply command_loop_meets; assumption.
  - apply command_loop_meets; assumption.
Qed.

Lemma boot_program_page_bytes (page : Z) (buf : Z -> Z) (s : mcu) :
  bytes (flash s) -> bytes (flash (boot_program_page page buf s)).
Proof.
  intros Hs a.
  assert (E : exists x, flash (boot_program_page page buf s) a =
                        if same_page a page then Z.land 255 x else flash s a).
  { rewrite boot_program_page_unfold. generalize (S 31). intros n.
    unfold boot_page_write at 1. proj.
    rewrite boot_program_page_loop_flash. unfold boot_page_erase. proj.
    eexists. destruct (same_page a page); reflexivity. }
  destruct E as [x ->]. destruct (same_page a page).
  - rewrite land_255_mod. apply Z.mod_pos_bound. lia.
  - apply Hs.
Qed.

Lemma eeprom_loop_flash (count : nat) (i address : Z) (buf : Z -> Z) (s : mcu) :
  flash (eeprom_loop count i address buf s) = flash s.
Proof. rewrite eeprom_loop_frame. reflexivity. Qed.

Lemma eeprom_loop_pointer (count : nat) (i address : Z) (buf : Z -> Z) (s : mcu) :
  start_appl_main (eeprom_loop count i address buf s) = start_appl_main s.
Proof. rewrite eeprom_loop_frame. reflexivity. Qed.

Lemma stored_entry_range (s : mcu) : bytes (flash s) -> 0 <= stored_entry s < 65536.
Proof. intros H. apply pgm_read_word_range. exact H. Qed.

Lemma flash_run (s : mcu) (a : Z) :
  same_page a BOOTLOADER_FUNC_ADDRESS = false ->
  flash (pgm_write_block BOOTLOADER_FUNC_ADDRESS
           (fun k => if k =? 0 then start_appl_main s else sram_after_pointer s k)
           sizeof_pointer (resetRegister s)) a = flash s a.
Proof.
  intros H. rewrite pgm_write_block_other_pages;
    [reflexivity | vm_compute; split; [discriminate | reflexivity] | exact H].
Qed.

(** What a dispatch does to program memory, byte by byte: a byte changes
    only in the page a PROGCOMMAND below the bootloader names, or in the
    page of the entry slot on RUNCOMMAND. *)
Lemma dispatch_flash (s : mcu) (a : Z) :
  holds_after
    (fun s' => flash s' a = flash s a
               \/ (frame_byte s COMMAND = PROGCOMMAND
                   /\ prog_address s < BOOTLOADER_ADDRESS
                   /\ same_page a (prog_address s) = true)
               \/ (frame_byte s COMMAND = RUNCOMMAND
                   /\ same_page a BOOTLOADER_FUNC_ADDRESS = true))
    (dispatch s).
Proof.
  apply dispatch_cases.
  - intros Hc. unfold holds_after, outcome_meets.
    rewrite flash_frame_set.
    destruct (Z.ltb_spec (prog_address s) BOOTLOADER_ADDRESS) as [Hlt|Hge];
      [|left; reflexivity].
    rewrite flash_TOGGLELED.
    destruct (same_page a (prog_address s)) eqn:Hsame.
    + right. left. repeat split; assumption.
    + left. apply boot_program_page_other_pages. exact Hsame.
  - intros Hc. rewrite runProgramm_eq. unfold holds_after, outcome_meets.
    destruct (same_page a BOOTLOADER_FUNC_ADDRESS) eqn:Hsame.
    + right. right. split; [exact Hc | reflexivity].
    + left. apply flash_run. exact Hsame.
  - intros Hc. rewrite eeprom_branch_eq.
    destruct (stored_entry _ =? 0); unfold holds_after, outcome_meets; left;
      [rewrite flash_frame_set|];
      apply (f_equal (fun f => f a)); apply eeprom_loop_flash.
  - intros _ _ _. left. reflexivity.
Qed.

Lemma receiveFrame_flash (fuel : nat) (s : mcu) (ok : Z) (s' : mcu) :
  receiveFrame fuel s = Some (ok, s') -> flash s' = flash s.
Proof.
  intros H. destruct (receiveFrame_only _ _ _ _ H) as (l & n & z & ->).
  reflexivity.
Qed.

Lemma receiveFrame_pointer (fuel : nat) (s : mcu) (ok : Z) (s' : mcu) :
  receiveFrame fuel s = Some (ok, s') -> start_appl_main s' = start_appl_main s.
Proof.
  intros H. destruct (receiveFrame_only _ _ _ _ H) as (l & n & z & ->).
  reflexivity.
Qed.

Lemma exitBootloader_flash (P : (Z -> Z) -> Prop) (s : mcu) :
  P (flash s) -> holds_after (fun s' => P (flash s')) (exitBootloader s).
Proof.
  intros H. rewrite exitBootloader_eq.
  destruct (stored_entry s =? 0); exact H.
Qed.

Lemma dispatch_bootloader_kept (s0 s : mcu) :
  bootloader_kept s0 s -> holds_after (bootloader_kept s0) (dispatch s).
Proof.
  intros Hs.
  assert (H : forall a, BOOTLOADER_ADDRESS <= a ->
            holds_after (fun s' => flash s' a = flash s a) (dispatch s)).
  { intros a Ha. pose proof (dispatch_flash s a) as Hd. revert Hd.
    unfold holds_after, outcome_meets.
    destruct (dispatch s) as [s1|X s1|s1|]; trivial;
      (intros [Hd | [(_ & Hlt & Hsame) | (_ & Hsame)]]; [exact Hd | |]);
      exfalso.
    - rewrite same_page_above in Hsame by assumption. discriminate Hsame.
    - rewrite same_page_above in Hsame by (assumption || reflexivity).
      discriminate Hsame.
    - rewrite same_page_above in Hsame by assumption. discriminate Hsame.
    - rewrite same_page_above in Hsame by (assumption || reflexivity).
      discriminate Hsame. }
  unfold holds_after, outcome_meets, bootloader_kept in *.
  destruct (dispatch s) as [s1|X s1|s1|] eqn:E; trivial.
  - intros a Ha. rewrite (H a Ha). apply Hs. exact Ha.
  - intros a Ha. rewrite (H a Ha). apply Hs. exact Ha.
  - exact (dispatch_no_error _ _ E).
Qed.

(** X7.  The bootloader never writes on itself.  Whatever frames arrive
    and however long the program runs, every byte of program memory from
    [BOOTLOADER_ADDRESS] up is what it was when [main] was entered: after one
    dispatch, after any number of turns of the command loop, and wherever
    [main] hands control to. *)
Theorem bootloader_never_overwritten (turns fuel : nat) (s : mcu) :
  holds_after (bootloader_kept s) (dispatch s)
  /\ holds_after (bootloader_kept s) (command_loop turns fuel s)
  /\ holds_after (bootloader_kept s) (main turns fuel s).
Proof.
  assert (Hrefl : bootloader_kept s s) by (intros a _; reflexivity).
  assert (Hrecv : forall fuel s1 ok s', bootloader_kept s s1 ->
            receiveFrame fuel s1 = Some (ok, s') -> bootloader_kept s s').
  { intros f s1 ok s' H1 Hr a Ha.
    rewrite (receiveFrame_flash _ _ _ _ Hr). apply H1. exact Ha. }
  split; [apply dispatch_bootloader_kept; exact Hrefl|]. split.
  - apply command_loop_meets;
      [exact Hrecv | apply dispatch_bootloader_kept | exact Hrefl].
  - apply main_meets; try (intros s1 v H1; exact H1); trivial.
    + intros s1 H1. apply (exitBootloader_flash
        (fun f => forall a, BOOTLOADER_ADDRESS <= a -> f a = flash s a)).
      exact H1.
    + apply dispatch_bootloader_kept.
Qed.

(** ** The reset vector *)

Lemma dispatch_vector (s : mcu) :
  vector_to_bootloader s -> holds_after vector_to_bootloader (dispatch s).
Proof.
  unfold vector_to_bootloader. intros Hs. apply dispatch_cases.
  - intros _. unfold holds_after, outcome_meets.
    rewrite pgm_read_word_frame_set.
    destruct (prog_address s <? BOOTLOADER_ADDRESS); [|exact Hs].
    rewrite pgm_read_word_TOGGLELED.
    destruct (prog_address_aligned s) as [Hal Hrange].
    destruct (Z.eq_dec (prog_address s) 0) as [E|E].
    + rewrite E.
      exact (boot_program_page_word 0 (payload s) s 0 eq_refl
               ltac:(lia) ltac:(lia)).
    + unfold pgm_read_word in *.
      rewrite !boot_program_page_other_pages
        by (apply same_page_low; [exact Hal | | ];
            Z.div_mod_to_equations; lia).
      exact Hs.
  - intros _. rewrite runProgramm_eq. unfold holds_after, outcome_meets.
    unfold pgm_read_word in *. rewrite !flash_run by reflexivity. exact Hs.
  - intros _. rewrite eeprom_branch_eq.
    destruct (stored_entry _ =? 0); unfold holds_after, outcome_meets;
      rewrite ?pgm_read_word_frame_set;
      (erewrite pgm_read_word_ext; [exact Hs|]);
      apply eeprom_loop_flash.
  - intros _ _ _. exact Hs.
Qed.

(** X8.  Once the reset vector jumps to the bootloader it does so for
    good: no frame, whatever page or command it carries, and no exit path
    makes the word at address 0 anything else.  A reset therefore always
    comes back to the bootloader. *)
Theorem reset_vector_stays (turns fuel : nat) (s : mcu) :
  vector_to_bootloader s ->
  holds_after vector_to_bootloader (dispatch s)
  /\ holds_after vector_to_bootloader (command_loop turns fuel s)
  /\ holds_after vector_to_bootloader (main turns fuel s).
Proof.
  intros Hs.
  assert (Hrecv : forall fuel s1 ok s', vector_to_bootloader s1 ->
            receiveFrame fuel s1 = Some (ok, s') -> vector_to_bootloader s').
  { intros f s1 ok s' H1 Hr. unfold vector_to_bootloader in *.
    rewrite (pgm_read_word_ext s' s1); [exact H1|].
    exact (receiveFrame_flash _ _ _ _ Hr). }
  split; [apply dispatch_vector; exact Hs|]. split.
  - apply command_loop_meets; [exact Hrecv | apply dispatch_vector | exact Hs].
  - apply main_meets; try (intros s1 v H1; exact H1); trivial.
    + intros s1 H1.
      apply (exitBootloader_flash
               (fun f => f 0 + 256 * f (0 + 1) = bootloader_vector)).
      exact H1.
    + apply dispatch_vector.
Qed.

Lemma reset_vector_stays_witness :
  holds_after vector_to_bootloader (dispatch run_requested).
Proof.
  apply (proj1 (reset_vector_stays 0 0 run_requested (eq_refl bootloader_vector))).
Defined.

(** ** What the application finds *)

Lemma exitBootloader_start (s : mcu) :
  well_formed s -> outcome_meets well_formed clean_start (exitBootloader s).
Proof.
  intros [Hb Hp]. rewrite exitBootloader_eq.
  destruct (stored_entry s =? 0).
  - split; [exact Hb | apply stored_entry_range; exact Hb].
  - repeat split.
Qed.

Lemma dispatch_start (s : mcu) :
  well_formed s -> outcome_meets well_formed clean_start (dispatch s).
Proof.
  intros [Hb Hp]. apply dispatch_cases.
  - intros _. unfold outcome_meets, well_formed.
    rewrite flash_frame_set, start_appl_main_frame_set.
    destruct (prog_address s <? BOOTLOADER_ADDRESS); [|split; assumption].
    rewrite flash_TOGGLELED, start_appl_main_TOGGLELED.
    split; [apply boot_program_page_bytes; exact Hb|].
    rewrite boot_program_page_pointer.
    destruct (prog_address s =? 0); [apply u16_range | exact Hp].
  - intros _. rewrite runProgramm_eq. unfold outcome_meets, clean_start.
    rewrite runProgramm_stored by assumption.
    rewrite pgm_write_block_pointer.
    rewrite pgm_write_block_frame. repeat split.
  - intros _. rewrite eeprom_branch_eq.
    destruct (stored_entry _ =? 0); unfold outcome_meets.
    + split.
      * rewrite flash_frame_set.
        change (bytes (flash (eeprom_loop (Z.to_nat (frame_byte s LENGTHLOW)) 0
                                (eeprom_address s) (payload s) s))).
        rewrite eeprom_loop_flash. exact Hb.
      * rewrite start_appl_main_frame_set.
        apply stored_entry_range. rewrite eeprom_loop_flash. exact Hb.
    + repeat split.
  - intros _ _ _. split; assumption.
Qed.

(** X9.  The application is always started on a clean machine and from
    the entry in its flash slot.  On a machine whose program memory holds
    bytes and whose pointer holds 16 bits, wherever [main] calls the
    application at X (by [exitBootloader] at entry, after EEPROMCOMMAND, or by
    [runProgramm]), DDRB and TCCR0B are zero, interrupts are off, and both
    [start_appl_main] and the slot at [BOOTLOADER_FUNC_ADDRESS] hold X; and
    the error blink is never reached. *)
Theorem application_start (turns fuel : nat) (s : mcu) :
  well_formed s ->
  outcome_meets well_formed clean_start (dispatch s)
  /\ outcome_meets well_formed clean_start (command_loop turns fuel s)
  /\ outcome_meets well_formed clean_start (main turns fuel s).
Proof.
  intros Hs.
  assert (Hrecv : forall fuel s1 ok s', well_formed s1 ->
            receiveFrame fuel s1 = Some (ok, s') -> well_formed s').
  { intros f s1 ok s' H1 Hr. unfold well_formed in *.
    rewrite (receiveFrame_flash _ _ _ _ Hr), (receiveFrame_pointer _ _ _ _ Hr).
    exact H1. }
  split; [apply dispatch_start; exact Hs|]. split.
  - apply command_loop_meets; [exact Hrecv | apply dispatch_start | exact Hs].
  - apply main_meets; try (intros s1 v H1; exact H1); trivial.
    + apply exitBootloader_start.
    + apply dispatch_start.
Qed.

Lemma application_start_witness :
  outcome_meets well_formed clean_start
    (dispatch (with_start_appl_main 0x10 (with_frame RUNCOMMAND 0 0 0 0 blank))).
Proof.
  refine (proj1 (application_start 0 0
                   (with_start_appl_main 0x10 (with_frame RUNCOMMAND 0 0 0 0 blank)) _)).
  split.
  - exact bytes_blank.
  - cbn. lia.
Defined.

(** * The EEPROM command *)

Lemma eeprom_write_cell (address data : Z) (s : mcu) (a : Z) :
  address < 512 ->
  eeprom (eeprom_write address data s) a = if a =? address then data else eeprom s a.
Proof.
  intros H. unfold eeprom_write. apply Z.ltb_lt in H. rewrite H. reflexivity.
Qed.

Lemma eeprom_loop_content (count : nat) :
  forall i address buf s a,
    0 <= i -> i + Z.of_nat count <= 256 -> 0 <= address <= 255 ->
    eeprom (eeprom_loop count i address buf s) a =
    if (address + i <=? a) && (a <? address + i + Z.of_nat count)
    then buf (a - address) else eeprom s a.
Proof.
  induction count as [|count IH]; intros i address buf s a Hi Hc Ha.
  - cbn [eeprom_loop]. zb; try lia; reflexivity.
  - cbn [eeprom_loop].
    destruct (Z.eq_dec (i + 1) 256) as [E|E].
    + assert (count = 0%nat) by lia. subst count. cbn [eeprom_loop].
      rewrite eeprom_write_cell by (rewrite u16_small; lia).
      rewrite u16_small by lia.
      zb; try lia; try reflexivity. f_equal. lia.
    + rewrite (u8_small (i + 1)) by lia.
      rewrite IH by lia.
      rewrite eeprom_write_cell by (rewrite u16_small; lia).
      rewrite u16_small by lia.
      zb; try lia; try reflexivity. f_equal. lia.
Qed.

Lemma eeprom_address_range (s : mcu) : 0 <= eeprom_address s <= 255.
Proof. unfold eeprom_address. pose proof (u8_range (SPM_PAGESIZE * frame_byte s PAGEINDEXLOW)). lia. Qed.

Lemma eeprom_address_page (s : mcu) :
  eeprom_address s = 64 * (frame_byte s PAGEINDEXLOW mod 4).
Proof.
  unfold eeprom_address, u8, SPM_PAGESIZE. Z.div_mod_to_equations. lia.
Qed.

Lemma frame_byte_cleared (s : mcu) :
  frame_byte (frame_set COMMAND NOCOMMAND s) COMMAND = NOCOMMAND.
Proof.
  unfold frame_byte, frame_set, COMMAND, NOCOMMAND. proj.
  change ((0 <=? 0) && (0 <? FRAMESIZE)) with true. cbv iota.
  destruct (FrameData s); reflexivity.
Qed.

(** X10.  What EEPROMCOMMAND stores.  The [len] bytes that follow the
    frame header go to the EEPROM cells [base .. base + len - 1], where
    [base] is 64 times the low two bits of the page byte; no other cell
    changes, so no cell from 447 up is ever written.  A length above the 64
    payload bytes of a frame is not refused: the bytes from offset 64 on are
    read from the memory behind the frame buffer.  Program memory is not
    changed, and the command ends in [exitBootloader]: the application is
    called if its slot is not null, else the command byte is cleared and the
    bootloader goes on. *)
Theorem eeprom_command_content (s : mcu) :
  frame_byte s COMMAND = EEPROMCOMMAND ->
  0 <= frame_byte s LENGTHLOW < 256 ->
  eeprom_address s = 64 * (frame_byte s PAGEINDEXLOW mod 4)
  /\ holds_after
       (fun s' =>
          flash s' = flash s
          /\ (forall a,
                eeprom s' a =
                if (eeprom_address s <=? a)
                   && (a <? eeprom_address s + frame_byte s LENGTHLOW)
                then payload s (a - eeprom_address s) else eeprom s a)
          /\ (forall i, 64 <= i < frame_byte s LENGTHLOW ->
                eeprom s' (eeprom_address s + i) = sram_after_frame s (i - 64))
          /\ (forall a, 447 <= a -> eeprom s' a = eeprom s a))
       (dispatch s)
  /\ (stored_entry s <> 0 -> exists s', dispatch s = Application (stored_entry s) s')
  /\ (stored_entry s = 0 ->
      exists s', dispatch s = Bootloader s' /\ frame_byte s' COMMAND = NOCOMMAND).
Proof.
  intros Hcmd Hlen.
  pose proof (eeprom_address_range s) as Hbase.
  pose proof (eeprom_address_page s) as Hpage.
  split; [exact Hpage|].
  assert (Hd : dispatch s =
               if stored_entry s =? 0
               then Bootloader
                      (frame_set COMMAND NOCOMMAND
                         (with_start_appl_main (stored_entry s)
                            (LEDOFF (eeprom_loop (Z.to_nat (frame_byte s LENGTHLOW)) 0
                                       (eeprom_address s) (payload s) s))))
               else Application (stored_entry s)
                      (resetRegister
                         (with_start_appl_main (stored_entry s)
                            (LEDOFF (eeprom_loop (Z.to_nat (frame_byte s LENGTHLOW)) 0
                                       (eeprom_address s) (payload s) s))))).
  { apply dispatch_cases; try (intros Hc; rewrite Hcmd in Hc; discriminate Hc).
    - intros _. rewrite eeprom_branch_eq.
      rewrite (stored_entry_ext _ s) by apply eeprom_loop_flash. reflexivity.
    - intros _ _ Hc. contradiction. }
  assert (Hcontent : forall a,
            eeprom (eeprom_loop (Z.to_nat (frame_byte s LENGTHLOW)) 0
                      (eeprom_address s) (payload s) s) a =
            if (eeprom_address s <=? a)
               && (a <? eeprom_address s + frame_byte s LENGTHLOW)
            then payload s (a - eeprom_address s) else eeprom s a).
  { intros a. rewrite eeprom_loop_content by lia.
    rewrite Z2Nat.id by lia. rewrite !Z.add_0_r. reflexivity. }
  split; [|split].
  - rewrite Hd.
    assert (Hall : forall s',
              flash s' = flash (eeprom_loop (Z.to_nat (frame_byte s LENGTHLOW)) 0
                                  (eeprom_address s) (payload s) s) ->
              eeprom s' = eeprom (eeprom_loop (Z.to_nat (frame_byte s LENGTHLOW)) 0
                                  (eeprom_address s) (payload s) s) ->
              flash s' = flash s
              /\ (forall a,
                    eeprom s' a =
                    if (eeprom_address s <=? a)
                       && (a <? eeprom_address s + frame_byte s LENGTHLOW)
                    then payload s (a - eeprom_address s) else eeprom s a)
              /\ (forall i, 64 <= i < frame_byte s LENGTHLOW ->
                    eeprom s' (eeprom_address s + i) = sram_after_frame s (i - 64))
              /\ (forall a, 447 <= a -> eeprom s' a = eeprom s a)).
    { intros s' Hf He. rewrite Hf, He, eeprom_loop_flash.
      split; [reflexivity|]. split; [exact Hcontent|]. split.
      - intros i Hi. rewrite Hcontent.
        replace ((eeprom_address s <=? eeprom_address s + i)
                 && (eeprom_address s + i <? eeprom_address s + frame_byte s LENGTHLOW))
          with true by (symmetry; apply andb_true_iff; split;
                        [apply Z.leb_le | apply Z.ltb_lt]; lia).
        replace (eeprom_address s + i - eeprom_address s) with i by lia.
        unfold payload, frame_byte, FRAMESIZE, PAGESIZE, SPM_PAGESIZE, DATAPAGESTART.
        replace ((0 <=? 7 + i) && (7 + i <? 64 + 7)) with false
          by (symmetry; apply andb_false_iff; right; apply Z.ltb_ge; lia).
        f_equal. lia.
      - intros a Ha. rewrite Hcontent.
        replace ((eeprom_address s <=? a)
                 && (a <? eeprom_address s + frame_byte s LENGTHLOW))
          with false by (symmetry; apply andb_false_iff; right; apply Z.ltb_ge;
                         Z.div_mod_to_equations; lia).
        reflexivity. }
    destruct (stored_entry s =? 0); apply Hall; reflexivity.
  - intros Hnz. rewrite Hd. apply Z.eqb_neq in Hnz. rewrite Hnz.
    eexists. reflexivity.
  - intros Hz. rewrite Hd. apply Z.eqb_eq in Hz. rewrite Hz.
    eexists. split; [reflexivity|]. apply frame_byte_cleared.
Qed.

Lemma eeprom_command_content_witness :
  eeprom_address (with_frame EEPROMCOMMAND 7 0 5 0x1234 blank) = 192.
Proof.
  rewrite (proj1 (eeprom_command_content (with_frame EEPROMCOMMAND 7 0 5 0x1234 blank)
                    eq_refl ltac:(vm_compute; split; [discriminate | reflexivity]))).
  reflexivity.
Defined.

(** * One frame, one command *)

Lemma frame_set_twice (i v1 v2 : Z) (s : mcu) :
  frame_set i v2 (frame_set i v1 s) = frame_set i v2 s.
Proof.
  unfold frame_set. proj. rewrite store_store. apply with_FrameData_twice.
Qed.

Lemma dispatch_idle (s : mcu) :
  frame_byte s COMMAND = NOCOMMAND ->
  dispatch s = Bootloader (frame_set COMMAND NOCOMMAND s).
Proof.
  intros H. unfold dispatch. rewrite H. reflexivity.
Qed.

(** X11.  A frame is carried out once.  Whenever a dispatch leaves
    control in the bootloader the command byte of the buffer has been
    cleared (line 678), and a dispatch of the buffer as it then stands
    changes nothing at all. *)
Theorem command_carried_out_once (s s' : mcu) :
  dispatch s = Bootloader s' ->
  frame_byte s' COMMAND = NOCOMMAND /\ dispatch s' = Bootloader s'.
Proof.
  assert (Hset : forall x,
            frame_byte (frame_set COMMAND NOCOMMAND x) COMMAND = NOCOMMAND
            /\ dispatch (frame_set COMMAND NOCOMMAND x)
               = Bootloader (frame_set COMMAND NOCOMMAND x)).
  { intros x. split; [apply frame_byte_cleared|].
    rewrite dispatch_idle by apply frame_byte_cleared.
    rewrite frame_set_twice. reflexivity. }
  revert s'. apply dispatch_cases.
  - intros _ s' H. injection H as <-. apply Hset.
  - intros _ s' H. rewrite runProgramm_eq in H. discriminate H.
  - intros _ s' H. rewrite eeprom_branch_eq in H.
    destruct (stored_entry _ =? 0); [|discriminate H].
    injection H as <-. apply Hset.
  - intros _ _ _ s' H. injection H as <-. apply Hset.
Qed.

Lemma command_carried_out_once_witness :
  dispatch (frame_set COMMAND NOCOMMAND (with_frame PROGCOMMAND 111 0 64 0 blank))
  = Bootloader (frame_set COMMAND NOCOMMAND (with_frame PROGCOMMAND 111 0 64 0 blank)).
Proof.
  apply (command_carried_out_once (with_frame PROGCOMMAND 111 0 64 0 blank)).
  rewrite dispatch_prog by reflexivity. reflexivity.
Defined.

(** * The entry slot and the page it lives in *)

Lemma dispatch_prog_below (s : mcu) :
  frame_byte s COMMAND = PROGCOMMAND -> prog_address s < BOOTLOADER_ADDRESS ->
  dispatch s =
  Bootloader
    (frame_set COMMAND NOCOMMAND
       (TOGGLELED (boot_program_page (prog_address s) (payload s) s))).
Proof.
  intros Hc Hlt. rewrite dispatch_prog by exact Hc.
  apply Z.ltb_lt in Hlt. rewrite Hlt. reflexivity.
Qed.

(** X12.  The test of line 640 guards the bootloader, not the slot of
    the entry pointer: the slot is the last word of the page right below
    [BOOTLOADER_ADDRESS], and a PROGCOMMAND for that page replaces the stored
    entry by the last word of its payload, while [start_appl_main] itself
    keeps its value. *)
Theorem prog_command_reaches_slot (s : mcu) :
  frame_byte s COMMAND = PROGCOMMAND ->
  prog_address s = BOOTLOADER_ADDRESS - SPM_PAGESIZE ->
  page_of_bytes (payload s) ->
  exists s', dispatch s = Bootloader s'
    /\ stored_entry s' = payload_word (payload s) (SPM_PAGESIZE - 2)
    /\ start_appl_main s' = start_appl_main s.
Proof.
  intros Hc Hp Hbuf.
  rewrite dispatch_prog_below by (rewrite ?Hp; assumption || reflexivity).
  eexists. split; [reflexivity|]. split.
  - unfold stored_entry. rewrite pgm_read_word_frame_set, pgm_read_word_TOGGLELED.
    rewrite Hp.
    change BOOTLOADER_FUNC_ADDRESS
      with (BOOTLOADER_ADDRESS - SPM_PAGESIZE + 2 * 31).
    rewrite boot_program_page_word;
      [| reflexivity | vm_compute; split; [discriminate | reflexivity] | lia].
    unfold patched_word.
    change ((BOOTLOADER_ADDRESS - SPM_PAGESIZE =? 0) && (2 * 31 =? 0)) with false.
    cbv iota. apply payload_word_u16; [exact Hbuf | unfold SPM_PAGESIZE; lia].
  - rewrite start_appl_main_frame_set, start_appl_main_TOGGLELED.
    rewrite boot_program_page_pointer, Hp. reflexivity.
Qed.

Lemma prog_command_reaches_slot_witness :
  exists s', dispatch (with_frame PROGCOMMAND 110 0 64 0x1234 blank) = Bootloader s'
    /\ stored_entry s' = 62 + 256 * 63.
Proof.
  destruct (prog_command_reaches_slot (with_frame PROGCOMMAND 110 0 64 0x1234 blank))
    as (s' & Hd & Hs & _).
  - reflexivity.
  - reflexivity.
  - apply payload_with_frame_bytes. lia.
  - exists s'. split; [exact Hd | exact Hs].
Defined.

(** * A line without a signal *)

Lemma wait_for_edge_level (fuel : nat) (p : Z) (s : mcu) :
  (forall i, now s <= i -> level s i = p) -> wait_for_edge fuel p s = None.
Proof.
  intros H. destruct (wait_for_edge fuel p s) as [s'|] eqn:E; [|reflexivity].
  destruct (wait_for_edge_spec _ _ _ _ E) as (e & He & _ & Hedge & _).
  exfalso. apply Hedge. apply H. lia.
Qed.

(** X13.  There is no time-out in the command loop.  While the level of
    the audio pin does not change, [receiveFrame] does not return, whatever
    bound is put on its busy waits; so a turn of the command loop, and the
    loop, only wait. *)
Theorem silent_line_waits (turns fuel : nat) (s : mcu) :
  (forall i, now s <= i -> level s i = level s (now s)) ->
  receiveFrame fuel s = None
  /\ command_step fuel s = Waiting
  /\ command_loop (S turns) fuel s = Waiting.
Proof.
  intros H.
  assert (Hr : receiveFrame fuel s = None).
  { unfold receiveFrame, synchronise. unfold PINVALUE at 1.
    fold (level s (now s)).
    rewrite wait_for_edge_level; [reflexivity|].
    intros i Hi. change (level (tick s) i) with (level s i).
    apply H. change (now (tick s)) with (now s + 1) in Hi. lia. }
  assert (Hs : command_step fuel s = Waiting).
  { unfold command_step. rewrite Hr. reflexivity. }
  split; [exact Hr|]. split; [exact Hs|].
  cbn [command_loop]. rewrite Hs. reflexivity.
Qed.

Lemma silent_line_waits_witness : command_loop 1 64 blank = Waiting.
Proof.
  apply (silent_line_waits 0 64 blank). intros i Hi. reflexivity.
Defined.

(** * The bit rate estimate *)

Lemma sync_loop_time (count : nat) :
  forall n fuel p time s p' time' s',
    sync_loop count n fuel p time s = Some (p', time', s') ->
    0 <= n -> n + Z.of_nat count <= 16 ->
    0 <= time <= 255 * Z.max 0 (n - 8) ->
    0 <= time' <= 255 * Z.max 0 (n + Z.of_nat count - 8).
Proof.
  induction count as [|count IH]; intros n fuel p time s p' time' s' H Hn Hc Ht.
  - cbn [sync_loop] in H. injection H as _ <- _.
    rewrite Nat2Z.inj_0, Z.add_0_r. exact Ht.
  - cbn [sync_loop] in H.
    destruct (wait_for_edge fuel p s) as [s1|] eqn:Hw; [|discriminate H].
    cbn [obind] in H. unfold read_TIMER, PINVALUE in H.
    apply IH in H.
    + replace (n + Z.of_nat (S count)) with (u16 (n + 1) + Z.of_nat count);
        [exact H|].
      rewrite u16_small by lia. lia.
    + pose proof (u16_range (n + 1)). lia.
    + rewrite u16_small by lia. lia.
    + rewrite (u16_small (n + 1)) by lia.
      pose proof (u8_range (TCNT0_in s1 (now s1) - TCNT0_in s1 (timer_zero s1))) as Hu.
      destruct (Z.geb_spec n 8) as [Hge|Hlt].
      * rewrite u16_small by lia. lia.
      * lia.
Qed.

(** X14.  The delay of three quarters of a bit fits the 8-bit timer.  The
    bit period is summed from the last 8 of the 16 measured edges, each an
    8-bit reading, so when synchronisation ends [delayTime] is at most 191:
    the comparison [TIMER < delayTime] of the delay loops can always become
    false. *)
Theorem synchronise_delay_bound (fuel : nat) (s : mcu) (d p c : Z) (s' : mcu) :
  synchronise fuel s = Some (d, p, c, s') -> 0 <= d <= 191.
Proof.
  unfold synchronise. unfold PINVALUE at 1. intros H.
  destruct (wait_for_edge fuel _ (tick s)) as [s2|] eqn:Hw; [|discriminate H].
  cbn [obind] in H. unfold PINVALUE at 1 in H.
  destruct (sync_loop 16 0 fuel _ 0 (clear_TIMER (tick s2)))
    as [[[p2 time] s5]|] eqn:Hs; [|discriminate H].
  cbn [obind] in H.
  destruct (delay fuel (u16 (time * 3) / 4 / 8) s5) as [s6|] eqn:Hd;
    [|discriminate H].
  cbn [obind] in H.
  destruct (wait_start fuel fuel (u16 (time * 3) / 4 / 8) p2 0 s6)
    as [[[p3 c3] s7]|] eqn:Hst; [|discriminate H].
  cbn [obind] in H. unfold PINVALUE in H. injection H as <- _ _ _.
  apply sync_loop_time in Hs; [| lia | cbn; lia | cbn; lia].
  change (0 + Z.of_nat 16 - 8) with 8 in Hs. change (Z.max 0 8) with 8 in Hs.
  rewrite u16_small by lia.
  Z.div_mod_to_equations. lia.
Qed.

Lemma listening_synchronises :
  option_map (fun r => fst (fst (fst r))) (synchronise 64 listening) = Some 23.
Proof. vm_compute. reflexivity. Qed.

Lemma synchronise_delay_bound_witness :
  exists d p c s', synchronise 64 listening = Some (d, p, c, s') /\ 0 <= d <= 191.
Proof.
  pose proof listening_synchronises as Hc.
  destruct (synchronise 64 listening) as [[[[d p] c] s']|] eqn:E;
    [|discriminate Hc].
  exists d, p, c, s'. split; [reflexivity|].
  exact (synchronise_delay_bound 64 listening d p c s' E).
Defined.

(** * The busy waits and their bound *)

Lemma wait_for_edge_within (fuel : nat) :
  forall p s s', wait_for_edge fuel p s = Some s' ->
    exists e, 0 <= e < Z.of_nat fuel
      /\ (forall i, 0 <= i < e -> level s (now s + i) = p)
      /\ level s (now s + e) <> p
      /\ s' = with_now (now s + e + 1) s.
Proof.
  induction fuel as [|fuel IH]; intros p s s' H; [discriminate H|].
  cbn [wait_for_edge] in H. unfold PINVALUE, tick in H.
  fold (level s (now s)) in H.
  destruct (Z.eqb_spec p (level s (now s))) as [E|E].
  - destruct (IH _ _ _ H) as (e & He & Hbefore & Hedge & ->).
    change (now (with_now (now s + 1) s)) with (now s + 1) in *.
    change (level (with_now (now s + 1) s)) with (level s) in *.
    exists (e + 1). split; [lia|]. split; [|split].
    + intros i Hi. destruct (Z.eq_dec i 0) as [->|Hne].
      * rewrite Z.add_0_r. symmetry. exact E.
      * replace (now s + i) with (now s + 1 + (i - 1)) by lia.
        apply Hbefore. lia.
    + replace (now s + (e + 1)) with (now s + 1 + e) by lia. exact Hedge.
    + rewrite with_now_twice. f_equal. lia.
  - injection H as <-. exists 0. split; [lia|]. split; [|split].
    + intros i Hi. lia.
    + rewrite Z.add_0_r. intros E'. apply E. symmetry. exact E'.
    + f_equal. lia.
Qed.

Lemma wait_for_edge_complete (fuel : nat) :
  forall p s e,
    0 <= e < Z.of_nat fuel ->
    (forall i, 0 <= i < e -> level s (now s + i) = p) ->
    level s (now s + e) <> p ->
    wait_for_edge fuel p s = Some (with_now (now s + e + 1) s).
Proof.
  induction fuel as [|fuel IH]; intros p s e He Hbefore Hedge; [lia|].
  cbn [wait_for_edge]. unfold PINVALUE, tick. fold (level s (now s)).
  destruct (Z.eqb_spec p (level s (now s))) as [E|E].
  - assert (e <> 0).
    { intros ->. apply Hedge. rewrite Z.add_0_r. symmetry. exact E. }
    rewrite (IH p (with_now (now s + 1) s) (e - 1)).
    + rewrite with_now_twice.
      change (now (with_now (now s + 1) s)) with (now s + 1).
      do 2 f_equal. lia.
    + lia.
    + intros i Hi. change (now (with_now (now s + 1) s)) with (now s + 1).
      change (level (with_now (now s + 1) s)) with (level s).
      replace (now s + 1 + i) with (now s + (i + 1)) by lia.
      apply Hbefore. lia.
    + change (now (with_now (now s + 1) s)) with (now s + 1).
      change (level (with_now (now s + 1) s)) with (level s).
      replace (now s + 1 + (e - 1)) with (now s + e) by lia. exact Hedge.
  - assert (e = 0).
    { destruct (Z.eq_dec e 0) as [E0|E0]; [exact E0|].
      exfalso. apply E. symmetry. rewrite <- (Z.add_0_r (now s)).
      apply Hbefore. lia. }
    subst e. do 2 f_equal. lia.
Qed.

(** X15.  The wait for an edge, [while (p == PINVALUE);], ends exactly
    when the pin is read at another level than [p]: it returns if and only
    if such a read comes within the bound put on it, and then right after
    the first such read, having changed nothing but the instant. *)
Theorem wait_for_edge_first_change (fuel : nat) (p : Z) (s s' : mcu) :
  wait_for_edge fuel p s = Some s' <->
  exists e, 0 <= e < Z.of_nat fuel
    /\ (forall i, 0 <= i < e -> level s (now s + i) = p)
    /\ level s (now s + e) <> p
    /\ s' = with_now (now s + e + 1) s.
Proof.
  split.
  - apply wait_for_edge_within.
  - intros (e & He & Hbefore & Hedge & ->).
    apply wait_for_edge_complete; assumption.
Qed.

(** * An upload from the first page to the start *)

Lemma same_page_slot (i : Z) :
  0 <= i < SPM_PAGESIZE -> same_page i BOOTLOADER_FUNC_ADDRESS = false.
Proof.
  intros Hi. unfold same_page, SPM_PAGESIZE in *.
  change BOOTLOADER_FUNC_ADDRESS with 7102.
  apply Z.eqb_neq. Z.div_mod_to_equations. lia.
Qed.

(** X17.  From the upload of page 0 to the start of the application.  A
    PROGCOMMAND frame for page 0 whose payload begins with [rjmp k] is
    dispatched, the next frame is received and is a RUNCOMMAND: then control
    goes to the word address [k + 1], the entry slot holds [k + 1] for the
    starts to come, the reset vector jumps to the bootloader, and the rest
    of page 0 holds the payload byte for byte. *)
Theorem upload_then_run (s s1 s2 : mcu) (k : Z) (fuel : nat) (ok : Z) :
  bytes (flash s) ->
  frame_byte s COMMAND = PROGCOMMAND -> prog_address s = 0 ->
  page_of_bytes (payload s) ->
  0 <= k < 4096 -> payload_word (payload s) 0 = rjmp k ->
  dispatch s = Bootloader s1 ->
  receiveFrame fuel s1 = Some (ok, s2) ->
  frame_byte s2 COMMAND = RUNCOMMAND ->
  exists s3, dispatch s2 = Application (k + 1) s3
    /\ stored_entry s3 = k + 1
    /\ vector_to_bootloader s3
    /\ (forall i, 2 <= i < SPM_PAGESIZE -> flash s3 i = payload s i).
Proof.
  intros Hb Hc Hp Hbuf Hk Hword Hd Hrecv Hrun.
  rewrite dispatch_prog_below in Hd
    by (assumption || (rewrite Hp; reflexivity)).
  injection Hd as <-.
  pose proof (receiveFrame_flash _ _ _ _ Hrecv) as Hf.
  pose proof (receiveFrame_pointer _ _ _ _ Hrecv) as Hptr.
  rewrite flash_frame_set, flash_TOGGLELED, Hp in Hf.
  rewrite start_appl_main_frame_set, start_appl_main_TOGGLELED in Hptr.
  rewrite boot_program_page_pointer, Hp in Hptr.
  change (0 =? 0) with true in Hptr. cbv iota in Hptr.
  rewrite payload_word_u16 in Hptr by (assumption || (unfold SPM_PAGESIZE; lia)).
  rewrite Hword, rjmp_target_rjmp in Hptr by exact Hk.
  assert (Hb2 : bytes (flash s2))
    by (rewrite Hf; apply boot_program_page_bytes; exact Hb).
  rewrite dispatch_run by exact Hrun. rewrite runProgramm_eq.
  eexists. split; [f_equal; exact Hptr|]. split; [|split].
  - rewrite runProgramm_stored; [exact Hptr | exact Hb2 | rewrite Hptr; lia].
  - unfold vector_to_bootloader, pgm_read_word.
    rewrite !flash_run by reflexivity. rewrite Hf.
    exact (boot_program_page_word 0 (payload s) s 0 eq_refl
             ltac:(lia) ltac:(lia)).
  - intros i Hi.
    rewrite flash_run by (apply same_page_slot; lia). rewrite Hf.
    exact (boot_program_page_byte 0 (payload s) s i eq_refl ltac:(lia) Hbuf
             ltac:(lia) (or_intror (proj1 Hi))).
Qed.

Lemma session_receives :
  option_map (fun r => FrameData (snd r)) (receiveFrame 64 (after (dispatch session)))
  = Some (frame_of RUNCOMMAND 0 0 0 0).
Proof. vm_compute. reflexivity. Qed.

Lemma upload_then_run_witness :
  exists s2 s3, dispatch s2 = Application 0x10 s3 /\ stored_entry s3 = 0x10.
Proof.
  pose proof session_receives as Hc.
  destruct (receiveFrame 64 (after (dispatch session))) as [[ok s2]|] eqn:E;
    [|discriminate Hc].
  cbn [option_map snd] in Hc. injection Hc as Hframe.
  destruct (upload_then_run session (after (dispatch session)) s2 0x0F 64 ok)
    as (s3 & Hd & Hs & _).
  - exact bytes_blank.
  - reflexivity.
  - reflexivity.
  - apply payload_with_frame_bytes. vm_compute. split; [discriminate | reflexivity].
  - lia.
  - reflexivity.
  - rewrite dispatch_prog by reflexivity. reflexivity.
  - exact E.
  - unfold frame_byte. rewrite Hframe. reflexivity.
  - exists s2, s3. split; [exact Hd | exact Hs].
Defined.

(** * The buffer before a reception *)

Lemma sync_loop_frame (count : nat) :
  forall n fuel p time l s,
    sync_loop count n fuel p time (with_FrameData l s) =
    option_map (fun r => (fst r, with_FrameData l (snd r)))
      (sync_loop count n fuel p time s).
Proof.
  induction count as [|count IH]; intros n fuel p time l s; [reflexivity|].
  cbn [sync_loop]. rewrite wait_for_edge_frame.
  destruct (wait_for_edge fuel p s) as [s1|]; [|reflexivity].
  cbn [option_map obind]. unfold read_TIMER, PINVALUE.
  apply (IH _ _ _ _ l (tick (clear_TIMER (tick s1)))).
Qed.

Lemma wait_start_frame (rounds : nat) :
  forall fuel d p c l s,
    wait_start rounds fuel d p c (with_FrameData l s) =
    option_map (fun r => (fst r, with_FrameData l (snd r)))
      (wait_start rounds fuel d p c s).
Proof.
  induction rounds as [|rounds IH]; intros fuel d p c l s; [reflexivity|].
  cbn [wait_start]. unfold PINVALUE at 1 3.
  change (PINB_in (with_FrameData l s) (now (with_FrameData l s)))
    with (PINB_in s (now s)).
  destruct (p =? Z.land (PINB_in s (now s)) INPUTAUDIOPIN); [|reflexivity].
  change (tick (with_FrameData l s)) with (with_FrameData l (tick s)).
  rewrite wait_for_edge_frame.
  destruct (wait_for_edge fuel p (tick s)) as [s2|]; [|reflexivity].
  cbn [option_map obind]. unfold PINVALUE.
  change (clear_TIMER (tick (with_FrameData l s2)))
    with (with_FrameData l (clear_TIMER (tick s2))).
  rewrite delay_frame.
  destruct (delay fuel d (clear_TIMER (tick s2))) as [s5|]; [|reflexivity].
  cbn [option_map obind].
  apply (IH _ _ _ _ l (clear_TIMER s5)).
Qed.

Lemma synchronise_frame (fuel : nat) (l : list Z) (s : mcu) :
  synchronise fuel (with_FrameData l s) =
  option_map (fun r => (fst r, with_FrameData l (snd r))) (synchronise fuel s).
Proof.
  unfold synchronise, PINVALUE. cbv beta iota.
  change (PINB_in (with_FrameData l s) (now (with_FrameData l s)))
    with (PINB_in s (now s)).
  change (tick (with_FrameData l s)) with (with_FrameData l (tick s)).
  rewrite wait_for_edge_frame.
  destruct (wait_for_edge fuel _ (tick s)) as [s2|]; [|reflexivity].
  cbn [option_map obind].
  change (PINB_in (with_FrameData l s2) (now (with_FrameData l s2)))
    with (PINB_in s2 (now s2)).
  change (clear_TIMER (tick (with_FrameData l s2)))
    with (with_FrameData l (clear_TIMER (tick s2))).
  rewrite sync_loop_frame.
  destruct (sync_loop 16 0 fuel _ 0 (clear_TIMER (tick s2)))
    as [[[p2 time] s5]|]; [|reflexivity].
  cbn [option_map obind fst snd]. rewrite delay_frame.
  destruct (delay fuel (u16 (time * 3) / 4 / 8) s5) as [s6|]; [|reflexivity].
  cbn [option_map obind]. rewrite wait_start_frame.
  destruct (wait_start fuel fuel (u16 (time * 3) / 4 / 8) p2 0 s6)
    as [[[p3 c3] s7]|]; reflexivity.
Qed.

Lemma length_pack_frame (cells : list (Z * Z)) :
  forall k dp l, length (pack_frame cells k dp l) = length l.
Proof.
  induction cells as [|x cells IH]; intros k dp l; cbn [pack_frame]; [reflexivity|].
  destruct (u8 (k - 1) =? 0); rewrite IH; apply length_store.
Qed.

Lemma receive_bits_of_samples (n : nat) :
  forall fuel d p k dp c l s cells q s',
    0 <= dp -> 1 <= k <= 8 ->
    8 * dp + (8 - k) + Z.of_nat n <= 8 * Z.of_nat (length l) ->
    (length l <= 71)%nat ->
    sample_cells n fuel d p s = Some (cells, q, s') ->
    exists r', receive_bits n fuel d (RX p k dp c (with_FrameData l s)) = Some r'
      /\ rx_mcu r' = with_FrameData (pack_frame cells k dp l) s'.
Proof.
  induction n as [|n IH]; intros fuel d p k dp c l s cells q s' Hdp Hk Hroom Hlen Hsam.
  - cbn [sample_cells] in Hsam. injection Hsam as <- <- <-.
    eexists. split; reflexivity.
  - cbn [sample_cells] in Hsam.
    cbn [receive_bits rx_p rx_k rx_dataPointer rx_counter rx_mcu].
    rewrite bit_cell_frame.
    destruct (bit_cell fuel d p s) as [[[p' t] s1]|]; [|discriminate Hsam].
    cbn [obind] in Hsam. cbn [option_map obind fst snd].
    destruct (sample_cells n fuel d t s1) as [[[cells' q'] s2]|] eqn:Hrest;
      [|discriminate Hsam].
    cbn [obind] in Hsam. injection Hsam as <- <- <-.
    rewrite shift_in_eq; proj; try lia.
    rewrite with_FrameData_twice.
    set (l1 := store (Z.to_nat dp) (shift_value (nth (Z.to_nat dp) l 0) (p', t)) l).
    assert (Hl1 : length l1 = length l) by apply length_store.
    assert (Hpack : pack_frame ((p', t) :: cells') k dp l =
              if u8 (k - 1) =? 0 then pack_frame cells' 8 (u8 (dp + 1)) l1
              else pack_frame cells' (u8 (k - 1)) dp l1) by reflexivity.
    rewrite Hpack.
    destruct (u8 (k - 1) =? 0) eqn:Hk1.
    + apply Z.eqb_eq in Hk1.
      assert (k = 1) by (unfold u8 in Hk1; Z.div_mod_to_equations; lia). subst k.
      assert (Hu : u8 (dp + 1) = dp + 1) by (apply u8_small; lia).
      apply (IH fuel d t 8 (u8 (dp + 1)) (u16 (c + 1)) l1 s1 cells' q' s2);
        [rewrite Hu; lia | lia | rewrite Hu, Hl1; lia | rewrite Hl1; lia
        | exact Hrest].
    + apply Z.eqb_neq in Hk1.
      assert (Hu : u8 (k - 1) = k - 1) by (apply u8_small; lia).
      assert (2 <= k) by (rewrite Hu in Hk1; lia).
      apply (IH fuel d t (u8 (k - 1)) dp (u16 (c + 1)) l1 s1 cells' q' s2);
        [lia | rewrite Hu; lia | rewrite Hu, Hl1; lia | rewrite Hl1; lia
        | exact Hrest].
Qed.

Lemma pack_frame_whole (cells : list (Z * Z)) (l1 l2 : list Z) :
  length cells = (8 * 71)%nat -> length l1 = 71%nat -> length l2 = 71%nat ->
  pack_frame cells 8 0 l1 = pack_frame cells 8 0 l2.
Proof.
  intros Hc H1 H2. apply (nth_ext _ _ 0 0).
  - rewrite !length_pack_frame. lia.
  - intros j Hj. rewrite length_pack_frame, H1 in Hj.
    assert (H : forall l, length l = 71%nat ->
              nth j (pack_frame cells 8 (Z.of_nat 0) l) 0 =
              byte_msb_first (byte_cells cells (j - 0))).
    { intros l Hl. rewrite (pack_frame_bytes 71) by lia.
      replace ((0 <=? j)%nat && (j <? 0 + 71)%nat) with true; [reflexivity|].
      symmetry. apply andb_true_iff.
      split; [apply Nat.leb_le | apply Nat.ltb_lt]; lia. }
    exact (eq_trans (H l1 H1) (eq_sym (H l2 H2))).
Qed.

(** X18.  A reception overwrites the whole buffer.  Each of the 71 bytes
    is shifted left eight times, so nothing of what [FrameData] held before
    is left: [receiveFrame] returns the same frame, at the same instant,
    whatever the buffer held when it was called. *)
Theorem receiveFrame_overwrites (fuel : nat) (s : mcu) (l : list Z) (r : Z * mcu) :
  length (FrameData s) = Z.to_nat FRAMESIZE ->
  length l = Z.to_nat FRAMESIZE ->
  receiveFrame fuel s = Some r ->
  receiveFrame fuel (with_FrameData l s) = Some r.
Proof.
  intros Hlen Hl H. destruct r as [ok s'].
  destruct (receiveFrame_inv _ _ _ _ H) as (-> & d & p & c & s1 & r & Hs & Hr & ->).
  pose proof (synchronise_FrameData _ _ _ _ _ _ Hs) as Hf.
  rewrite <- (with_FrameData_same s1) in Hr.
  assert (H71 : Z.to_nat FRAMESIZE = 71%nat) by reflexivity.
  assert (H568 : Z.to_nat (FRAMESIZE * 8) = (8 * 71)%nat) by reflexivity.
  unfold receiveFrame. rewrite synchronise_frame, Hs.
  cbn [option_map obind fst snd].
  rewrite H71 in *. rewrite H568 in *.
  destruct (receive_bits_samples (8 * 71) fuel d p 8 0 c (FrameData s1) s1 r)
    as (cells & q & s2 & Hsam & Hcl & _ & Hm);
    [lia | lia | rewrite Hf, Hlen; lia | rewrite Hf, Hlen; lia | exact Hr |].
  destruct (receive_bits_of_samples (8 * 71) fuel d p 8 0 c l s1 cells q s2)
    as (r2 & Hr2 & Hm2);
    [lia | lia | rewrite Hl; lia | rewrite Hl; lia | exact Hsam |].
  rewrite Hr2. cbn [obind]. rewrite Hm, Hm2.
  rewrite (pack_frame_whole cells l (FrameData s1));
    [reflexivity | exact Hcl | exact Hl | rewrite Hf; exact Hlen].
Qed.

Lemma receiveFrame_overwrites_witness :
  exists r, receiveFrame 64 (with_FrameData (repeat 255 71) listening) = Some r
    /\ FrameData (snd r) = frame_of PROGCOMMAND 1 0 64 0x1234.
Proof.
  pose proof listening_receives as Hc.
  destruct (receiveFrame 64 listening) as [r|] eqn:E; [|discriminate Hc].
  cbn [option_map] in Hc. injection Hc as Hframe.
  exists r. split; [|exact Hframe].
  apply (receiveFrame_overwrites 64 listening (repeat 255 71) r);
    [reflexivity | reflexivity | exact E].
Defined.

(** * What a PROGCOMMAND does *)

Lemma frame_byte_programmed (page : Z) (buf : Z -> Z) (s : mcu) (i : Z) :
  frame_byte (TOGGLELED (boot_program_page page buf s)) i = frame_byte s i.
Proof.
  unfold frame_byte, TOGGLELED. rewrite boot_program_page_frame.
  generalize (flash (boot_program_page page buf s)).
  generalize (start_appl_main (boot_program_page page buf s)).
  intros q f. reflexivity.
Qed.

Lemma PORTB_programmed (page : Z) (buf : Z -> Z) (s : mcu) :
  PORTB (TOGGLELED (boot_program_page page buf s)) = Z.lxor (PORTB s) LEDPORT.
Proof.
  unfold TOGGLELED. rewrite boot_program_page_frame.
  generalize (flash (boot_program_page page buf s)).
  generalize (start_appl_main (boot_program_page page buf s)).
  intros q f. reflexivity.
Qed.

Lemma eeprom_programmed (page : Z) (buf : Z -> Z) (s : mcu) :
  eeprom (TOGGLELED (boot_program_page page buf s)) = eeprom s.
Proof.
  unfold TOGGLELED. rewrite boot_program_page_frame.
  generalize (flash (boot_program_page page buf s)).
  generalize (start_appl_main (boot_program_page page buf s)).
  intros q f. reflexivity.
Qed.

Lemma eeprom_frame_set (i v : Z) (s : mcu) : eeprom (frame_set i v s) = eeprom s.
Proof. reflexivity. Qed.

Lemma PORTB_frame_set (i v : Z) (s : mcu) : PORTB (frame_set i v s) = PORTB s.
Proof. reflexivity. Qed.

(** X19.  What a PROGCOMMAND for a page below the bootloader does: the 64
    payload bytes of the frame are in the page it names, byte for byte (but
    for the reset vector in the first word of page 0); every other page and
    the EEPROM are what they were; the LED has toggled; and of the frame
    buffer only the command byte, now cleared, has changed. *)
Theorem prog_command_programs (s : mcu) :
  frame_byte s COMMAND = PROGCOMMAND ->
  prog_address s < BOOTLOADER_ADDRESS ->
  page_of_bytes (payload s) ->
  exists s', dispatch s = Bootloader s'
    /\ (forall i, 0 <= i < SPM_PAGESIZE -> prog_address s <> 0 \/ 2 <= i ->
          flash s' (prog_address s + i) = payload s i)
    /\ (forall a, same_page a (prog_address s) = false -> flash s' a = flash s a)
    /\ eeprom s' = eeprom s
    /\ PORTB s' = Z.lxor (PORTB s) LEDPORT
    /\ frame_byte s' COMMAND = NOCOMMAND
    /\ (forall i, 0 < i -> frame_byte s' i = frame_byte s i).
Proof.
  intros Hc Hlt Hbuf.
  destruct (prog_address_aligned s) as [Hal Hrange].
  rewrite dispatch_prog_below by assumption.
  eexists. split; [reflexivity|].
  split; [|split; [|split; [|split; [|split]]]].
  - intros i Hi Hnot. rewrite flash_frame_set, flash_TOGGLELED.
    apply boot_program_page_byte; assumption.
  - intros a Ha. rewrite flash_frame_set, flash_TOGGLELED.
    apply boot_program_page_other_pages. exact Ha.
  - rewrite eeprom_frame_set. apply eeprom_programmed.
  - rewrite PORTB_frame_set. apply PORTB_programmed.
  - apply frame_byte_cleared.
  - intros i Hi.
    rewrite frame_byte_frame_set_other by (unfold COMMAND; lia).
    apply frame_byte_programmed.
Qed.

Lemma prog_command_programs_witness :
  exists s', dispatch (with_frame PROGCOMMAND 1 0 64 0x1234 blank) = Bootloader s'
    /\ flash s' (64 + 5) = 5 /\ PORTB s' = 2.
Proof.
  destruct (prog_command_programs (with_frame PROGCOMMAND 1 0 64 0x1234 blank))
    as (s' & Hd & Hbytes & _ & _ & Hled & _).
  - reflexivity.
  - reflexivity.
  - apply payload_with_frame_bytes. lia.
  - exists s'. split; [exact Hd|]. split; [|exact Hled].
    apply (Hbytes 5); [unfold SPM_PAGESIZE; lia | left; discriminate].
Defined.

(** * A merge of nothing *)

Lemma pgm_write_block_no_word (fa : Z) (b1 b2 : Z -> Z) (s : mcu) :
  pgm_write_block fa b1 0 s = pgm_write_block fa b2 0 s.
Proof.
  rewrite !pgm_write_block_unfold.
  generalize (u16 (page_start fa)). intros start.
  assert (Hloop : forall n idx t st,
            pgm_write_block_loop n idx start fa b1 t 0 st =
            pgm_write_block_loop n idx start fa b2 t 0 st).
  { induction n as [|n IH]; intros idx t st; [reflexivity|].
    cbn [pgm_write_block_loop].
    change (0 >? 0) with false. rewrite andb_false_r. apply IH. }
  rewrite Hloop. reflexivity.
Qed.

(** X20.  A merge of size 0 writes the page back as it read it: the page
    is erased and programmed again from its own words, so program memory
    after [pgm_write_block] is byte for byte what it was, whatever block is
    passed. *)
Theorem pgm_write_block_nothing (fa : Z) (block : Z -> Z) (s : mcu) (a : Z) :
  0 <= fa < 65536 -> bytes (flash s) ->
  flash (pgm_write_block fa block 0 s) a = flash s a.
Proof.
  intros Hfa Hb.
  rewrite (pgm_write_block_no_word fa block (fun _ => 0)).
  apply pgm_write_block_outside;
    first [assumption | reflexivity | lia | intros i; lia].
Qed.

Lemma pgm_write_block_nothing_witness :
  flash (pgm_write_block BOOTLOADER_FUNC_ADDRESS (fun _ => 0x10) 0 blank)
    BOOTLOADER_FUNC_ADDRESS = 255.
Proof.
  apply (pgm_write_block_nothing BOOTLOADER_FUNC_ADDRESS (fun _ => 0x10) blank).
  - vm_compute. split; [discriminate | reflexivity].
  - exact bytes_blank.
Defined.

(** * The line code, from the line to the frame and back *)

(** ** The two busy waits *)

Lemma wait_for_edge_on (fuel : nat) (p : Z) (s s' : mcu) :
  wait_for_edge fuel p s = Some s' ->
  exists e, first_change (level s) p (now s) e /\ s' = with_now (now s + e + 1) s.
Proof.
  intros H. destruct (wait_for_edge_spec _ _ _ _ H) as (e & He & Hb & Hc & ->).
  exists e. repeat split; assumption.
Qed.

Lemma wait_for_edge_ends (fuel : nat) (p : Z) (s : mcu) (e : Z) :
  first_change (level s) p (now s) e -> (Z.to_nat e < fuel)%nat ->
  wait_for_edge fuel p s = Some (with_now (now s + e + 1) s).
Proof.
  intros (He & Hb & Hc) Hf. apply wait_for_edge_complete; [lia | exact Hb | exact Hc].
Qed.

Lemma delay_on (fuel : nat) (d : Z) (s s' : mcu) :
  delay fuel d s = Some s' ->
  exists m, first_reach (timer_since s) d (timer_zero s) (now s) m
            /\ s' = with_now (now s + m + 1) s.
Proof.
  intros H. destruct (delay_spec _ _ _ _ H) as (m & Hm & Hb & Hc & ->).
  exists m. repeat split; assumption.
Qed.

Lemma delay_complete (fuel : nat) :
  forall d s m,
    0 <= m < Z.of_nat fuel ->
    (forall i, 0 <= i < m -> timer_since s (timer_zero s) (now s + i) < d) ->
    d <= timer_since s (timer_zero s) (now s + m) ->
    delay fuel d s = Some (with_now (now s + m + 1) s).
Proof.
  induction fuel as [|fuel IH]; intros d s m Hm Hbefore Hend; [lia|].
  cbn [delay]. unfold read_TIMER, tick.
  fold (timer_since s (timer_zero s) (now s)).
  destruct (Z.ltb_spec (timer_since s (timer_zero s) (now s)) d) as [E|E].
  - assert (m <> 0).
    { intros ->. rewrite Z.add_0_r in Hend. lia. }
    rewrite (IH d (with_now (now s + 1) s) (m - 1)).
    + rewrite with_now_twice.
      change (now (with_now (now s + 1) s)) with (now s + 1).
      do 2 f_equal. lia.
    + lia.
    + intros i Hi. change (now (with_now (now s + 1) s)) with (now s + 1).
      change (timer_zero (with_now (now s + 1) s)) with (timer_zero s).
      change (timer_since (with_now (now s + 1) s)) with (timer_since s).
      replace (now s + 1 + i) with (now s + (i + 1)) by lia.
      apply Hbefore. lia.
    + change (now (with_now (now s + 1) s)) with (now s + 1).
      change (timer_zero (with_now (now s + 1) s)) with (timer_zero s).
      change (timer_since (with_now (now s + 1) s)) with (timer_since s).
      replace (now s + 1 + (m - 1)) with (now s + m) by lia. exact Hend.
  - assert (m = 0).
    { destruct (Z.eq_dec m 0) as [E0|E0]; [exact E0|].
      exfalso. specialize (Hbefore 0 ltac:(lia)).
      rewrite Z.add_0_r in Hbefore. lia. }
    subst m. do 2 f_equal. lia.
Qed.

Lemma delay_ends (fuel : nat) (d : Z) (s : mcu) (m : Z) :
  first_reach (timer_since s) d (timer_zero s) (now s) m -> (Z.to_nat m < fuel)%nat ->
  delay fuel d s = Some (with_now (now s + m + 1) s).
Proof.
  intros (Hm & Hb & Hc) Hf. apply delay_complete; [lia | exact Hb | exact Hc].
Qed.

(** The machine at instant [n] with the timer cleared at [z]. *)
Lemma at_twice (n1 z1 n2 z2 : Z) (s : mcu) :
  with_now n2 (with_timer_zero z2 (with_now n1 (with_timer_zero z1 s))) =
  with_now n2 (with_timer_zero z2 s).
Proof. reflexivity. Qed.

Lemma at_same (s : mcu) : with_now (now s) (with_timer_zero (timer_zero s) s) = s.
Proof. destruct s. reflexivity. Qed.

(** ** One bit cell *)

Lemma bit_cell_ends (fuel : nat) (d p : Z) (s : mcu) (e m : Z) :
  first_change (level s) p (now s) e ->
  first_reach (timer_since s) d (now s + e + 1) (now s + e + 2) m ->
  (Z.to_nat e < fuel)%nat -> (Z.to_nat m < fuel)%nat ->
  bit_cell fuel d p s =
  Some (level s (now s + e + 1), level s (now s + e + m + 3),
        with_now (now s + e + m + 4) (with_timer_zero (now s + e + 1) s)).
Proof.
  intros He Hm Hfe Hfm. unfold bit_cell.
  rewrite (wait_for_edge_ends fuel p s e He Hfe). cbn [obind].
  unfold clear_TIMER, PINVALUE. cbv beta iota.
  rewrite (delay_ends fuel d _ m).
  - cbn [obind]. unfold tick, level. proj. do 2 f_equal.
    + f_equal. f_equal. f_equal. lia.
    + unfold with_now, with_timer_zero. proj. f_equal. lia.
  - unfold tick. proj.
    destruct Hm as (Hm0 & Hb & Hc). split; [exact Hm0|]. split.
    + intros i Hi. replace (now s + e + 1 + 1 + i) with (now s + e + 2 + i) by lia.
      apply Hb. exact Hi.
    + replace (now s + e + 1 + 1 + m) with (now s + e + 2 + m) by lia. exact Hc.
  - exact Hfm.
Qed.

Lemma bit_cell_on (fuel : nat) (d p : Z) (s : mcu) (p' t : Z) (s' : mcu) :
  bit_cell fuel d p s = Some (p', t, s') ->
  exists e m,
    first_change (level s) p (now s) e
    /\ first_reach (timer_since s) d (now s + e + 1) (now s + e + 2) m
    /\ p' = level s (now s + e + 1) /\ t = level s (now s + e + m + 3)
    /\ s' = with_now (now s + e + m + 4) (with_timer_zero (now s + e + 1) s).
Proof.
  intros H.
  destruct (bit_cell_spec _ _ _ _ _ _ _ H)
    as (e & m & He & Hm & Hbefore & Hedge & Hp & Htimer & Hend & Ht & Hs).
  exists e, m. repeat split; assumption.
Qed.

(** ** The cells of the data loop *)

Lemma sample_cells_on (count : nat) :
  forall fuel d p s cells q s',
    sample_cells count fuel d p s = Some (cells, q, s') ->
    cells_on (level s) (timer_since s) d p (now s) (timer_zero s) cells
      q (now s') (timer_zero s')
    /\ length cells = count
    /\ s' = with_now (now s') (with_timer_zero (timer_zero s') s).
Proof.
  induction count as [|count IH]; intros fuel d p s cells q s' H.
  - cbn [sample_cells] in H. injection H as <- <- <-.
    split; [constructor|]. split; [reflexivity|]. symmetry. apply at_same.
  - cbn [sample_cells] in H.
    destruct (bit_cell fuel d p s) as [[[p' t] s1]|] eqn:Hb; [|discriminate H].
    cbn [obind] in H.
    destruct (sample_cells count fuel d t s1) as [[[cells' q'] s2]|] eqn:Hs;
      [|discriminate H].
    cbn [obind] in H. injection H as <- <- <-.
    destruct (bit_cell_on _ _ _ _ _ _ _ Hb) as (e & m & He & Hm & -> & -> & ->).
    destruct (IH _ _ _ _ _ _ _ Hs) as (Hc & Hl & Hs2).
    split; [|split].
    + apply (cells_on_cons _ _ _ _ _ _ e m); assumption.
    + cbn [length]. rewrite Hl. reflexivity.
    + rewrite Hs2 at 1. apply at_twice.
Qed.

Lemma sample_cells_ends (cells : list (Z * Z)) :
  forall d p s q n' z',
    cells_on (level s) (timer_since s) d p (now s) (timer_zero s) cells q n' z' ->
    exists fuel0, forall fuel, (fuel0 <= fuel)%nat ->
      sample_cells (length cells) fuel d p s =
      Some (cells, q, with_now n' (with_timer_zero z' s)).
Proof.
  induction cells as [|c cells IH]; intros d p s q n' z' H.
  - inversion H; subst. exists O. intros fuel _. cbn [sample_cells length].
    rewrite at_same. reflexivity.
  - inversion H as [|p0 n0 z0 e m cells0 q0 n0' z0' He Hm Hrest]; subst.
    destruct (IH d _ (with_now (now s + e + m + 4) (with_timer_zero (now s + e + 1) s))
                 q n' z' Hrest) as [fuel1 Hfuel1].
    exists (Nat.max fuel1 (S (Nat.max (Z.to_nat e) (Z.to_nat m)))).
    intros fuel Hfuel. cbn [sample_cells length].
    rewrite (bit_cell_ends fuel d p s e m He Hm) by lia.
    cbn [obind]. rewrite Hfuel1 by lia. cbn [obind]. reflexivity.
Qed.

Lemma cells_on_one (lvl : Z -> Z) (tmr : Z -> Z -> Z) (d : Z) :
  forall p n z cells1 q1 n1 z1,
    cells_on lvl tmr d p n z cells1 q1 n1 z1 ->
    forall cells2 q2 n2 z2,
      cells_on lvl tmr d p n z cells2 q2 n2 z2 ->
      length cells1 = length cells2 ->
      cells1 = cells2 /\ q1 = q2 /\ n1 = n2 /\ z1 = z2.
Proof.
  intros p n z cells1 q1 n1 z1 H1.
  induction H1 as [p n z | p n z e m cells q n' z' He Hm Hrest IH];
    intros cells2 q2 n2 z2 H2 Hlen.
  - inversion H2; subst; [repeat split | discriminate Hlen].
  - inversion H2 as [|p0 n0 z0 e2 m2 cells0 q0 n0' z0' He2 Hm2 Hrest2]; subst;
      [discriminate Hlen|].
    assert (e2 = e).
    { destruct He as (He0 & Hb & Hc), He2 as (He20 & Hb2 & Hc2).
      destruct (Z.lt_trichotomy e e2) as [Hlt | [Heq | Hgt]];
        [| symmetry; exact Heq |].
      - exfalso. apply Hc. apply Hb2. lia.
      - exfalso. apply Hc2. apply Hb. lia. }
    subst e2.
    assert (m2 = m).
    { destruct Hm as (Hm0 & Hb & Hc), Hm2 as (Hm20 & Hb2 & Hc2).
      destruct (Z.lt_trichotomy m m2) as [Hlt | [Heq | Hgt]];
        [| symmetry; exact Heq |].
      - exfalso. specialize (Hb2 m ltac:(lia)). lia.
      - exfalso. specialize (Hb m2 ltac:(lia)). lia. }
    subst m2.
    destruct (IH _ _ _ _ Hrest2) as (-> & -> & -> & ->).
    + cbn [length] in Hlen. lia.
    + repeat split.
Qed.

(** ** The measured edges *)

Lemma sync_loop_edge (count : nat) (idx : Z) (fuel : nat) (p time : Z) (s : mcu)
    (e : Z) :
  wait_for_edge fuel p s = Some (with_now (now s + e + 1) s) ->
  sync_loop (S count) idx fuel p time s =
  sync_loop count (u16 (idx + 1)) fuel (level s (now s + e + 2))
    (if idx >=? 8 then u16 (time + timer_since s (timer_zero s) (now s + e + 1))
     else time)
    (with_now (now s + e + 3) (with_timer_zero (now s + e + 2) s)).
Proof.
  intros Hw. cbn [sync_loop]. rewrite Hw. cbn [obind].
  unfold read_TIMER, clear_TIMER, PINVALUE, tick. cbv beta iota. proj.
  f_equal.
  - unfold level. do 2 f_equal. lia.
  - unfold with_now, with_timer_zero. proj. f_equal; lia.
Qed.

Lemma sync_loop_on (count : nat) :
  forall idx fuel p time s p' time' s',
    sync_loop count idx fuel p time s = Some (p', time', s') ->
    edges_on (level s) (timer_since s) count idx p time (now s) (timer_zero s)
      p' time' (now s') (timer_zero s')
    /\ s' = with_now (now s') (with_timer_zero (timer_zero s') s).
Proof.
  induction count as [|count IH]; intros idx fuel p time s p' time' s' H.
  - cbn [sync_loop] in H. injection H as <- <- <-.
    split; [constructor | symmetry; apply at_same].
  - destruct (wait_for_edge fuel p s) as [s1|] eqn:Hw.
    + destruct (wait_for_edge_on _ _ _ _ Hw) as (e & He & ->).
      rewrite (sync_loop_edge _ _ _ _ _ _ e Hw) in H.
      destruct (IH _ _ _ _ _ _ _ _ H) as (Hrest & Hs').
      split.
      * apply (edges_on_cons _ _ _ _ _ _ _ _ e); assumption.
      * rewrite Hs' at 1. apply at_twice.
    + cbn [sync_loop] in H. rewrite Hw in H. discriminate H.
Qed.

Lemma sync_loop_ends (count : nat) :
  forall idx p time s p' time' n' z',
    edges_on (level s) (timer_since s) count idx p time (now s) (timer_zero s)
      p' time' n' z' ->
    exists fuel0, forall fuel, (fuel0 <= fuel)%nat ->
      sync_loop count idx fuel p time s =
      Some (p', time', with_now n' (with_timer_zero z' s)).
Proof.
  induction count as [|count IH]; intros idx p time s p' time' n' z' H.
  - inversion H; subst. exists O. intros fuel _. cbn [sync_loop].
    rewrite at_same. reflexivity.
  - inversion H as [|count0 idx0 p0 time0 n0 z0 e p0' time0' n0' z0' He Hrest];
      subst.
    destruct (IH _ _ _ (with_now (now s + e + 3) (with_timer_zero (now s + e + 2) s))
                 _ _ _ _ Hrest) as [fuel1 Hfuel1].
    exists (Nat.max fuel1 (S (Z.to_nat e))). intros fuel Hfuel.
    rewrite (sync_loop_edge _ _ _ _ _ _ e)
      by (apply wait_for_edge_ends; [exact He | lia]).
    rewrite Hfuel1 by lia. reflexivity.
Qed.

(** ** The start bit *)

Lemma wait_start_found (rounds fuel : nat) (d p c : Z) (s : mcu) :
  level s (now s) <> p ->
  wait_start (S rounds) fuel d p c s = Some (p, c, with_now (now s + 1) s).
Proof.
  intros H. cbn [wait_start]. unfold PINVALUE. cbv beta iota.
  fold (level s (now s)).
  destruct (Z.eqb_spec p (level s (now s))) as [E|E]; [|reflexivity].
  exfalso. apply H. symmetry. exact E.
Qed.

Lemma wait_start_round (rounds fuel : nat) (d p c : Z) (s : mcu) (e m : Z) :
  level s (now s) = p ->
  wait_for_edge fuel p (with_now (now s + 1) s) = Some (with_now (now s + e + 2) s) ->
  delay fuel d (with_now (now s + e + 3) (with_timer_zero (now s + e + 3) s))
  = Some (with_now (now s + e + m + 4) (with_timer_zero (now s + e + 3) s)) ->
  wait_start (S rounds) fuel d p c s =
  wait_start rounds fuel d (level s (now s + e + 2)) (u16 (c + 1))
    (with_now (now s + e + m + 4) (with_timer_zero (now s + e + m + 4) s)).
Proof.
  intros Hp Hw Hd. cbn [wait_start]. unfold PINVALUE at 1. cbv beta iota.
  fold (level s (now s)). rewrite Hp, Z.eqb_refl.
  unfold tick at 1. rewrite Hw. cbn [obind].
  unfold PINVALUE. cbv beta iota.
  replace (clear_TIMER (tick (with_now (now s + e + 2) s)))
    with (with_now (now s + e + 3) (with_timer_zero (now s + e + 3) s))
    by (unfold clear_TIMER, tick, with_now, with_timer_zero; proj; f_equal; lia).
  rewrite Hd. cbn [obind]. reflexivity.
Qed.

Lemma wait_start_on (rounds : nat) :
  forall fuel d p c s p' c' s',
    wait_start rounds fuel d p c s = Some (p', c', s') ->
    start_on (level s) (timer_since s) d p c (now s) (timer_zero s)
      p' c' (now s') (timer_zero s')
    /\ s' = with_now (now s') (with_timer_zero (timer_zero s') s).
Proof.
  induction rounds as [|rounds IH]; intros fuel d p c s p' c' s' H;
    [discriminate H|].
  destruct (Z.eq_dec (level s (now s)) p) as [Hp|Hp].
  - assert (Hcopy := H). cbn [wait_start] in Hcopy.
    unfold PINVALUE at 1 in Hcopy. cbv beta iota in Hcopy.
    fold (level s (now s)) in Hcopy. rewrite Hp, Z.eqb_refl in Hcopy.
    destruct (wait_for_edge fuel p (tick s)) as [s2|] eqn:Hw; [|discriminate Hcopy].
    destruct (wait_for_edge_on _ _ _ _ Hw) as (e & He & Hs2).
    cbn [obind] in Hcopy. unfold PINVALUE in Hcopy. cbv beta iota in Hcopy.
    destruct (delay fuel d (clear_TIMER (tick s2))) as [s5|] eqn:Hd;
      [|discriminate Hcopy].
    destruct (delay_on _ _ _ _ Hd) as (m & Hm & Hs5).
    clear Hcopy.
    change (now (tick s)) with (now s + 1) in *.
    change (level (tick s)) with (level s) in *.
    assert (Hs2' : s2 = with_now (now s + e + 2) s).
    { rewrite Hs2. unfold tick, with_now. proj. f_equal. lia. }
    clear Hs2. subst s2.
    assert (Hc : clear_TIMER (tick (with_now (now s + e + 2) s)) =
                 with_now (now s + e + 3) (with_timer_zero (now s + e + 3) s)).
    { unfold clear_TIMER, tick, with_now, with_timer_zero. proj. f_equal; lia. }
    rewrite Hc in *.
    change (now (with_now (now s + e + 3) (with_timer_zero (now s + e + 3) s)))
      with (now s + e + 3) in *.
    change (timer_zero (with_now (now s + e + 3) (with_timer_zero (now s + e + 3) s)))
      with (now s + e + 3) in *.
    change (timer_since (with_now (now s + e + 3) (with_timer_zero (now s + e + 3) s)))
      with (timer_since s) in *.
    assert (Hs5' : s5 = with_now (now s + e + m + 4)
                          (with_timer_zero (now s + e + 3) s)).
    { rewrite Hs5. unfold with_now, with_timer_zero. proj. f_equal. lia. }
    clear Hs5. subst s5.
    rewrite (wait_start_round rounds fuel d p c s e m Hp Hw Hd) in H.
    destruct (IH _ _ _ _ _ _ _ _ H) as (Hrest & Hs').
    split.
    + apply (start_on_wait _ _ _ _ _ _ _ e m); assumption.
    + rewrite Hs' at 1. apply at_twice.
  - rewrite wait_start_found in H by exact Hp. injection H as <- <- <-.
    split; [apply start_on_found; exact Hp|].
    destruct s. reflexivity.
Qed.

Lemma wait_start_ends_at (lvl : Z -> Z) (tmr : Z -> Z -> Z) (d : Z) :
  forall p c n z p' c' n' z',
    start_on lvl tmr d p c n z p' c' n' z' ->
    forall s, lvl = level s -> tmr = timer_since s -> n = now s -> z = timer_zero s ->
      exists fuel0, forall rounds fuel, (fuel0 <= rounds)%nat -> (fuel0 <= fuel)%nat ->
        wait_start rounds fuel d p c s =
        Some (p', c', with_now n' (with_timer_zero z' s)).
Proof.
  intros p c n z p' c' n' z' H.
  induction H as [p c n z Hp | p c n z e m p' c' n' z' Hp He Hm Hrest IH];
    intros s -> -> -> ->.
  - exists 1%nat. intros rounds fuel Hr _.
    destruct rounds as [|rounds]; [lia|].
    rewrite wait_start_found by exact Hp. reflexivity.
  - destruct (IH (with_now (now s + e + m + 4)
                    (with_timer_zero (now s + e + m + 4) s))
                eq_refl eq_refl eq_refl eq_refl) as [fuel1 Hfuel1].
    exists (S (Nat.max fuel1 (Nat.max (Z.to_nat e) (Z.to_nat m)))).
    intros rounds fuel Hr Hf.
    destruct rounds as [|rounds]; [lia|].
    rewrite (wait_start_round rounds fuel d p c s e m Hp).
    + rewrite Hfuel1 by lia. reflexivity.
    + rewrite (wait_for_edge_ends fuel p (with_now (now s + 1) s) e) by (exact He || lia).
      f_equal. unfold with_now. proj. f_equal. lia.
    + rewrite (delay_ends fuel d
                 (with_now (now s + e + 3) (with_timer_zero (now s + e + 3) s)) m)
        by (exact Hm || lia).
      f_equal. unfold with_now, with_timer_zero. proj. f_equal. lia.
Qed.

Lemma wait_start_ends (d p c : Z) (s : mcu) (p' c' n' z' : Z) :
  start_on (level s) (timer_since s) d p c (now s) (timer_zero s) p' c' n' z' ->
  exists fuel0, forall rounds fuel, (fuel0 <= rounds)%nat -> (fuel0 <= fuel)%nat ->
    wait_start rounds fuel d p c s = Some (p', c', with_now n' (with_timer_zero z' s)).
Proof.
  intros H.
  exact (wait_start_ends_at _ _ _ _ _ _ _ _ _ _ _ H s eq_refl eq_refl eq_refl eq_refl).
Qed.

(** ** The synchronisation *)

Lemma synchronise_edge (fuel : nat) (s : mcu) (e0 : Z) :
  wait_for_edge fuel (level s (now s)) (with_now (now s + 1) s)
  = Some (with_now (now s + e0 + 2) s) ->
  synchronise fuel s =
  ('(p2, time, s5) <-
     sync_loop 16 0 fuel (level s (now s + e0 + 2)) 0
       (with_now (now s + e0 + 3) (with_timer_zero (now s + e0 + 3) s)) ;;
   s6 <- delay fuel (u16 (time * 3) / 4 / 8) s5 ;;
   '(p3, counter, s7) <- wait_start fuel fuel (u16 (time * 3) / 4 / 8) p2 0 s6 ;;
   Some (u16 (time * 3) / 4 / 8, level s7 (now s7), counter, tick s7)).
Proof.
  intros Hw. unfold synchronise. unfold PINVALUE at 1. cbv beta iota.
  fold (level s (now s)). unfold tick at 1. rewrite Hw. cbn [obind].
  unfold PINVALUE at 1. cbv beta iota.
  replace (clear_TIMER (tick (with_now (now s + e0 + 2) s)))
    with (with_now (now s + e0 + 3) (with_timer_zero (now s + e0 + 3) s))
    by (unfold clear_TIMER, tick, with_now, with_timer_zero; proj; f_equal; lia).
  reflexivity.
Qed.

Lemma synchronise_on (fuel : nat) (s : mcu) (d p c : Z) (s' : mcu) :
  synchronise fuel s = Some (d, p, c, s') ->
  exists n' z',
    sync_on (level s) (timer_since s) (now s) d p c n' z'
    /\ s' = with_now n' (with_timer_zero z' s).
Proof.
  intros H.
  destruct (wait_for_edge fuel (level s (now s)) (with_now (now s + 1) s))
    as [s2|] eqn:Hw.
  2:{ unfold synchronise in H. unfold PINVALUE at 1 in H. cbv beta iota in H.
      fold (level s (now s)) in H. unfold tick at 1 in H.
      rewrite Hw in H. discriminate H. }
  destruct (wait_for_edge_on _ _ _ _ Hw) as (e0 & He0 & Hs2).
  change (now (with_now (now s + 1) s)) with (now s + 1) in *.
  change (level (with_now (now s + 1) s)) with (level s) in *.
  assert (Hs2' : s2 = with_now (now s + e0 + 2) s).
  { rewrite Hs2. unfold with_now. proj. f_equal. lia. }
  clear Hs2. subst s2.
  rewrite (synchronise_edge fuel s e0 Hw) in H.
  destruct (sync_loop 16 0 fuel (level s (now s + e0 + 2)) 0
              (with_now (now s + e0 + 3) (with_timer_zero (now s + e0 + 3) s)))
    as [[[p2 time] s5]|] eqn:Hs; [|discriminate H].
  cbn [obind] in H.
  destruct (sync_loop_on _ _ _ _ _ _ _ _ _ Hs) as (Hedges & Hs5).
  remember (now s5) as n2 eqn:Hn2. remember (timer_zero s5) as z2 eqn:Hz2.
  clear Hn2 Hz2 Hs. rewrite at_twice in Hs5. subst s5.
  destruct (delay fuel (u16 (time * 3) / 4 / 8)
              (with_now n2 (with_timer_zero z2 s))) as [s6|] eqn:Hd;
    [|discriminate H].
  cbn [obind] in H.
  destruct (delay_on _ _ _ _ Hd) as (m & Hm & Hs6). clear Hd.
  assert (Hs6' : s6 = with_now (n2 + m + 1) (with_timer_zero z2 s))
    by (rewrite Hs6; reflexivity).
  clear Hs6. subst s6.
  destruct (wait_start fuel fuel (u16 (time * 3) / 4 / 8) p2 0
              (with_now (n2 + m + 1) (with_timer_zero z2 s)))
    as [[[p3 c3] s7]|] eqn:Hst; [|discriminate H].
  cbn [obind] in H.
  destruct (wait_start_on _ _ _ _ _ _ _ _ _ Hst) as (Hstart & Hs7). clear Hst.
  remember (now s7) as n3 eqn:Hn3. remember (timer_zero s7) as z3 eqn:Hz3.
  clear Hn3 Hz3. rewrite at_twice in Hs7. subst s7.
  injection H as <- <- <- <-.
  exists (n3 + 1), z3. split; [|reflexivity].
  exists e0, p2, time, n2, z2, m, p3, n3.
  split; [exact He0|]. split; [exact Hedges|]. split; [reflexivity|].
  split; [exact Hm|]. split; [exact Hstart|]. split; reflexivity.
Qed.

Lemma synchronise_ends (s : mcu) (d p c n' z' : Z) :
  sync_on (level s) (timer_since s) (now s) d p c n' z' ->
  exists fuel0, forall fuel, (fuel0 <= fuel)%nat ->
    synchronise fuel s = Some (d, p, c, with_now n' (with_timer_zero z' s)).
Proof.
  intros (e0 & p2 & time & n2 & z2 & m & p3 & n3
          & He0 & Hedges & -> & Hm & Hstart & -> & ->).
  destruct (sync_loop_ends 16 0 (level s (now s + e0 + 2)) 0
              (with_now (now s + e0 + 3) (with_timer_zero (now s + e0 + 3) s))
              p2 time n2 z2 Hedges) as [fuel1 Hfuel1].
  destruct (wait_start_ends (u16 (time * 3) / 4 / 8) p2 0
              (with_now (n2 + m + 1) (with_timer_zero z2 s))
              p3 c n3 z' Hstart) as [fuel2 Hfuel2].
  exists (Nat.max (Nat.max fuel1 fuel2) (S (Nat.max (Z.to_nat e0) (Z.to_nat m)))).
  intros fuel Hfuel.
  rewrite (synchronise_edge fuel s e0).
  - rewrite Hfuel1 by lia. cbn [obind]. rewrite at_twice.
    rewrite (delay_ends fuel (u16 (time * 3) / 4 / 8)
               (with_now n2 (with_timer_zero z2 s)) m) by (exact Hm || lia).
    cbn [obind].
    change (with_now (now (with_now n2 (with_timer_zero z2 s)) + m + 1)
              (with_now n2 (with_timer_zero z2 s)))
      with (with_now (n2 + m + 1) (with_timer_zero z2 s)).
    rewrite Hfuel2 by lia. cbn [obind]. reflexivity.
  - rewrite (wait_for_edge_ends fuel (level s (now s)) (with_now (now s + 1) s) e0)
      by (exact He0 || lia).
    f_equal. unfold with_now. proj. f_equal. lia.
Qed.

(** ** The whole reception *)

Lemma receive_ends (n : nat) (s : mcu) (d p c n1 z1 : Z) (cells : list (Z * Z))
    (q n' z' : Z) :
  length cells = n ->
  Z.of_nat n <= 8 * Z.of_nat (length (FrameData s)) ->
  (length (FrameData s) <= 71)%nat ->
  sync_on (level s) (timer_since s) (now s) d p c n1 z1 ->
  cells_on (level s) (timer_since s) d p n1 z1 cells q n' z' ->
  exists fuel0, forall fuel, (fuel0 <= fuel)%nat ->
    ('(d, p, c, s1) <- synchronise fuel s ;;
     r <- receive_bits n fuel d (RX p 8 0 c s1) ;;
     Some (1, rx_mcu r)) = Some (1, received cells n' z' s).
Proof.
  intros Hn Hroom Hlen Hsync Hcells.
  destruct (synchronise_ends s d p c n1 z1 Hsync) as [fuel1 Hfuel1].
  destruct (sample_cells_ends cells d p (with_now n1 (with_timer_zero z1 s))
              q n' z' Hcells) as [fuel2 Hfuel2].
  exists (Nat.max fuel1 fuel2). intros fuel Hfuel.
  rewrite Hfuel1 by lia. cbn [obind].
  specialize (Hfuel2 fuel ltac:(lia)). rewrite Hn in Hfuel2.
  destruct (receive_bits_of_samples n fuel d p 8 0 c (FrameData s)
              (with_now n1 (with_timer_zero z1 s)) cells q
              (with_now n' (with_timer_zero z' (with_now n1 (with_timer_zero z1 s)))))
    as (r & Hr & Hm); [lia | lia | lia | exact Hlen | exact Hfuel2 |].
  assert (Hsame : with_FrameData (FrameData s) (with_now n1 (with_timer_zero z1 s))
                  = with_now n1 (with_timer_zero z1 s))
    by exact (with_FrameData_same (with_now n1 (with_timer_zero z1 s))).
  rewrite Hsame in Hr.
  rewrite Hr. cbn [obind]. rewrite Hm. reflexivity.
Qed.

Lemma receive_on (n fuel : nat) (s : mcu) (ok : Z) (s' : mcu) :
  Z.of_nat n <= 8 * Z.of_nat (length (FrameData s)) ->
  (length (FrameData s) <= 71)%nat ->
  ('(d, p, c, s1) <- synchronise fuel s ;;
   r <- receive_bits n fuel d (RX p 8 0 c s1) ;;
   Some (1, rx_mcu r)) = Some (ok, s') ->
  exists d p c n1 z1 cells q n' z',
    sync_on (level s) (timer_since s) (now s) d p c n1 z1
    /\ cells_on (level s) (timer_since s) d p n1 z1 cells q n' z'
    /\ length cells = n
    /\ s' = received cells n' z' s.
Proof.
  intros Hroom Hlen H.
  destruct (receive_inv _ _ _ _ _ H) as (_ & d & p & c & s1 & r & Hs & Hr & ->).
  destruct (synchronise_on _ _ _ _ _ _ Hs) as (n1 & z1 & Hsync & ->).
  rewrite <- (with_FrameData_same (with_now n1 (with_timer_zero z1 s))) in Hr.
  destruct (receive_bits_samples n fuel d p 8 0 c
              (FrameData (with_now n1 (with_timer_zero z1 s)))
              (with_now n1 (with_timer_zero z1 s)) r)
    as (cells & q & s2 & Hsam & Hcl & _ & Hm);
    [lia | lia | exact Hroom | exact Hlen | exact Hr |].
  destruct (sample_cells_on _ _ _ _ _ _ _ _ Hsam) as (Hcells & _ & Hs2).
  exists d, p, c, n1, z1, cells, q, (now s2), (timer_zero s2).
  split; [exact Hsync|]. split; [exact Hcells|]. split; [exact Hcl|].
  rewrite Hm. rewrite Hs2 at 1. reflexivity.
Qed.

Lemma received_frame (s : mcu) (cells : list (Z * Z)) (n' z' : Z) :
  length (FrameData s) = 71%nat -> length cells = (8 * 71)%nat ->
  now (received cells n' z' s) = n'
  /\ length (FrameData (received cells n' z' s)) = 71%nat
  /\ forall j, (j < 71)%nat ->
       nth j (FrameData (received cells n' z' s)) 0 =
       byte_msb_first (byte_cells cells j).
Proof.
  intros Hlen Hcl. unfold received. proj.
  split; [reflexivity|]. split.
  - rewrite length_pack_frame. exact Hlen.
  - intros j Hj.
    assert (H : nth j (pack_frame cells 8 (Z.of_nat 0) (FrameData s)) 0 =
                if (0 <=? j)%nat && (j <? 0 + 71)%nat
                then byte_msb_first (byte_cells cells (j - 0))
                else nth j (FrameData s) 0)
      by (apply pack_frame_bytes; lia).
    replace ((0 <=? j)%nat && (j <? 0 + 71)%nat) with true in H
      by (symmetry; apply andb_true_iff;
          split; [apply Nat.leb_le | apply Nat.ltb_lt]; lia).
    rewrite Nat.sub_0_r in H. exact H.
Qed.

(** C7.  [receiveFrame] decodes exactly [FRAMESIZE * 8] bit cells.  On a
    line that carries the synchronisation pattern and then that many cells
    the reception returns, for every bound on its busy waits that is large
    enough, and the machine it returns is the one at the instant right
    after the second sample of the last of these cells, with the frame
    packed from them; a reception that returns has seen such a line and
    returns nothing else; and the cells a line carries, with the instant
    they end at, are determined by the line.  The bit of a cell is 1
    exactly when the level sampled right after the cell's edge differs from
    the level sampled once the timer has reached [delayTime], and 0
    otherwise; byte [j] of the frame buffer holds the bits of cells
    [8 j .. 8 j + 7], the first on top. *)
Theorem receiveFrame_bits :
  (forall s d p c n1 z1 cells q n' z',
     length (FrameData s) = Z.to_nat FRAMESIZE ->
     sync_on (level s) (timer_since s) (now s) d p c n1 z1 ->
     cells_on (level s) (timer_since s) d p n1 z1 cells q n' z' ->
     length cells = Z.to_nat (FRAMESIZE * 8) ->
     exists fuel0, forall fuel, (fuel0 <= fuel)%nat ->
       receiveFrame fuel s = Some (1, received cells n' z' s))
  /\ (forall fuel s ok s',
        length (FrameData s) = Z.to_nat FRAMESIZE ->
        receiveFrame fuel s = Some (ok, s') ->
        exists d p c n1 z1 cells q n' z',
          sync_on (level s) (timer_since s) (now s) d p c n1 z1
          /\ cells_on (level s) (timer_since s) d p n1 z1 cells q n' z'
          /\ length cells = Z.to_nat (FRAMESIZE * 8)
          /\ s' = received cells n' z' s)
  /\ (forall lvl tmr d p n z cells1 q1 n1 z1 cells2 q2 n2 z2,
        cells_on lvl tmr d p n z cells1 q1 n1 z1 ->
        cells_on lvl tmr d p n z cells2 q2 n2 z2 ->
        length cells1 = length cells2 ->
        cells1 = cells2 /\ q1 = q2 /\ n1 = n2 /\ z1 = z2)
  /\ (forall s cells n' z',
        length (FrameData s) = Z.to_nat FRAMESIZE ->
        length cells = Z.to_nat (FRAMESIZE * 8) ->
        now (received cells n' z' s) = n'
        /\ length (FrameData (received cells n' z' s)) = Z.to_nat FRAMESIZE
        /\ forall j, (j < Z.to_nat FRAMESIZE)%nat ->
             nth j (FrameData (received cells n' z' s)) 0 =
             byte_msb_first (byte_cells cells j))
  /\ (forall c, cell_bit c = 1 <-> fst c <> snd c)
  /\ (forall c, cell_bit c = 0 <-> fst c = snd c)
  /\ (forall b0 b1 b2 b3 b4 b5 b6 b7,
        byte_msb_first [b0; b1; b2; b3; b4; b5; b6; b7] =
        128 * b0 + 64 * b1 + 32 * b2 + 16 * b3 + 8 * b4 + 4 * b5 + 2 * b6 + b7).
Proof.
  assert (H71 : Z.to_nat FRAMESIZE = 71%nat) by reflexivity.
  assert (H568 : Z.to_nat (FRAMESIZE * 8) = (8 * 71)%nat) by reflexivity.
  split; [|split; [|split; [|split; [|split; [|split]]]]].
  - intros s d p c n1 z1 cells q n' z' Hlen Hsync Hcells Hcl.
    destruct (receive_ends (Z.to_nat (FRAMESIZE * 8)) s d p c n1 z1 cells q n' z')
      as [fuel0 H]; try assumption.
    + rewrite Hlen, H71, H568. lia.
    + rewrite Hlen, H71. lia.
    + exists fuel0. intros fuel Hf. exact (H fuel Hf).
  - intros fuel s ok s' Hlen H.
    apply (receive_on (Z.to_nat (FRAMESIZE * 8)) fuel s ok s').
    + rewrite Hlen, H71, H568. lia.
    + rewrite Hlen, H71. lia.
    + exact H.
  - intros lvl tmr d p n z cells1 q1 n1 z1 cells2 q2 n2 z2 H1 H2 Hlen.
    exact (cells_on_one lvl tmr d p n z cells1 q1 n1 z1 H1 cells2 q2 n2 z2 H2 Hlen).
  - intros s cells n' z' Hlen Hcl. rewrite H71 in *. rewrite H568 in Hcl.
    apply received_frame; assumption.
  - intros x. unfold cell_bit. destruct (Z.eqb_spec (fst x) (snd x)); split;
      intros; try lia; try contradiction; reflexivity.
  - intros x. unfold cell_bit. destruct (Z.eqb_spec (fst x) (snd x)); split;
      intros; try lia; try contradiction; reflexivity.
  - apply byte_msb_first_8.
Qed.

Lemma receiveFrame_bits_witness :
  exists fuel0 s',
    (forall fuel, (fuel0 <= fuel)%nat -> receiveFrame fuel listening = Some (1, s'))
    /\ FrameData s' = frame_of PROGCOMMAND 1 0 64 0x1234.
Proof.
  pose proof listening_receives as Hc.
  destruct (receiveFrame 64 listening) as [[ok s']|] eqn:E; [|discriminate Hc].
  cbn [option_map snd] in Hc. injection Hc as Hframe.
  destruct (proj1 (proj2 receiveFrame_bits) 64%nat listening ok s' eq_refl E)
    as (d & p & c & n1 & z1 & cells & q & n' & z' & Hsync & Hcells & Hlen & ->).
  destruct (proj1 receiveFrame_bits listening d p c n1 z1 cells q n' z'
              eq_refl Hsync Hcells Hlen) as [fuel0 H].
  exists fuel0, (received cells n' z' listening).
  split; [exact H | exact Hframe].
Defined.
